(** * ollama-proxy-metrics: the request handler and its metric emission

    A shallow embedding of [cmd/ollama-proxy-metrics/main.go].

    The handler [proxyHandler] is straight-line code with early returns.  Its
    effects are calls on six Prometheus metric vectors, writes on the
    [http.ResponseWriter], one upstream call and log lines.  They are
    embedded as a trace of events produced in a small monad with early
    return, panic and Go's [defer].

    The two [json.Unmarshal] calls are embedded through a model of
    [encoding/json]: byte strings are parsed to a syntax tree by the grammar
    of Go's scanner, and the tree is stored into the two structs of the
    program by the rules of Go's decoder.

    Three library calls of the handler panic on arguments that the handler
    does not check, and are embedded with their panics: [Counter.Add] on a
    negative amount, [WithLabelValues] on a label value that is not valid
    UTF-8, and [WriteHeader] on a status code that has not three digits.

    [http.Error] is embedded as the status it sends and the message it
    writes.  [http.NewRequestWithContext] is a call on the method, the
    [url.URL] whose text the handler passes, and the body; whether it fails
    for them is given with the call.

    Of the rest of the program, [getEnv] and the flags of [main] are
    embedded, the flags through a model of the package [flag]; [url.Parse]
    and the server itself are left outside. *)

From Stdlib Require Import ZArith NArith List String Ascii Bool Lia DecimalString.
From Stdlib Require DecimalZ DecimalPos DecimalFacts.
Import ListNotations.

Local Open Scope string_scope.
Local Open Scope list_scope.

(** ** Bytes and byte strings

    A Go [string] and a Go [[]byte] are both sequences of 8-bit bytes; both
    are embedded as [string].  The scanner works on [list ascii]. *)

Definition code (c : ascii) : N := N_of_ascii c.
Definition byte_of (n : N) : ascii := ascii_of_N n.

(** The quotation mark, byte 0x22. *)
Definition dquote : ascii := byte_of 34.

Definition bytes (s : string) : list ascii := list_ascii_of_string s.
Definition str (l : list ascii) : string := string_of_list_ascii l.

(** [quoted s] is [s] between two quotation marks, for writing JSON text. *)
Definition quoted (s : string) : string :=
  String dquote (s ++ String dquote EmptyString).

Definition between (lo hi : N) (c : ascii) : bool :=
  (lo <=? code c)%N && (code c <=? hi)%N.

Definition is_space (c : ascii) : bool :=
  (code c =? 32)%N || (code c =? 9)%N || (code c =? 13)%N || (code c =? 10)%N.

Definition is_digit (c : ascii) : bool := between 48 57 c.

Definition is_hex (c : ascii) : bool :=
  is_digit c || between 97 102 c || between 65 70 c.

Definition hex_val (c : ascii) : N :=
  if is_digit c then code c - 48
  else if between 97 102 c then code c - 87
  else code c - 55.

(** ** UTF-8, as [unicode/utf8] decodes and encodes it *)

Module UTF8.

Definition RuneError : N := 65533.

Definition cont (lo hi : N) (c : ascii) : bool := between lo hi c.
Definition low6 (c : ascii) : N := N.land (code c) 63.

(** [utf8.DecodeRune]: the first rune of [s] and its width; an invalid or
    truncated encoding is ([RuneError], 1). *)
Definition DecodeRune (s : list ascii) : N * nat :=
  match s with
  | [] => (RuneError, 0%nat)
  | c0 :: t =>
    let b0 := code c0 in
    if (b0 <? 128)%N then (b0, 1%nat)
    else if (b0 <? 194)%N then (RuneError, 1%nat)
    else if (b0 <? 224)%N then
      match t with
      | c1 :: _ =>
        if cont 128 191 c1
        then (N.shiftl (N.land b0 31) 6 + low6 c1, 2%nat)%N
        else (RuneError, 1%nat)
      | _ => (RuneError, 1%nat)
      end
    else if (b0 <? 240)%N then
      match t with
      | c1 :: c2 :: _ =>
        let lo := if (b0 =? 224)%N then 160%N else 128%N in
        let hi := if (b0 =? 237)%N then 159%N else 191%N in
        if cont lo hi c1 && cont 128 191 c2
        then (N.shiftl (N.land b0 15) 12 + N.shiftl (low6 c1) 6 + low6 c2,
              3%nat)%N
        else (RuneError, 1%nat)
      | _ => (RuneError, 1%nat)
      end
    else if (b0 <? 245)%N then
      match t with
      | c1 :: c2 :: c3 :: _ =>
        let lo := if (b0 =? 240)%N then 144%N else 128%N in
        let hi := if (b0 =? 244)%N then 143%N else 191%N in
        if cont lo hi c1 && cont 128 191 c2 && cont 128 191 c3
        then (N.shiftl (N.land b0 7) 18 + N.shiftl (low6 c1) 12
              + N.shiftl (low6 c2) 6 + low6 c3, 4%nat)%N
        else (RuneError, 1%nat)
      | _ => (RuneError, 1%nat)
      end
    else (RuneError, 1%nat)
  end.

Definition tail6 (r : N) (k : N) : ascii :=
  byte_of (128 + N.land (N.shiftr r k) 63).

(** [utf8.EncodeRune]; a surrogate or a value above U+10FFFF is written as
    U+FFFD. *)
Definition EncodeRune (r0 : N) : list ascii :=
  let r :=
    if ((55296 <=? r0) && (r0 <? 57344) || (1114111 <? r0))%N
    then RuneError else r0 in
  if (r <? 128)%N then [byte_of r]
  else if (r <? 2048)%N then [byte_of (192 + N.shiftr r 6); tail6 r 0]
  else if (r <? 65536)%N then
    [byte_of (224 + N.shiftr r 12); tail6 r 6; tail6 r 0]
  else [byte_of (240 + N.shiftr r 18); tail6 r 12; tail6 r 6; tail6 r 0].

(** [utf8.ValidString]: the bytes are a sequence of well-formed encodings. *)
Fixpoint ValidString (s : list ascii) : bool :=
  match s with
  | [] => true
  | c0 :: t =>
    let b0 := code c0 in
    if (b0 <? 128)%N then ValidString t
    else if (b0 <? 194)%N then false
    else if (b0 <? 224)%N then
      match t with
      | c1 :: t1 => cont 128 191 c1 && ValidString t1
      | [] => false
      end
    else if (b0 <? 240)%N then
      match t with
      | c1 :: c2 :: t2 =>
        cont (if (b0 =? 224)%N then 160 else 128)
             (if (b0 =? 237)%N then 159 else 191) c1
        && cont 128 191 c2 && ValidString t2
      | _ => false
      end
    else if (b0 <? 245)%N then
      match t with
      | c1 :: c2 :: c3 :: t3 =>
        cont (if (b0 =? 240)%N then 144 else 128)
             (if (b0 =? 244)%N then 143 else 191) c1
        && cont 128 191 c2 && cont 128 191 c3 && ValidString t3
      | _ => false
      end
    else false
  end.

End UTF8.

(** ** JSON text, as [encoding/json] scans it *)

Module JSON.

(** A JSON value.  A number keeps the text of its literal, as the decoder
    hands it to [strconv]; a string and an object key hold the unquoted
    bytes. *)
#[warnings="-register-all"]
Inductive value : Type :=
| JNull
| JBool (b : bool)
| JNumber (lit : string)
| JString (s : string)
| JArray (elems : list value)
| JObject (members : list (string * value)).

(** The scanner refuses input nested deeper than this. *)
Definition maxNestingDepth : N := 10000.

Fixpoint skip_space (s : list ascii) : list ascii :=
  match s with
  | c :: t => if is_space c then skip_space t else s
  | [] => []
  end.

Fixpoint span_digits (s : list ascii) : list ascii * list ascii :=
  match s with
  | c :: t =>
    if is_digit c
    then let '(ds, r) := span_digits t in (c :: ds, r)
    else ([], s)
  | [] => ([], [])
  end.

(** A number literal: an optional minus sign; then a single 0, or a digit
    from 1 to 9 followed by any digits; then optionally a point and one or
    more digits; then optionally e or E, an optional sign and one or more
    digits. *)
Definition scan_int (s : list ascii) : option (list ascii * list ascii) :=
  match s with
  | c :: t =>
    if (c =? "0")%char then Some ([c], t)
    else if is_digit c
         then let '(ds, r) := span_digits t in Some (c :: ds, r)
         else None
  | [] => None
  end.

Definition scan_frac (s : list ascii) : option (list ascii * list ascii) :=
  match s with
  | c :: t =>
    if (c =? ".")%char then
      match span_digits t with
      | ([], _) => None
      | (ds, r) => Some (c :: ds, r)
      end
    else Some ([], s)
  | [] => Some ([], s)
  end.

Definition scan_exp (s : list ascii) : option (list ascii * list ascii) :=
  match s with
  | c :: t =>
    if ((c =? "e") || (c =? "E"))%char then
      let '(sg, t1) :=
        match t with
        | d :: t' =>
          if ((d =? "+") || (d =? "-"))%char then ([d], t') else ([], t)
        | [] => ([], t)
        end in
      match span_digits t1 with
      | ([], _) => None
      | (ds, r) => Some (c :: sg ++ ds, r)
      end
    else Some ([], s)
  | [] => Some ([], s)
  end.

Definition scan_number (s : list ascii) : option (list ascii * list ascii) :=
  let '(sg, s1) :=
    match s with
    | c :: t => if (c =? "-")%char then ([c], t) else ([], s)
    | [] => ([], s)
    end in
  match scan_int s1 with
  | None => None
  | Some (ip, r1) =>
    match scan_frac r1 with
    | None => None
    | Some (fp, r2) =>
      match scan_exp r2 with
      | None => None
      | Some (ep, r3) => Some (sg ++ ip ++ fp ++ ep, r3)
      end
    end
  end.

Definition is_simple_escape (c : ascii) : bool :=
  ((c =? "b") || (c =? "f") || (c =? "n") || (c =? "r") || (c =? "t")
   || (c =? "\") || (c =? "/") || Ascii.eqb c dquote)%char.

(** The bytes of a string literal after its opening quotation mark: the
    raw contents up to the closing mark, and the rest of the input.
    Control bytes and malformed escapes are refused; bytes from 0x80 up
    are accepted as they come. *)
Fixpoint scan_string (s : list ascii) : option (list ascii * list ascii) :=
  match s with
  | [] => None
  | c :: t =>
    if Ascii.eqb c dquote then Some ([], t)
    else if (c =? "\")%char then
      match t with
      | e :: t1 =>
        if is_simple_escape e then
          match scan_string t1 with
          | Some (raw, r) => Some (c :: e :: raw, r)
          | None => None
          end
        else if (e =? "u")%char then
          match t1 with
          | h1 :: h2 :: h3 :: h4 :: t2 =>
            if is_hex h1 && is_hex h2 && is_hex h3 && is_hex h4 then
              match scan_string t2 with
              | Some (raw, r) => Some (c :: e :: h1 :: h2 :: h3 :: h4 :: raw, r)
              | None => None
              end
            else None
          | _ => None
          end
        else None
      | [] => None
      end
    else if (code c <? 32)%N then None
    else
      match scan_string t with
      | Some (raw, r) => Some (c :: raw, r)
      | None => None
      end
  end.

(** [getu4]: the code unit of a [\uXXXX] escape at the head of [s]. *)
Definition getu4 (s : list ascii) : option N :=
  match s with
  | b :: u :: h1 :: h2 :: h3 :: h4 :: _ =>
    if (b =? "\")%char && (u =? "u")%char
       && is_hex h1 && is_hex h2 && is_hex h3 && is_hex h4
    then Some (4096 * hex_val h1 + 256 * hex_val h2
               + 16 * hex_val h3 + hex_val h4)%N
    else None
  | _ => None
  end.

Definition IsSurrogate (r : N) : bool := ((55296 <=? r) && (r <? 57344))%N.

(** [utf16.DecodeRune], [None] standing for the replacement character. *)
Definition utf16_DecodeRune (r1 : N) (r2 : option N) : option N :=
  match r2 with
  | Some r2 =>
    if ((55296 <=? r1) && (r1 <? 56320) && (56320 <=? r2) && (r2 <? 57344))%N
    then Some (N.shiftl (r1 - 55296) 10 + (r2 - 56320) + 65536)%N
    else None
  | None => None
  end.

Definition unescape (e : ascii) : ascii :=
  if (e =? "b")%char then byte_of 8
  else if (e =? "f")%char then byte_of 12
  else if (e =? "n")%char then byte_of 10
  else if (e =? "r")%char then byte_of 13
  else if (e =? "t")%char then byte_of 9
  else e.

(** [unquoteBytes] on the raw contents of a scanned literal: escapes are
    replaced, a surrogate pair becomes one rune, a lone surrogate and any
    byte sequence that is not UTF-8 become U+FFFD.  The result is [None] on
    contents that the scanner does not let through: a quotation mark or a
    control byte inside, or a malformed escape. *)
Fixpoint unquote_aux (fuel : nat) (s : list ascii) : option (list ascii) :=
  match fuel with
  | O => None
  | S fuel' =>
    match s with
    | [] => Some []
    | c :: t =>
      if (c =? "\")%char then
        match t with
        | [] => None
        | e :: t1 =>
          if (e =? "u")%char then
            match getu4 s with
            | None => None
            | Some rr =>
              if IsSurrogate rr then
                match utf16_DecodeRune rr (getu4 (skipn 6 s)) with
                | Some dec =>
                  option_map (app (UTF8.EncodeRune dec))
                    (unquote_aux fuel' (skipn 12 s))
                | None =>
                  option_map (app (UTF8.EncodeRune UTF8.RuneError))
                    (unquote_aux fuel' (skipn 6 s))
                end
              else
                option_map (app (UTF8.EncodeRune rr))
                  (unquote_aux fuel' (skipn 6 s))
            end
          else if is_simple_escape e then
            option_map (cons (unescape e)) (unquote_aux fuel' t1)
          else None
        end
      else if Ascii.eqb c dquote || (code c <? 32)%N then None
      else if (code c <? 128)%N then
        option_map (cons c) (unquote_aux fuel' t)
      else
        let '(rr, size) := UTF8.DecodeRune s in
        option_map (app (UTF8.EncodeRune rr))
          (unquote_aux fuel' (skipn size s))
    end
  end.

Definition unquote (raw : list ascii) : option string :=
  option_map str (unquote_aux (S (List.length raw)) raw).

(** The raw contents of a string literal are well escaped: every backslash
    opens a complete escape, and no quotation mark or control byte stands
    alone. *)
Fixpoint well_escaped (s : list ascii) : bool :=
  match s with
  | [] => true
  | c :: t =>
    if (c =? "\")%char then
      match t with
      | e :: t1 =>
        if is_simple_escape e then well_escaped t1
        else if (e =? "u")%char then
          match t1 with
          | h1 :: h2 :: h3 :: h4 :: t2 =>
            is_hex h1 && is_hex h2 && is_hex h3 && is_hex h4
            && well_escaped t2
          | _ => false
          end
        else false
      | [] => false
      end
    else if Ascii.eqb c dquote || (code c <? 32)%N then false
    else well_escaped t
  end.

Fixpoint strip_prefix (p s : list ascii) : option (list ascii) :=
  match p, s with
  | [], _ => Some s
  | a :: p', b :: s' => if Ascii.eqb a b then strip_prefix p' s' else None
  | _ :: _, [] => None
  end.

(** The outcome of scanning: a value and the unread input, a syntax
    error, or fuel exhausted. *)
Inductive scan (A : Type) : Type :=
| Scanned (a : A) (rest : list ascii)
| SyntaxError
| OutOfFuel.
Arguments Scanned {A} a rest.
Arguments SyntaxError {A}.
Arguments OutOfFuel {A}.

(** An object key after its opening quotation mark: the unquoted key and the
    rest of the input. *)
Definition scan_key (s : list ascii) : option (string * list ascii) :=
  match scan_string s with
  | Some (raw, r) =>
    match unquote raw with
    | Some k => Some (k, r)
    | None => None
    end
  | None => None
  end.

Definition scan_literal (s : list ascii) : scan value :=
  match s with
  | [] => SyntaxError
  | c :: t =>
    if Ascii.eqb c dquote then
      match scan_string t with
      | Some (raw, r) =>
        match unquote raw with
        | Some s' => Scanned (JString s') r
        | None => SyntaxError
        end
      | None => SyntaxError
      end
    else if (c =? "t")%char then
      match strip_prefix (bytes "rue") t with
      | Some r => Scanned (JBool true) r
      | None => SyntaxError
      end
    else if (c =? "f")%char then
      match strip_prefix (bytes "alse") t with
      | Some r => Scanned (JBool false) r
      | None => SyntaxError
      end
    else if (c =? "n")%char then
      match strip_prefix (bytes "ull") t with
      | Some r => Scanned JNull r
      | None => SyntaxError
      end
    else
      match scan_number s with
      | Some (lit, r) => Scanned (JNumber (str lit)) r
      | None => SyntaxError
      end
  end.

(** One value at the head of [s], after white space.  [depth] counts the
    arrays and objects that are open. *)
Fixpoint scan_value (fuel : nat) (depth : N) (s : list ascii)
  : scan value :=
  match fuel with
  | O => OutOfFuel
  | S fuel' =>
    match skip_space s with
    | [] => SyntaxError
    | c :: t =>
      if (c =? "[")%char then
        if (maxNestingDepth <=? depth)%N then SyntaxError
        else
          match skip_space t with
          | c1 :: t1 =>
            if (c1 =? "]")%char then Scanned (JArray []) t1
            else
              match scan_elements fuel' (N.succ depth) t with
              | Scanned vs r => Scanned (JArray vs) r
              | SyntaxError => SyntaxError
              | OutOfFuel => OutOfFuel
              end
          | [] => SyntaxError
          end
      else if (c =? "{")%char then
        if (maxNestingDepth <=? depth)%N then SyntaxError
        else
          match skip_space t with
          | c1 :: t1 =>
            if (c1 =? "}")%char then Scanned (JObject []) t1
            else
              match scan_members fuel' (N.succ depth) t with
              | Scanned ms r => Scanned (JObject ms) r
              | SyntaxError => SyntaxError
              | OutOfFuel => OutOfFuel
              end
          | [] => SyntaxError
          end
      else scan_literal (c :: t)
    end
  end

(** The elements of an array from its first element to the closing
    bracket. *)
with scan_elements (fuel : nat) (depth : N) (s : list ascii)
  : scan (list value) :=
  match fuel with
  | O => OutOfFuel
  | S fuel' =>
    match scan_value fuel' depth s with
    | Scanned v r =>
      match skip_space r with
      | c :: t =>
        if (c =? "]")%char then Scanned [v] t
        else if (c =? ",")%char then
          match scan_elements fuel' depth t with
          | Scanned vs r' => Scanned (v :: vs) r'
          | SyntaxError => SyntaxError
          | OutOfFuel => OutOfFuel
          end
        else SyntaxError
      | [] => SyntaxError
      end
    | SyntaxError => SyntaxError
    | OutOfFuel => OutOfFuel
    end
  end

(** The members of an object from its first key to the closing brace. *)
with scan_members (fuel : nat) (depth : N) (s : list ascii)
  : scan (list (string * value)) :=
  match fuel with
  | O => OutOfFuel
  | S fuel' =>
    match skip_space s with
    | c :: t =>
      if Ascii.eqb c dquote then
        match scan_key t with
        | Some (key, r0) =>
          match skip_space r0 with
          | c1 :: t1 =>
            if (c1 =? ":")%char then
              match scan_value fuel' depth t1 with
              | Scanned v r =>
                match skip_space r with
                | c2 :: t2 =>
                  if (c2 =? "}")%char then Scanned [(key, v)] t2
                  else if (c2 =? ",")%char then
                    match scan_members fuel' depth t2 with
                    | Scanned ms r' => Scanned ((key, v) :: ms) r'
                    | SyntaxError => SyntaxError
                    | OutOfFuel => OutOfFuel
                    end
                  else SyntaxError
                | [] => SyntaxError
                end
              | SyntaxError => SyntaxError
              | OutOfFuel => OutOfFuel
              end
            else SyntaxError
          | [] => SyntaxError
          end
        | None => SyntaxError
        end
      else SyntaxError
    | [] => SyntaxError
    end
  end.

(** The fuel that [parse] gives the scanner for an input of [n] bytes. *)
Definition fuel_for (n : nat) : nat := 2 * n + 2.

(** [parse data] is the one JSON value that [data] spells, with white space
    allowed around it, or [None] where [checkValid] reports a syntax
    error.  Empty input is a syntax error. *)
Definition parse (data : string) : option value :=
  let s := bytes data in
  match scan_value (fuel_for (List.length s)) 0 s with
  | Scanned v r =>
    match skip_space r with
    | [] => Some v
    | _ :: _ => None
    end
  | _ => None
  end.

(** Every scan with this fuel consumes input when it succeeds. *)
Definition shrinks (fuel : nat) : Prop :=
  (forall d s v r, scan_value fuel d s = Scanned v r ->
                   (List.length r < List.length s)%nat) /\
  (forall d s vs r, scan_elements fuel d s = Scanned vs r ->
                    (List.length r < List.length s)%nat) /\
  (forall d s ms r, scan_members fuel d s = Scanned ms r ->
                    (List.length r < List.length s)%nat).

(** With fuel above twice the length of the input, no scan gives up. *)
Definition fuelled (fuel : nat) : Prop :=
  (forall d s, (2 * List.length s + 1 <= fuel)%nat ->
               scan_value fuel d s <> OutOfFuel) /\
  (forall d s, (2 * List.length s + 2 <= fuel)%nat ->
               scan_elements fuel d s <> OutOfFuel) /\
  (forall d s, (2 * List.length s + 2 <= fuel)%nat ->
               scan_members fuel d s <> OutOfFuel).

End JSON.

(** ** Go values used by the program *)

Local Open Scope Z_scope.

Definition len (s : string) : Z := Z.of_nat (String.length s).

(** [strconv.Itoa]. *)
Definition Itoa (n : Z) : string := NilZero.string_of_int (Z.to_int n).

(** The conversion [float64(n)] of an integer, as the exact value of the
    resulting float: [n] rounded to 53 significant bits, ties to even.  The
    value is again an integer, so the amounts passed to the counters are
    embedded in [Z]. *)
Definition float64_of_int (n : Z) : Z :=
  let a := Z.abs n in
  let k := Z.log2 a - 52 in
  if k <=? 0 then n
  else
    let q := Z.shiftr a k in
    let r := Z.land a (Z.ones k) in
    let half := Z.shiftl 1 (k - 1) in
    let q' := if (half <? r) || ((r =? half) && Z.odd q) then q + 1 else q in
    Z.sgn n * Z.shiftl q' k.

(** [strconv.ParseInt(s, 10, 64)] where it succeeds: an optional sign, one or
    more decimal digits and nothing else, with a value that fits [int64]. *)
Definition digits_value (ds : list ascii) : Z :=
  fold_left (fun acc c => 10 * acc + Z.of_N (code c - 48)) ds 0.

Definition ParseInt64 (s : string) : option Z :=
  let '(neg, ds) :=
    match bytes s with
    | c :: t =>
      if (c =? "+")%char then (false, t)
      else if (c =? "-")%char then (true, t)
      else (false, c :: t)
    | [] => (false, [])
    end in
  match ds with
  | [] => None
  | _ :: _ =>
    if forallb is_digit ds then
      let un := digits_value ds in
      if neg then (if un <=? 2 ^ 63 then Some (- un) else None)
      else (if un <? 2 ^ 63 then Some un else None)
    else None
  end.

(** [strings.TrimRight(s, "/")]. *)
Fixpoint TrimRight_slash_aux (l : list ascii) : list ascii :=
  match l with
  | [] => []
  | c :: t =>
    match TrimRight_slash_aux t with
    | [] => if (c =? "/")%char then [] else [c]
    | t' => c :: t'
    end
  end.

Definition TrimRight_slash (s : string) : string :=
  str (TrimRight_slash_aux (bytes s)).

(** ** How [encoding/json] stores a value into a struct field *)

Module Decoder.
Import JSON.

(** [foldName]: the key with which a field is looked up when no field has
    exactly the key's name.  ASCII letters go to upper case.  Of the other
    runes only U+017F (long s) and U+212A (Kelvin sign) fold to an ASCII
    letter; the rest are left in place, which no ASCII field name equals
    before or after folding. *)
Fixpoint foldName (s : list ascii) : list ascii :=
  match s with
  | [] => []
  | c :: t =>
    if between 97 122 c then byte_of (code c - 32) :: foldName t
    else
      match t with
      | c1 :: t1 =>
        if ((code c =? 197) && (code c1 =? 191))%N
        then "S"%char :: foldName t1
        else
          match t1 with
          | c2 :: t2 =>
            if ((code c =? 226) && (code c1 =? 132) && (code c2 =? 170))%N
            then "K"%char :: foldName t2
            else c :: foldName t
          | [] => c :: foldName t
          end
      | [] => c :: foldName t
      end
  end.

(** An object key selects the field of that name, or else the field whose
    folded name is the folded key. *)
Definition field_matches (name key : string) : bool :=
  String.eqb key name
  || String.eqb (str (foldName (bytes key))) (str (foldName (bytes name))).

(** [indirect]: a nil pointer is made to point to a fresh zero value
    before the decoder looks at the kind of the JSON value. *)
Definition indirect {A : Type} (zero : A) (cur : option A) : A :=
  match cur with
  | Some a => a
  | None => zero
  end.

(** Each [store_*] gives the new contents of the field and whether an
    [UnmarshalTypeError] was saved.  A saved error does not stop the
    decoder. *)

(** Into a [string]: [null] leaves the field as it is. *)
Definition store_string (v : value) (cur : string) : string * bool :=
  match v with
  | JString s => (s, false)
  | JNull => (cur, false)
  | _ => (cur, true)
  end.

(** Into a [*bool]: [null] sets the pointer to nil; for any other value the
    pointer is first allocated by [indirect], and stays allocated when the
    value is not a boolean. *)
Definition store_bool_ptr (v : value) (cur : option bool)
  : option bool * bool :=
  match v with
  | JNull => (None, false)
  | JBool b => (Some b, false)
  | _ => (Some (indirect false cur), true)
  end.

(** Into a [*int64]: as for [*bool]; a number is converted by
    [strconv.ParseInt], so a literal with a fraction or an exponent, or out
    of range, is a type error. *)
Definition store_int64_ptr (v : value) (cur : option Z)
  : option Z * bool :=
  match v with
  | JNull => (None, false)
  | JNumber lit =>
    match ParseInt64 lit with
    | Some n => (Some n, false)
    | None => (Some (indirect 0 cur), true)
    end
  | _ => (Some (indirect 0 cur), true)
  end.

End Decoder.

(** ** The program's types *)

(** [RequestPayload]: the minimal shape taken from the incoming request.
    [Stream] is a [*bool]. *)
Record RequestPayload : Type := {
  Model : string;
  Stream : option bool
}.

(** [OllamaResponseMetrics]: the token statistics; both fields are [*int64]. *)
Record OllamaResponseMetrics : Type := {
  EvalCount : option Z;
  PromptEvalCount : option Z
}.

Definition RequestPayload_zero : RequestPayload :=
  {| Model := EmptyString; Stream := None |}.

Definition OllamaResponseMetrics_zero : OllamaResponseMetrics :=
  {| EvalCount := None; PromptEvalCount := None |}.

(** [json.Unmarshal(data, &payload)].  The members of the object are stored
    in the order of the text, so that of two members for one field the later
    is stored last.  The result is the struct after the call and whether the
    call returned an error. *)
Definition store_RequestPayload
  (acc : RequestPayload * bool) (kv : string * JSON.value)
  : RequestPayload * bool :=
  let '(p, err) := acc in
  let '(k, v) := kv in
  if Decoder.field_matches "model" k then
    let '(m, e) := Decoder.store_string v (Model p) in
    ({| Model := m; Stream := Stream p |}, err || e)
  else if Decoder.field_matches "stream" k then
    let '(s, e) := Decoder.store_bool_ptr v (Stream p) in
    ({| Model := Model p; Stream := s |}, err || e)
  else (p, err).

Definition Unmarshal_RequestPayload (data : string) (p : RequestPayload)
  : RequestPayload * bool :=
  match JSON.parse data with
  | None => (p, true)
  | Some (JSON.JObject ms) => fold_left store_RequestPayload ms (p, false)
  | Some JSON.JNull => (p, false)
  | Some _ => (p, true)
  end.

(** [json.Unmarshal(respBuf, &m)]. *)
Definition store_OllamaResponseMetrics
  (acc : OllamaResponseMetrics * bool) (kv : string * JSON.value)
  : OllamaResponseMetrics * bool :=
  let '(m, err) := acc in
  let '(k, v) := kv in
  if Decoder.field_matches "eval_count" k then
    let '(n, e) := Decoder.store_int64_ptr v (EvalCount m) in
    ({| EvalCount := n; PromptEvalCount := PromptEvalCount m |}, err || e)
  else if Decoder.field_matches "prompt_eval_count" k then
    let '(n, e) := Decoder.store_int64_ptr v (PromptEvalCount m) in
    ({| EvalCount := EvalCount m; PromptEvalCount := n |}, err || e)
  else (m, err).

Definition Unmarshal_OllamaResponseMetrics
  (data : string) (m : OllamaResponseMetrics)
  : OllamaResponseMetrics * bool :=
  match JSON.parse data with
  | None => (m, true)
  | Some (JSON.JObject ms) => fold_left store_OllamaResponseMetrics ms (m, false)
  | Some JSON.JNull => (m, false)
  | Some _ => (m, true)
  end.

(** ** HTTP data *)

(** [http.Header]: the values of each key, in the order they were added.
    Keys are compared as they are: the headers that [net/http] hands to the
    program are keyed in canonical form already, and so is the one literal
    key of the program, Content-Type. *)
Definition Header : Type := list (string * list string).

Fixpoint Header_Add (k v : string) (h : Header) : Header :=
  match h with
  | [] => [(k, [v])]
  | (k', vs) :: t =>
    if String.eqb k k' then (k', vs ++ [v]) :: t
    else (k', vs) :: Header_Add k v t
  end.

Fixpoint Header_Get (k : string) (h : Header) : string :=
  match h with
  | [] => EmptyString
  | (k', vs) :: t =>
    if String.eqb k k' then hd EmptyString vs else Header_Get k t
  end.

Fixpoint Header_Set (k v : string) (h : Header) : Header :=
  match h with
  | [] => [(k, [v])]
  | (k', vs) :: t =>
    if String.eqb k k' then (k', [v]) :: t
    else (k', vs) :: Header_Set k v t
  end.

(** The two nested [range] loops that copy a header: every value of every
    key of [src] is added to [dst]. *)
Definition copy_header (src dst : Header) : Header :=
  fold_left
    (fun d (kv : string * list string) =>
       fold_left (fun d' v => Header_Add (fst kv) v d') (snd kv) d)
    src dst.

(** An [io.Reader] read to its end: the bytes it yields, and whether the
    reading ends in an error instead of EOF. *)
Record Reader : Type := {
  rd_data : string;
  rd_fails : bool
}.

(** [io.ReadAll]: the bytes read and whether [err != nil]. *)
Definition ReadAll (rd : Reader) : string * bool := (rd_data rd, rd_fails rd).

(** The inbound [*http.Request], as far as the handler reads it. *)
Record Request : Type := {
  Method : string;
  URL_Path : string;
  URL_RawQuery : string;
  Req_Header : Header;
  Body : option Reader
}.

(** The [*http.Response] of the upstream. *)
Record Response : Type := {
  StatusCode : Z;
  Resp_Header : Header;
  Resp_Body : Reader
}.

(** A [url.URL], as far as the handler touches it. *)
Record URL : Type := {
  Scheme : string;
  Host : string;
  Path : string;
  RawQuery : string
}.

(** The [*http.Request] that the handler hands to [httpClient.Do], as far as
    the handler settles it: the method and the body that
    [http.NewRequestWithContext] puts in, and the header that the handler
    fills.  Its URL is the one that [http.NewRequestWithContext] parses from
    the text it is given; that URL is not part of this record. *)
Record UpstreamRequest : Type := {
  up_Method : string;
  up_Header : Header;
  up_Body : string
}.

Definition StatusBadRequest : Z := 400.
Definition StatusInternalServerError : Z := 500.
Definition StatusBadGateway : Z := 502.

(** ** The surroundings of one call of the handler

    Everything the handler obtains from outside: the configured upstream,
    the results of the library calls it makes, the behaviour of the client
    connection, and the clock. *)
Inductive DoResult : Type :=
| DoError
| DoResponse (resp : Response).

Record World : Type := {
  (** the global [upstreamURL] *)
  upstreamURL : URL;
  (** whether [http.NewRequestWithContext] returns an error in this call,
      that is for the method and the URL text that this call gives it *)
  newRequest_fails : bool;
  (** what [httpClient.Do] returns *)
  upstream : DoResult;
  (** how many body bytes the [http.ResponseWriter] takes before a [Write]
      fails; [None] when it never fails *)
  client_takes : option nat;
  (** [time.Since(start)] in nanoseconds, where the handler reads it *)
  elapsed : Z
}.

(** The world in which the upstream answers with the status [code]
    instead of its own. *)
Definition with_status (code : Z) (w : World) : World :=
  {| upstreamURL := upstreamURL w;
     newRequest_fails := newRequest_fails w;
     upstream :=
       match upstream w with
       | DoError => DoError
       | DoResponse resp =>
         DoResponse {| StatusCode := code;
                       Resp_Header := Resp_Header resp;
                       Resp_Body := Resp_Body resp |}
       end;
     client_takes := client_takes w;
     elapsed := elapsed w |}.

(** ** Effects *)

(** The six metric vectors of the program. *)
Inductive metric : Type :=
| reqTotal | reqDuration | bytesIn | bytesOut | tokensIn | tokensOut.

Inductive event : Type :=
(** [m.WithLabelValues(lvs...).Add(v)] with [v >= 0] *)
| CounterAdd (m : metric) (lvs : list string) (v : Z)
(** [m.WithLabelValues(lvs...).Inc()] *)
| CounterInc (m : metric) (lvs : list string)
(** [m.WithLabelValues(lvs...).Observe(d.Seconds())] *)
| HistObserve (m : metric) (lvs : list string) (d : Z)
(** [http.Error(w, msg, code)]: the status of the error response *)
| HttpError (msg : string) (code : Z)
(** the bytes of the message of an [http.Error] that the
    [http.ResponseWriter] took *)
| ErrorBody (p : string)
(** [w.WriteHeader(code)], sent with the header collected in [w.Header()] *)
| WriteHeader (code : Z) (h : Header)
(** body bytes taken by the [http.ResponseWriter] *)
| ClientWrite (p : string)
(** [http.NewRequestWithContext(ctx, method, url.String(), body)]: [url] is
    the [url.URL] whose text is the second argument *)
| NewRequestWithContext (method : string) (url : URL) (body : string)
(** [httpClient.Do(upReq)] *)
| UpstreamDo (req : UpstreamRequest)
(** [log.Printf(format, ...)] *)
| LogPrintf (format : string)
(** the deferred [r.Body.Close()] and [resp.Body.Close()] *)
| CloseRequestBody
| CloseResponseBody.

(** The value of a panic: a text (a string, or an error made by
    [errors.New]), or the error that [fmt.Errorf] makes from a format with
    the one verb [%q] and the string for it. *)
Inductive panic_value : Type :=
| Text (msg : string)
| Errorf (format : string) (arg : string).

Coercion Text : string >-> panic_value.

(** A handler computation: it continues with a value, returns from the
    handler, or panics; it appends to the trace of events and pushes
    deferred calls. *)
Inductive result (A : Type) : Type :=
| Continue (a : A)
| Return_
| Panic (v : panic_value).
Arguments Continue {A} a.
Arguments Return_ {A}.
Arguments Panic {A} v.

Record hstate : Type := {
  trace : list event;
  deferred : list event
}.

Definition M (A : Type) : Type := hstate -> result A * hstate.

Definition ret {A : Type} (a : A) : M A := fun s => (Continue a, s).

Definition bind {A B : Type} (m : M A) (k : A -> M B) : M B :=
  fun s =>
    match m s with
    | (Continue a, s') => k a s'
    | (Return_, s') => (Return_, s')
    | (Panic v, s') => (Panic v, s')
    end.

Declare Scope handler_scope.
Delimit Scope handler_scope with handler.
Notation "x <- m ;; k" := (bind m (fun x => k))
  (at level 61, m at next level, right associativity) : handler_scope.
Notation "m ;; k" := (bind m (fun _ => k))
  (at level 61, right associativity) : handler_scope.
Local Open Scope handler_scope.

Definition emit (e : event) : M unit :=
  fun s => (Continue tt, {| trace := trace s ++ [e]; deferred := deferred s |}).

(** [defer]: the call runs when the handler is left, last deferred first. *)
Definition defer (e : event) : M unit :=
  fun s => (Continue tt, {| trace := trace s; deferred := e :: deferred s |}).

Definition return_ {A : Type} : M A := fun s => (Return_, s).
Definition panic {A : Type} (v : panic_value) : M A := fun s => (Panic v, s).

(** [WithLabelValues]: the metric vector panics on the first label value
    that is not valid UTF-8, with the error that names the value. *)
Definition valid_label (v : string) : bool := UTF8.ValidString (bytes v).

Definition WithLabelValues (lvs : list string) : M unit :=
  match find (fun v => negb (valid_label v)) lvs with
  | Some v => panic (Errorf "label value %q is not valid UTF-8" v)
  | None => ret tt
  end.

(** [Counter.Add]: the Prometheus counter panics on a negative amount. *)
Definition counter_Add (m : metric) (lvs : list string) (v : Z) : M unit :=
  WithLabelValues lvs ;;
  if v <? 0 then panic "counter cannot decrease in value"
  else emit (CounterAdd m lvs v).

Definition counter_Inc (m : metric) (lvs : list string) : M unit :=
  WithLabelValues lvs ;; emit (CounterInc m lvs).

Definition Observe (m : metric) (lvs : list string) (d : Z) : M unit :=
  WithLabelValues lvs ;; emit (HistObserve m lvs d).

(** The bytes of [p] that a writer limited to [limit] takes, and whether the
    write fails. *)
Definition taken (limit : option nat) (p : string) : string * bool :=
  match limit with
  | None => (p, false)
  | Some k =>
    if (String.length p <=? k)%nat then (p, false)
    else (substring 0 k p, true)
  end.

(** The body of an error response: the message and a newline, as
    [fmt.Fprintln] writes it. *)
Definition error_body (msg : string) : string :=
  (msg ++ String (ascii_of_nat 10) EmptyString)%string.

(** [http.Error(w, msg, code)]: the status is sent, then the message is
    written as the body; the result of that write is dropped. *)
Definition http_Error (w : World) (msg : string) (code : Z) : M unit :=
  emit (HttpError msg code) ;;
  emit (ErrorBody (fst (taken (client_takes w) (error_body msg)))).

Definition log_Printf (format : string) : M unit := emit (LogPrintf format).

(** [w.WriteHeader]: [net/http] panics on a code that has not three
    digits, with a string that ends in the code. *)
Definition w_WriteHeader (code : Z) (h : Header) : M unit :=
  if (code <? 100) || (999 <? code)
  then panic (Text ("invalid WriteHeader code " ++ Itoa code))
  else emit (WriteHeader code h).

(** [w.Write(p)]: the number of bytes written and whether [err != nil]. *)
Definition w_Write (w : World) (p : string) : M (Z * bool) :=
  let '(q, err) := taken (client_takes w) p in
  emit (ClientWrite q) ;; ret (len q, err).

(** [io.Copy(w, src)]: bytes go from [src] to the client until [src] ends or
    a read or a write fails; the result is the number of bytes written and
    whether [err != nil]. *)
Definition io_Copy (w : World) (src : Reader) : M (Z * bool) :=
  let '(q, werr) := taken (client_takes w) (rd_data src) in
  emit (ClientWrite q) ;; ret (len q, werr || rd_fails src).

(** ** The handler *)

(** The labels that the handler computes from the request body. *)
Definition payload_of (bodyBuf : string) : RequestPayload :=
  fst (Unmarshal_RequestPayload bodyBuf RequestPayload_zero).

Definition model_of (bodyBuf : string) : string :=
  let model := Model (payload_of bodyBuf) in
  if String.eqb model EmptyString then "unknown" else model.

Definition stream_of (bodyBuf : string) : bool :=
  match Stream (payload_of bodyBuf) with
  | Some b => b
  | None => true
  end.

Definition streamLabel_of (bodyBuf : string) : string :=
  if negb (stream_of bodyBuf) then "false" else "true".

(** [up]: the copy of [*upstreamURL] with the path and the query of the
    inbound request.  The handler turns it into text with [up.String()] for
    [http.NewRequestWithContext]. *)
Definition upstream_target (w : World) (r : Request) : URL :=
  let up := upstreamURL w in
  {| Scheme := Scheme up;
     Host := Host up;
     Path := TrimRight_slash (Path up) ++ URL_Path r;
     RawQuery := URL_RawQuery r |}.

(** The upstream request: [http.NewRequestWithContext] takes the empty method
    for GET and keeps the body; the handler adds the inbound headers and a
    default Content-Type. *)
Definition build_upstream (w : World) (r : Request) (bodyBuf : string)
  : UpstreamRequest :=
  let h := copy_header (Req_Header r) [] in
  {| up_Method := if String.eqb (Method r) EmptyString then "GET" else Method r;
     up_Header :=
       if String.eqb (Header_Get "Content-Type" h) EmptyString
       then Header_Set "Content-Type" "application/json" h
       else h;
     up_Body := bodyBuf |}.

(** The token counters, after a successful decode of the upstream body. *)
Definition add_tokens (endpoint model : string) (m : OllamaResponseMetrics)
  : M unit :=
  match PromptEvalCount m with
  | Some p => counter_Add tokensIn [endpoint; model] (float64_of_int p)
  | None => ret tt
  end ;;
  match EvalCount m with
  | Some e => counter_Add tokensOut [endpoint; model] (float64_of_int e)
  | None => ret tt
  end.

(** Non-streaming: the whole upstream body is read, measured and written. *)
Definition relay_buffered (w : World) (resp : Response)
  (endpoint model statusLabel streamLabel : string) : M unit :=
  let '(respBuf, err) := ReadAll (Resp_Body resp) in
  if err then
    log_Printf "failed to read upstream response body: %v" ;;
    return_
  else
    counter_Add bytesOut [endpoint; model; streamLabel]
      (float64_of_int (len respBuf)) ;;
    (let '(m, uerr) :=
       Unmarshal_OllamaResponseMetrics respBuf OllamaResponseMetrics_zero in
     if uerr then ret tt else add_tokens endpoint model m) ;;
    wr <- w_Write w respBuf ;;
    (if snd wr
     then log_Printf "failed to write response body to client: %v"
     else ret tt) ;;
    let duration := elapsed w in
    counter_Inc reqTotal [endpoint; model; statusLabel; streamLabel] ;;
    Observe reqDuration [endpoint; model; streamLabel] duration ;;
    return_.

(** Streaming: the bytes are piped through. *)
Definition relay_streaming (w : World) (resp : Response)
  (endpoint model statusLabel streamLabel : string) : M unit :=
  cp <- io_Copy w (Resp_Body resp) ;;
  (if snd cp
   then log_Printf "streaming response to client failed: %v"
   else ret tt) ;;
  counter_Add bytesOut [endpoint; model; streamLabel]
    (float64_of_int (fst cp)) ;;
  let duration := elapsed w in
  counter_Inc reqTotal [endpoint; model; statusLabel; streamLabel] ;;
  Observe reqDuration [endpoint; model; streamLabel] duration.

(** What the handler does once the request body is in [bodyBuf]. *)
Definition forward (w : World) (r : Request) (bodyBuf : string) : M unit :=
  let endpoint := URL_Path r in
  let model := model_of bodyBuf in
  let stream := stream_of bodyBuf in
  let streamLabel := streamLabel_of bodyBuf in
  counter_Add bytesIn [endpoint; model; streamLabel]
    (float64_of_int (len bodyBuf)) ;;
  emit (NewRequestWithContext (Method r) (upstream_target w r) bodyBuf) ;;
  if newRequest_fails w then
    http_Error w "failed to create upstream request"
      StatusInternalServerError ;;
    return_
  else
    emit (UpstreamDo (build_upstream w r bodyBuf)) ;;
    match upstream w with
    | DoError =>
      log_Printf "upstream error: %v" ;;
      let statusCode := StatusBadGateway in
      let statusLabel := Itoa statusCode in
      counter_Inc reqTotal [endpoint; model; statusLabel; streamLabel] ;;
      Observe reqDuration [endpoint; model; streamLabel] (elapsed w) ;;
      http_Error w "upstream error" statusCode ;;
      return_
    | DoResponse resp =>
      defer CloseResponseBody ;;
      let statusLabel := Itoa (StatusCode resp) in
      w_WriteHeader (StatusCode resp) (copy_header (Resp_Header resp) []) ;;
      if negb stream
      then relay_buffered w resp endpoint model statusLabel streamLabel
      else relay_streaming w resp endpoint model statusLabel streamLabel
    end.

(** [proxyHandler]: proxies a request to the upstream and records metrics. *)
Definition proxyHandler (w : World) (r : Request) : M unit :=
  bodyBuf <-
    match Body r with
    | None => ret EmptyString
    | Some rd =>
      defer CloseRequestBody ;;
      let '(buf, err) := ReadAll rd in
      if err then
        http_Error w "failed to read request body" StatusBadRequest ;;
        return_
      else ret buf
    end ;;
  forward w r bodyBuf.

(** How a call of the handler ends: it returns, or it panics and the server
    recovers the panic. *)
Inductive outcome : Type :=
| Returned
| Panicked (v : panic_value).

(** A handler computation run to its end from the deferred calls [ds]: its
    outcome and all its events, the deferred calls last. *)
Definition finish (m : M unit) (ds : list event) : outcome * list event :=
  let '(res, s) := m {| trace := []; deferred := ds |} in
  (match res with
   | Panic v => Panicked v
   | _ => Returned
   end,
   trace s ++ deferred s).

(** One call of the handler from start to end. *)
Definition serve (w : World) (r : Request) : outcome * list event :=
  finish (proxyHandler w r) [].

Definition events (w : World) (r : Request) : list event := snd (serve w r).
Definition ending (w : World) (r : Request) : outcome := fst (serve w r).

(** ** Reading a trace *)

Definition metric_eqb (a b : metric) : bool :=
  match a, b with
  | reqTotal, reqTotal | reqDuration, reqDuration | bytesIn, bytesIn
  | bytesOut, bytesOut | tokensIn, tokensIn | tokensOut, tokensOut => true
  | _, _ => false
  end.

Definition metric_of (e : event) : option metric :=
  match e with
  | CounterAdd m _ _ | CounterInc m _ | HistObserve m _ _ => Some m
  | _ => None
  end.

Definition is_on (m : metric) (e : event) : bool :=
  match metric_of e with
  | Some m' => metric_eqb m m'
  | None => false
  end.

(** The calls made on one metric vector, in order. *)
Definition on_metric (m : metric) (tr : list event) : list event :=
  filter (is_on m) tr.

(** All metric calls of a trace. *)
Definition metric_events (tr : list event) : list event :=
  filter (fun e => match metric_of e with Some _ => true | None => false end) tr.

(** The total amount by which the counters of vector [m] grow. *)
Fixpoint added (m : metric) (tr : list event) : Z :=
  match tr with
  | [] => 0
  | CounterAdd m' _ v :: t => (if metric_eqb m m' then v else 0) + added m t
  | CounterInc m' _ :: t => (if metric_eqb m m' then 1 else 0) + added m t
  | _ :: t => added m t
  end.

(** The number of response body bytes that the client connection took. *)
Fixpoint bytes_written (tr : list event) : Z :=
  match tr with
  | [] => 0
  | ClientWrite p :: t => len p + bytes_written t
  | ErrorBody p :: t => len p + bytes_written t
  | _ :: t => bytes_written t
  end.

(** The number of calls of [httpClient.Do]. *)
Fixpoint upstream_calls (tr : list event) : nat :=
  match tr with
  | [] => 0%nat
  | UpstreamDo _ :: t => S (upstream_calls t)
  | _ :: t => upstream_calls t
  end.

(** The status code that the handler sends to the client. *)
Fixpoint status_sent (tr : list event) : option Z :=
  match tr with
  | [] => None
  | WriteHeader code _ :: _ => Some code
  | HttpError _ code :: _ => Some code
  | _ :: t => status_sent t
  end.

(** ** The request body as the handler holds it *)

(** [bodyBuf] after the read of the inbound body: [None] when the read
    fails, the empty buffer when the request has no body. *)
Definition read_body (r : Request) : option string :=
  match Body r with
  | None => Some EmptyString
  | Some rd => if rd_fails rd then None else Some (rd_data rd)
  end.

(** The deferred [r.Body.Close()], when there is a body. *)
Definition body_close (r : Request) : list event :=
  match Body r with
  | None => []
  | Some _ => [CloseRequestBody]
  end.

(** A status code that [w.WriteHeader] accepts: three digits. *)
Definition valid_status (code : Z) : Prop := 100 <= code <= 999.

(** The labels of a request with body [b]. *)
Definition labels3 (r : Request) (b : string) : list string :=
  [URL_Path r; model_of b; streamLabel_of b].

Definition labels4 (r : Request) (b : string) (status : string) : list string :=
  [URL_Path r; model_of b; status; streamLabel_of b].

Definition labels2 (r : Request) (b : string) : list string :=
  [URL_Path r; model_of b].

(** The token calls that [add_tokens] makes when no count is negative. *)
Definition token_adds (lvs : list string) (m : OllamaResponseMetrics)
  : list event :=
  match PromptEvalCount m with
  | Some p => [CounterAdd tokensIn lvs (float64_of_int p)]
  | None => []
  end ++
  match EvalCount m with
  | Some e => [CounterAdd tokensOut lvs (float64_of_int e)]
  | None => []
  end.

(** The token calls that [add_tokens] makes before it panics on a negative
    count. *)
Definition token_adds_before_panic (lvs : list string)
  (m : OllamaResponseMetrics) : list event :=
  match PromptEvalCount m with
  | Some p =>
    if p <? 0 then [] else [CounterAdd tokensIn lvs (float64_of_int p)]
  | None => []
  end.

Definition nonneg (o : option Z) : Prop :=
  match o with
  | Some n => 0 <= n
  | None => True
  end.

(** ** The JSON text of a body, read as the spec reads it *)

Import JSON.

(** The member [kv] of an object is stored into the field called [name]. *)
Definition for_field (name : string) (kv : string * value) : bool :=
  Decoder.field_matches name (fst kv).

(** The last member for [name], if there is one. *)
Fixpoint last_member (name : string) (ms : list (string * value))
  : option value :=
  match ms with
  | [] => None
  | kv :: t =>
    match last_member name t with
    | Some v => Some v
    | None => if for_field name kv then Some (snd kv) else None
    end
  end.

(** The string of the last member for [name] that holds a string. *)
Fixpoint last_string (name : string) (ms : list (string * value))
  : option string :=
  match ms with
  | [] => None
  | kv :: t =>
    match last_string name t with
    | Some s => Some s
    | None =>
      if for_field name kv then
        match snd kv with
        | JString s => Some s
        | _ => None
        end
      else None
    end
  end.

(** The members of the body when it is a JSON object. *)
Definition members_of (body : string) : list (string * value) :=
  match parse body with
  | Some (JObject ms) => ms
  | _ => []
  end.

(** Following the spec's words: the string of the body's model field; none
    when the body is absent, is not JSON, is not an object, or has no model
    member that holds a string.  The key is compared as the decoder compares
    it, without regard to letter case. *)
Definition body_model_string (body : string) : option string :=
  last_string "model" (members_of body).

(** A value that a [*int64] field takes without error: null, or a literal
    that [strconv.ParseInt] accepts. *)
Definition int_or_null (v : value) : Prop :=
  v = JNull \/ exists lit n, v = JNumber lit /\ ParseInt64 lit = Some n.

(** Every member for one of the two token fields is such a value. *)
Definition stats_well_typed (ms : list (string * value)) : Prop :=
  forall kv, In kv ms ->
    for_field "eval_count" kv || for_field "prompt_eval_count" kv = true ->
    int_or_null (snd kv).

(** The count that a last member leaves in its field. *)
Definition int_of (o : option value) (cur : option Z) : option Z :=
  match o with
  | None => cur
  | Some (JNumber lit) => ParseInt64 lit
  | Some _ => None
  end.

(** ** The claims that fail, as they are worded *)

(** The body is an object with a member of this exact name and value. *)
Definition has_member (name body : string) (v : value) : Prop :=
  exists ms, parse body = Some (JObject ms) /\ In (name, v) ms.

(** The body is an object with an integer member of this name. *)
Definition has_int_member (name body : string) (n : Z) : Prop :=
  exists lit, has_member name body (JNumber lit) /\ ParseInt64 lit = Some n.

(** C2 as worded: in both relay modes the amount added to
    response_bytes_out_total is the number of body bytes written to the
    client. *)
Definition bytes_out_is_bytes_written : Prop :=
  forall (w : World) (r : Request) (b : string) (resp : Response),
    read_body r = Some b -> valid_label (URL_Path r) = true ->
    newRequest_fails w = false ->
    upstream w = DoResponse resp -> valid_status (StatusCode resp) ->
    added bytesOut (events w r) = bytes_written (events w r).

(** C3 as worded: the model is unknown if and only if the body has no
    string model field, and is that field's string otherwise. *)
Definition model_unknown_iff_no_string_field : Prop :=
  forall body : string,
    (model_of body = "unknown" <->
     ~ exists s, has_member "model" body (JString s))
    /\ (forall s, has_member "model" body (JString s) -> model_of body = s).

(** C4 as worded: in buffered mode each token counter grows by the integer
    of its field when the body holds one, and is unchanged when the body has
    no such field. *)
Definition tokens_follow_integer_fields : Prop :=
  forall (w : World) (r : Request) (b : string) (resp : Response),
    read_body r = Some b -> valid_label (URL_Path r) = true ->
    newRequest_fails w = false ->
    upstream w = DoResponse resp -> valid_status (StatusCode resp) ->
    stream_of b = false -> rd_fails (Resp_Body resp) = false ->
    let body := rd_data (Resp_Body resp) in
    (forall p, has_int_member "prompt_eval_count" body p ->
       on_metric tokensIn (events w r)
       = [CounterAdd tokensIn [URL_Path r; model_of b] p]) /\
    (forall e, has_int_member "eval_count" body e ->
       on_metric tokensOut (events w r)
       = [CounterAdd tokensOut [URL_Path r; model_of b] e]) /\
    ((forall v, ~ has_member "prompt_eval_count" body v) ->
     on_metric tokensIn (events w r) = []) /\
    ((forall v, ~ has_member "eval_count" body v) ->
     on_metric tokensOut (events w r) = []).

(** C9 as worded: for every status, a buffered body with integer
    prompt_eval_count and eval_count fields has both token counters
    incremented. *)
Definition tokens_counted_at_any_status : Prop :=
  forall (w : World) (r : Request) (b : string) (resp : Response) (p e : Z),
    read_body r = Some b -> valid_label (URL_Path r) = true ->
    newRequest_fails w = false ->
    upstream w = DoResponse resp -> valid_status (StatusCode resp) ->
    stream_of b = false -> rd_fails (Resp_Body resp) = false ->
    has_int_member "prompt_eval_count" (rd_data (Resp_Body resp)) p ->
    has_int_member "eval_count" (rd_data (Resp_Body resp)) e ->
    (exists v, In (CounterAdd tokensIn [URL_Path r; model_of b] v) (events w r))
    /\
    (exists v, In (CounterAdd tokensOut [URL_Path r; model_of b] v) (events w r)).

(** ** Sample requests and worlds *)

Module Sample.

(** JSON text of an object whose members are given as key and value
    text. *)
Definition obj (ms : list (string * string)) : string :=
  ("{" ++ String.concat ","
            (map (fun kv => quoted (fst kv) ++ ":" ++ snd kv) ms) ++ "}")%string.

Definition ollama : URL :=
  {| Scheme := "http"; Host := "127.0.0.1:11434";
     Path := EmptyString; RawQuery := EmptyString |}.

Definition reader (data : string) : Reader :=
  {| rd_data := data; rd_fails := false |}.

Definition broken (data : string) : Reader :=
  {| rd_data := data; rd_fails := true |}.

(** POST /api/generate with the given body. *)
Definition generate (body : Reader) : Request :=
  {| Method := "POST"; URL_Path := "/api/generate";
     URL_RawQuery := EmptyString;
     Req_Header := [("Content-Type", ["application/json"])];
     Body := Some body |}.

Definition buffered_body : string :=
  obj [("model", quoted "llama3"); ("prompt", quoted "Hi");
       ("stream", "false")].

Definition streaming_body : string :=
  obj [("model", quoted "llama3"); ("stream", "true")].

Definition answer (status : Z) (body : Reader) : DoResult :=
  DoResponse {| StatusCode := status;
                Resp_Header := [("Content-Type", ["application/json"])];
                Resp_Body := body |}.

Definition world (up : DoResult) (takes : option nat) : World :=
  {| upstreamURL := ollama; newRequest_fails := false; upstream := up;
     client_takes := takes; elapsed := 1500000 |}.

(** The upstream body of scenario A. *)
Definition stats_body : string :=
  obj [("response", quoted "..."); ("eval_count", "10");
       ("prompt_eval_count", "3")].

End Sample.

(** ** The rest of the handler, read from its trace *)

(** The label names that the metric vectors are declared with. *)
Definition label_names (m : metric) : list string :=
  match m with
  | reqTotal => ["endpoint"; "model"; "status"; "stream"]
  | reqDuration | bytesIn | bytesOut => ["endpoint"; "model"; "stream"]
  | tokensIn | tokensOut => ["endpoint"; "model"]
  end.

(** The label values of a metric call. *)
Definition labels_of (e : event) : list string :=
  match e with
  | CounterAdd _ lvs _ | CounterInc _ lvs | HistObserve _ lvs _ => lvs
  | _ => []
  end.

(** The value that a request with body [b], answered with the status text
    [status], has for the label called [name]. *)
Definition label_value (r : Request) (b status : string) (name : string)
  : string :=
  if String.eqb name "endpoint" then URL_Path r
  else if String.eqb name "model" then model_of b
  else if String.eqb name "status" then status
  else streamLabel_of b.

(** A metric call gives one value for each declared label name, in the
    order of the declaration. *)
Definition labelled (r : Request) (b : string) (e : event) : Prop :=
  match metric_of e with
  | Some m =>
    exists status,
      labels_of e = map (label_value r b status) (label_names m)
  | None => True
  end.

(** The response body bytes that the client connection took, in order. *)
Fixpoint client_body (tr : list event) : string :=
  match tr with
  | [] => EmptyString
  | ClientWrite p :: t => (p ++ client_body t)%string
  | ErrorBody p :: t => (p ++ client_body t)%string
  | _ :: t => client_body t
  end.

(** The response as the [http.ResponseWriter] sees it: the status is set
    once at most, the bytes of an upstream body follow a [WriteHeader] only,
    the message of an error follows its [http.Error] only, and nothing else
    follows an [http.Error]. *)
Inductive response_state : Type := NothingSent | HeaderWritten | ErrorSent.

Fixpoint response_ok (st : response_state) (tr : list event) : bool :=
  match tr with
  | [] => true
  | WriteHeader _ _ :: t =>
    match st with NothingSent => response_ok HeaderWritten t | _ => false end
  | HttpError _ _ :: t =>
    match st with NothingSent => response_ok ErrorSent t | _ => false end
  | ClientWrite _ :: t =>
    match st with HeaderWritten => response_ok st t | _ => false end
  | ErrorBody _ :: t =>
    match st with ErrorSent => response_ok st t | _ => false end
  | _ :: t => response_ok st t
  end.

Definition is_close (e : event) : bool :=
  match e with
  | CloseRequestBody | CloseResponseBody => true
  | _ => false
  end.


(** The handler gets as far as [httpClient.Do]. *)
Definition reaches_upstream (w : World) (r : Request) : bool :=
  match read_body r with
  | Some _ => valid_label (URL_Path r) && negb (newRequest_fails w)
  | None => false
  end.

(** [httpClient.Do] is called and returns a response. *)
Definition answered (w : World) (r : Request) : bool :=
  match read_body r with
  | Some _ =>
    valid_label (URL_Path r) && negb (newRequest_fails w)
    && match upstream w with DoResponse _ => true | DoError => false end
  | None => false
  end.

(** The body [data] does not decode to a negative token count. *)
Definition counts_nonneg (data : string) : Prop :=
  let '(x, uerr) :=
    Unmarshal_OllamaResponseMetrics data OllamaResponseMetrics_zero in
  uerr = true \/ (nonneg (PromptEvalCount x) /\ nonneg (EvalCount x)).

(** The world in which the client takes [k] bytes instead. *)
Definition with_client (k : option nat) (w : World) : World :=
  {| upstreamURL := upstreamURL w;
     newRequest_fails := newRequest_fails w;
     upstream := upstream w;
     client_takes := k;
     elapsed := elapsed w |}.

(** The request [r] with another method, query string and header. *)
Definition with_meta (method query : string) (h : Header) (r : Request)
  : Request :=
  {| Method := method;
     URL_Path := URL_Path r;
     URL_RawQuery := query;
     Req_Header := h;
     Body := Body r |}.

(** The world of a call for the request [r], where [nr] tells for which
    method and URL [http.NewRequestWithContext] returns an error. *)
Definition calling (nr : string -> URL -> bool) (w : World) (r : Request)
  : World :=
  {| upstreamURL := upstreamURL w;
     newRequest_fails := nr (Method r) (upstream_target w r);
     upstream := upstream w;
     client_takes := client_takes w;
     elapsed := elapsed w |}.

(** [h.Values(k)]: the values of key [k]. *)
Fixpoint Header_Values (k : string) (h : Header) : list string :=
  match h with
  | [] => []
  | (k', vs) :: t => if String.eqb k k' then vs else Header_Values k t
  end.

(** The values that the entries of [src] hold under [k], all together. *)
Definition all_values (k : string) (src : Header) : list string :=
  List.concat (map snd (filter (fun kv => String.eqb k (fst kv)) src)).

(** [n] slashes. *)
Definition slashes (n : nat) : string := str (repeat "/"%char n).

(** ** Configuration: [getEnv], the flags and [main] *)

(** The environment of the process, as [os.LookupEnv] reads it. *)
Definition Env : Type := string -> option string.

(** [getEnv]: the variable when it is set and not empty, else [def]. *)
Definition getEnv (env : Env) (key def : string) : string :=
  match env key with
  | Some v => if negb (String.eqb v EmptyString) then v else def
  | None => def
  end.

(** The package [flag], for a flag set whose flags are all strings, as the
    two flags of [main] are. *)
Module flag.

(** What [parseOne] makes of the argument at the head of the command
    line.  Where the value of a flag is the next argument, [Parse] below
    takes it. *)
Inductive parsed : Type :=
(** not a flag: parsing ends and the argument stays *)
| NotFlag
(** the terminator [--]: parsing ends behind it *)
| Terminator
(** [-name=value] *)
| WithValue (name value : string)
(** [-name]: the value is the next argument *)
| NeedsValue (name : string)
(** [-h] or [-help] where no such flag is defined *)
| ErrHelp
| Failf (format : string).

(** The name up to the first equals sign behind its first byte, and the
    value behind that sign. *)
Fixpoint cut_equals (s : list ascii) : list ascii * option (list ascii) :=
  match s with
  | [] => ([], None)
  | c :: t =>
    if (c =? "=")%char then ([], Some t)
    else let '(n, v) := cut_equals t in (c :: n, v)
  end.

Definition parseOne (formal : list string) (s : string) : parsed :=
  match bytes s with
  | c0 :: c1 :: t =>
    if negb (c0 =? "-")%char then NotFlag
    else if (c1 =? "-")%char && match t with [] => true | _ => false end
    then Terminator
    else
      let name := if (c1 =? "-")%char then t else c1 :: t in
      match name with
      | [] => Failf "bad flag syntax: %s"
      | n0 :: rest =>
        if ((n0 =? "-") || (n0 =? "="))%char then Failf "bad flag syntax: %s"
        else
          let '(n, v) := cut_equals rest in
          let name := str (n0 :: n) in
          if existsb (String.eqb name) formal then
            match v with
            | Some value => WithValue name (str value)
            | None => NeedsValue name
            end
          else if String.eqb name "help" || String.eqb name "h" then ErrHelp
          else Failf "flag provided but not defined: -%s"
      end
  | _ => NotFlag
  end.

(** The values of the flags, by name. *)
Definition values : Type := string -> string.

Definition set (name value : string) (vs : values) : values :=
  fun n => if String.eqb n name then value else vs n.

(** How [flag.Parse] ends on the command-line flag set, whose error
    handling is [ExitOnError]. *)
Inductive finished : Type :=
| Parsed (vs : values) (args : list string)
| Exit (code : Z).

(** [Parse]: flags are read until an argument is not one. *)
Fixpoint Parse (formal : list string) (vs : values) (args : list string)
  : finished :=
  match args with
  | [] => Parsed vs []
  | s :: rest =>
    match parseOne formal s with
    | NotFlag => Parsed vs args
    | Terminator => Parsed vs rest
    | WithValue name value => Parse formal (set name value vs) rest
    | NeedsValue name =>
      match rest with
      | value :: rest' => Parse formal (set name value vs) rest'
      | [] => Exit 2
      end
    | ErrHelp => Exit 0
    | Failf _ => Exit 2
    end
  end.

End flag.

(** How [main] goes on after its flags are parsed. *)
Inductive started : Type :=
(** [flag.Parse] ends the process *)
| Exited (code : Z)
(** [log.Fatalf]: the upstream URL does not parse *)
| Fatal
(** the server listens on [addr] and proxies to [up] *)
| ListenAndServe (addr : string) (up : URL).

(** The defaults of the two flags. *)
Definition flag_defaults (env : Env) : flag.values :=
  flag.set "upstream" (getEnv env "OLLAMA_UPSTREAM" "http://127.0.0.1:11434")
    (flag.set "listen" ":8080" (fun _ => EmptyString)).

(** [main], up to the call of [http.ListenAndServe].  [url_Parse] is
    [url.Parse]. *)
Definition main (url_Parse : string -> option URL) (env : Env)
  (args : list string) : started :=
  match flag.Parse ["listen"; "upstream"] (flag_defaults env) args with
  | flag.Exit code => Exited code
  | flag.Parsed vs _ =>
    match url_Parse (vs "upstream") with
    | None => Fatal
    | Some up => ListenAndServe (vs "listen") up
    end
  end.

(** *** Command lines *)

(** A flag of [main] written on the command line: which flag, with one
    minus sign or two, with the value joined by an equals sign or given as
    the next argument, and the value. *)
Inductive flag_name : Type := Listen | Upstream.

Record setting : Type := {
  which : flag_name;
  double_minus : bool;
  joined : bool;
  given : string
}.

Definition name_of (f : flag_name) : string :=
  match f with Listen => "listen" | Upstream => "upstream" end.

Definition render (st : setting) : list string :=
  let head :=
    ((if double_minus st then "--" else "-") ++ name_of (which st))%string in
  if joined st then [(head ++ "=" ++ given st)%string]
  else [head; given st].

Definition command_line (sts : list setting) : list string :=
  flat_map render sts.

(** The last value given for a flag, if any. *)
Fixpoint last_given (f : flag_name) (sts : list setting) : option string :=
  match sts with
  | [] => None
  | st :: t =>
    match last_given f t with
    | Some v => Some v
    | None =>
      match f, which st with
      | Listen, Listen | Upstream, Upstream => Some (given st)
      | _, _ => None
      end
    end
  end.

(** The flag values after the settings [sts]. *)
Definition after (sts : list setting) (vs : flag.values) : flag.values :=
  fold_left (fun vs st => flag.set (name_of (which st)) (given st) vs) sts vs.

(** Arguments at which [flag.Parse] stops: none, or a first one that is not
    a flag. *)
Definition stops (args : list string) : Prop :=
  match args with
  | [] => True
  | s :: _ => flag.parseOne ["listen"; "upstream"] s = flag.NotFlag
  end.

(** A name that can be written as a flag and is not a flag of the
    program. *)
Definition undefined_flag (name : string) : bool :=
  match bytes name with
  | n0 :: t =>
    negb (n0 =? "-")%char && negb (n0 =? "=")%char
    && forallb (fun c => negb (c =? "=")%char) t
    && negb (String.eqb name "listen") && negb (String.eqb name "upstream")
  | [] => false
  end.

(** ** JSON texts, as clients and Ollama write them *)

(** A JSON text, as it is written: a number by its literal, a string and a
    key by the bytes between the quotation marks, escapes as written. *)
#[warnings="-register-all"]
Inductive doc : Type :=
| DNull
| DBool (b : bool)
| DNumber (lit : string)
| DString (raw : string)
| DArray (elems : list doc)
| DObject (members : list (string * doc)).

(** The string that a literal with the contents [raw] stands for. *)
Definition decoded (raw : string) : string :=
  match unquote (bytes raw) with
  | Some s => s
  | None => EmptyString
  end.

Fixpoint value_of_doc (d : doc) : value :=
  match d with
  | DNull => JNull
  | DBool b => JBool b
  | DNumber lit => JNumber lit
  | DString raw => JString (decoded raw)
  | DArray ds => JArray (map value_of_doc ds)
  | DObject ms =>
    JObject (map (fun kv => (decoded (fst kv), value_of_doc (snd kv))) ms)
  end.

(** The texts [ts] with [sep] between them. *)
Fixpoint join (sep : list ascii) (ts : list (list ascii)) : list ascii :=
  match ts with
  | [] => []
  | t :: ts' =>
    match ts' with
    | [] => t
    | _ :: _ => t ++ sep ++ join sep ts'
    end
  end.

(** The text of a document, with the white space [ws] behind every comma
    and colon: none in the compact form that Go writes, a blank in the form
    that Python writes. *)
Fixpoint text_of_doc (ws : list ascii) (d : doc) : list ascii :=
  match d with
  | DNull => bytes "null"
  | DBool true => bytes "true"
  | DBool false => bytes "false"
  | DNumber lit => bytes lit
  | DString raw => dquote :: bytes raw ++ [dquote]
  | DArray ds =>
    "["%char :: join (","%char :: ws) (map (text_of_doc ws) ds) ++ ["]"%char]
  | DObject ms =>
    "{"%char
      :: join (","%char :: ws)
           (map (fun kv =>
                   dquote :: bytes (fst kv) ++ dquote :: ":"%char
                     :: ws ++ text_of_doc ws (snd kv)) ms)
      ++ ["}"%char]
  end.

(** The body that spells the document. *)
Definition body_of (ws : list ascii) (d : doc) : string :=
  str (text_of_doc ws d).

(** A number literal: the scanner reads all of it as one number. *)
Definition number_ok (lit : string) : bool :=
  match scan_number (bytes lit) with
  | Some (_, []) => true
  | _ => false
  end.

(** The document is well formed: its numbers are number literals and its
    strings and keys are well escaped. *)
Fixpoint wf (d : doc) : bool :=
  match d with
  | DNull | DBool _ => true
  | DNumber lit => number_ok lit
  | DString raw => well_escaped (bytes raw)
  | DArray ds => forallb wf ds
  | DObject ms =>
    forallb (fun kv => well_escaped (bytes (fst kv)) && wf (snd kv)) ms
  end.

(** How deep arrays and objects are nested in the document. *)
Fixpoint depth (d : doc) : N :=
  match d with
  | DArray ds => N.succ (fold_right (fun d acc => N.max (depth d) acc) 0%N ds)
  | DObject ms =>
    N.succ (fold_right (fun kv acc => N.max (depth (snd kv)) acc) 0%N ms)
  | _ => 0%N
  end.

(** A document that [encoding/json] takes: well formed and not nested
    deeper than the scanner goes. *)
Definition acceptable (d : doc) : bool :=
  wf d && (depth d <=? maxNestingDepth)%N.

(** The members of an object as the decoder gets them. *)
Definition member_value (kv : string * doc) : string * value :=
  (decoded (fst kv), value_of_doc (snd kv)).

(** No member of [ms] is stored into a field named in [names]. *)
Definition beside (names : list string) (ms : list (string * doc)) : bool :=
  forallb
    (fun kv =>
       forallb (fun n => negb (Decoder.field_matches n (decoded (fst kv))))
         names)
    ms.

(** A byte that stands for itself in a JSON string literal: printable
    ASCII other than the quotation mark and the backslash. *)
Definition plain_byte (c : ascii) : bool :=
  (32 <=? code c)%N && (code c <? 127)%N
  && negb (Ascii.eqb c dquote) && negb (c =? "\")%char.

Definition plain (s : string) : bool := forallb plain_byte (bytes s).

(** A byte that ends a number literal before it. *)
Definition inert (c : ascii) : bool :=
  negb (is_digit c) && negb (c =? ".")%char && negb (c =? "e")%char
  && negb (c =? "E")%char && negb (c =? "+")%char && negb (c =? "-")%char.

(** What may follow a value: the end of the input, or such a byte. *)
Definition ends_value (rest : list ascii) : Prop :=
  match rest with
  | [] => True
  | c :: _ => inert c = true
  end.

(** The first byte of a number literal, and of a value. *)
Definition starts_number (c : ascii) : bool := is_digit c || (c =? "-")%char.

Definition starts_value (c : ascii) : bool :=
  negb (is_space c) && negb (c =? "]")%char && negb (c =? "}")%char
  && negb (c =? ",")%char.

(** The text of a member of an object. *)
Definition member_text (ws : list ascii) (kv : string * doc) : list ascii :=
  dquote :: bytes (fst kv) ++ dquote :: ":"%char
    :: ws ++ text_of_doc ws (snd kv).

(** The scanner reads the text of [d], whatever comes behind it, as the
    value of [d]. *)
Definition scans (ws : list ascii) (d : doc) : Prop :=
  forall fuel dp rest,
    (2 * List.length (text_of_doc ws d) + 1 <= fuel)%nat ->
    (dp + depth d <= maxNestingDepth)%N -> ends_value rest ->
    scan_value fuel dp (text_of_doc ws d ++ rest)
    = Scanned (value_of_doc d) rest.

(** * Properties *)

Arguments float64_of_int : simpl never.
Arguments len : simpl never.
Arguments Itoa : simpl never.
Arguments model_of : simpl never.
Arguments stream_of : simpl never.
Arguments streamLabel_of : simpl never.
Arguments build_upstream : simpl never.
Arguments copy_header : simpl never.
Arguments Unmarshal_OllamaResponseMetrics : simpl never.
Arguments taken : simpl never.
Arguments add_tokens : simpl never.
Arguments counter_Add : simpl never.
Arguments counter_Inc : simpl never.
Arguments Observe : simpl never.
Arguments w_WriteHeader : simpl never.
Arguments valid_label : simpl never.

(** Quotients and remainders by constants are put to [lia] as their
    defining equations. *)
Ltac Zify.zify_post_hook ::= Z.to_euclidean_division_equations.

(** ** Integers as [float64] *)

Lemma len_nonneg (s : string) : 0 <= len s.
Proof. unfold len. lia. Qed.

(** Up to 2^53 in absolute value the conversion is exact. *)
Lemma float64_of_int_exact (n : Z) :
  Z.abs n <= 2 ^ 53 -> float64_of_int n = n.
Proof.
  intros H. unfold float64_of_int.
  destruct (Z.leb_spec (Z.log2 (Z.abs n) - 52) 0) as [Hk | Hk]; [reflexivity|].
  assert (Ha : Z.abs n = 2 ^ 53).
  { destruct (Z.eq_dec (Z.abs n) (2 ^ 53)) as [E | E]; [exact E|].
    assert (0 < Z.abs n) by (destruct (Z.abs n) eqn:E'; simpl in Hk; lia).
    assert (Z.log2 (Z.abs n) < 53) by (apply Z.log2_lt_pow2; lia).
    lia. }
  rewrite Ha.
  destruct n as [| p | p]; simpl in Ha; try discriminate;
    injection Ha as ->; reflexivity.
Qed.

Lemma float64_of_int_nonneg (n : Z) : 0 <= n -> 0 <= float64_of_int n.
Proof.
  intros H. unfold float64_of_int.
  destruct (Z.leb_spec (Z.log2 (Z.abs n) - 52) 0) as [Hk | Hk]; [exact H|].
  apply Z.mul_nonneg_nonneg; [lia|].
  rewrite Z.shiftl_mul_pow2 by lia.
  apply Z.mul_nonneg_nonneg; [|apply Z.pow_nonneg; lia].
  assert (0 <= Z.shiftr (Z.abs n) (Z.log2 (Z.abs n) - 52))
    by (apply Z.shiftr_nonneg; lia).
  destruct (_ || _); lia.
Qed.

Lemma float64_of_int_neg (n : Z) : n < 0 -> float64_of_int n < 0.
Proof.
  intros H. unfold float64_of_int.
  destruct (Z.leb_spec (Z.log2 (Z.abs n) - 52) 0) as [Hk | Hk]; [exact H|].
  assert (Hq : 0 < Z.shiftr (Z.abs n) (Z.log2 (Z.abs n) - 52)).
  { rewrite Z.shiftr_div_pow2 by lia.
    apply Z.div_str_pos. split; [apply Z.pow_pos_nonneg; lia|].
    transitivity (2 ^ Z.log2 (Z.abs n)).
    - apply Z.pow_le_mono_r; lia.
    - apply Z.log2_spec. lia. }
  rewrite Z.shiftl_mul_pow2 by lia.
  assert (0 < 2 ^ (Z.log2 (Z.abs n) - 52)) by (apply Z.pow_pos_nonneg; lia).
  replace (Z.sgn n) with (-1) by (destruct n; simpl; lia).
  destruct (_ || _); nia.
Qed.

(** The conversion rounds: 2^53 + 1 is not a [float64]. *)
Example float64_of_int_rounds : float64_of_int (2 ^ 53 + 1) = 2 ^ 53.
Proof. reflexivity. Qed.

(** ** Decoded strings are valid UTF-8 *)

Ltac decide_ltb :=
  repeat match goal with
  | |- context [(?a <? ?b)%N] =>
    destruct (N.ltb_spec a b); [try lia | try lia]
  | |- context [(?a =? ?b)%N] =>
    destruct (N.eqb_spec a b); [try lia | try lia]
  | |- context [(?a <=? ?b)%N] =>
    destruct (N.leb_spec a b); [try lia | try lia]
  end.

Lemma code_byte_of (n : N) : (n < 256)%N -> code (byte_of n) = n.
Proof. intros H. unfold code, byte_of. apply N_ascii_embedding. exact H. Qed.

Lemma land63 (n : N) : N.land n 63 = (n mod 64)%N.
Proof. change 63%N with (N.ones 6). rewrite N.land_ones. reflexivity. Qed.

Lemma code_tail6 (r k : N) :
  code (UTF8.tail6 r k) = (128 + (r / 2 ^ k) mod 64)%N.
Proof.
  unfold UTF8.tail6. rewrite land63, N.shiftr_div_pow2.
  apply code_byte_of.
  assert (H : ((r / 2 ^ k) mod 64 < 64)%N) by (apply N.mod_lt; discriminate).
  revert H. generalize ((r / 2 ^ k) mod 64)%N. intros x H. lia.
Qed.

Lemma cont_tail6 (r k : N) : UTF8.cont 128 191 (UTF8.tail6 r k) = true.
Proof.
  unfold UTF8.cont, between. rewrite code_tail6.
  assert (H : ((r / 2 ^ k) mod 64 < 64)%N) by (apply N.mod_lt; discriminate).
  revert H. generalize ((r / 2 ^ k) mod 64)%N. intros x H.
  apply andb_true_iff. split; apply N.leb_le; lia.
Qed.

Lemma ValidString_ascii (c : ascii) (t : list ascii) :
  (code c < 128)%N -> UTF8.ValidString (c :: t) = UTF8.ValidString t.
Proof.
  intros H. cbn [UTF8.ValidString]. cbv zeta.
  destruct (N.ltb_spec (code c) 128); [reflexivity | lia].
Qed.

(** What [EncodeRune] writes is one well-formed encoding. *)
Lemma EncodeRune_valid (r0 : N) (rest : list ascii) :
  UTF8.ValidString (UTF8.EncodeRune r0 ++ rest) = UTF8.ValidString rest.
Proof.
  unfold UTF8.EncodeRune.
  set (r := if ((55296 <=? r0) && (r0 <? 57344) || (1114111 <? r0))%N
            then UTF8.RuneError else r0).
  assert (Hr : (r < 55296 \/ 57344 <= r)%N /\ (r <= 1114111)%N).
  { subst r. unfold UTF8.RuneError.
    destruct (N.leb_spec 55296 r0), (N.ltb_spec r0 57344),
      (N.ltb_spec 1114111 r0); cbn; lia. }
  clearbody r. destruct Hr as [Hs Hm].
  destruct (N.ltb_spec r 128) as [H1 | H1].
  { cbn [app]. apply ValidString_ascii. rewrite code_byte_of; lia. }
  destruct (N.ltb_spec r 2048) as [H2 | H2].
  { cbn [app UTF8.ValidString]. cbv zeta. rewrite cont_tail6.
    rewrite N.shiftr_div_pow2. change (2 ^ 6)%N with 64%N.
    rewrite code_byte_of by lia.
    decide_ltb. reflexivity. }
  destruct (N.ltb_spec r 65536) as [H3 | H3].
  { cbn [app UTF8.ValidString]. cbv zeta. rewrite !cont_tail6.
    rewrite N.shiftr_div_pow2. change (2 ^ 12)%N with 4096%N.
    rewrite code_byte_of by lia.
    unfold UTF8.cont, between. rewrite code_tail6. change (2 ^ 6)%N with 64%N.
    decide_ltb; reflexivity. }
  cbn [app UTF8.ValidString]. cbv zeta. rewrite !cont_tail6.
  rewrite N.shiftr_div_pow2. change (2 ^ 18)%N with 262144%N.
  rewrite code_byte_of by lia.
  unfold UTF8.cont, between. rewrite code_tail6. change (2 ^ 12)%N with 4096%N.
  decide_ltb; reflexivity.
Qed.

Lemma unescape_ascii (e : ascii) :
  is_simple_escape e = true -> (code (unescape e) < 128)%N.
Proof.
  destruct e as [[] [] [] [] [] [] [] []]; intros H; try discriminate H;
    vm_compute; reflexivity.
Qed.

Lemma option_map_Some {A B : Type} (f : A -> B) (o : option A) (b : B) :
  option_map f o = Some b -> exists a, o = Some a /\ b = f a.
Proof. destruct o as [a|]; [intros [= <-]; eauto | discriminate]. Qed.

Lemma unquote_aux_valid (fuel : nat) (s out : list ascii) :
  unquote_aux fuel s = Some out -> UTF8.ValidString out = true.
Proof.
  revert s out. induction fuel as [|fuel IH]; intros s out; [discriminate|].
  cbn [unquote_aux]. destruct s as [|c t]; [intros [= <-]; reflexivity|].
  destruct (c =? "\")%char.
  - destruct t as [|e t1]; [discriminate|].
    destruct (e =? "u")%char.
    + destruct (getu4 (c :: e :: t1)) as [rr|]; [|discriminate].
      destruct (IsSurrogate rr).
      * destruct (utf16_DecodeRune rr _);
          intros H; apply option_map_Some in H; destruct H as (o & H & ->);
          rewrite EncodeRune_valid; eapply IH; exact H.
      * intros H; apply option_map_Some in H; destruct H as (o & H & ->).
        rewrite EncodeRune_valid. eapply IH; exact H.
    + destruct (is_simple_escape e) eqn:Ee; [|discriminate].
      intros H; apply option_map_Some in H; destruct H as (o & H & ->).
      rewrite ValidString_ascii by (apply unescape_ascii, Ee).
      eapply IH; exact H.
  - destruct (Ascii.eqb c dquote || (code c <? 32)%N); [discriminate|].
    destruct (N.ltb_spec (code c) 128) as [Hc | Hc].
    + intros H; apply option_map_Some in H; destruct H as (o & H & ->).
      rewrite ValidString_ascii by exact Hc. eapply IH; exact H.
    + destruct (UTF8.DecodeRune (c :: t)) as [rr size].
      intros H; apply option_map_Some in H; destruct H as (o & H & ->).
      rewrite EncodeRune_valid. eapply IH; exact H.
Qed.

(** An unquoted string is valid UTF-8, whatever bytes the literal holds. *)
Lemma unquote_valid (raw : list ascii) (k : string) :
  unquote raw = Some k -> valid_label k = true.
Proof.
  unfold unquote, valid_label. intros H.
  apply option_map_Some in H. destruct H as (o & H & ->).
  unfold bytes, str. rewrite list_ascii_of_string_of_list_ascii.
  eapply unquote_aux_valid; exact H.
Qed.

Ltac break_scan :=
  repeat match goal with
  | |- context [match ?x with _ => _ end] =>
    destruct x eqn:?; try discriminate
  end.

Lemma scan_literal_string (s r : list ascii) (x : string) :
  scan_literal s = Scanned (JString x) r -> valid_label x = true.
Proof.
  unfold scan_literal. break_scan.
  intros H. inversion H. subst. eapply unquote_valid; eassumption.
Qed.

Lemma scan_value_string (fuel : nat) (d : N) (s r : list ascii) (x : string) :
  scan_value fuel d s = Scanned (JString x) r -> valid_label x = true.
Proof.
  destruct fuel as [|fuel]; [discriminate|]. cbn [scan_value].
  break_scan. apply scan_literal_string.
Qed.

Lemma scan_members_strings (fuel : nat) (d : N) (s r : list ascii)
  (ms : list (string * value)) :
  scan_members fuel d s = Scanned ms r ->
  forall k x, In (k, JString x) ms -> valid_label x = true.
Proof.
  revert s r ms. induction fuel as [|fuel IH]; intros s r ms; [discriminate|].
  cbn [scan_members]. break_scan.
  - intros H k x Hin. inversion H. subst.
    destruct Hin as [Hin | []]. inversion Hin. subst.
    eapply scan_value_string; eassumption.
  - intros H k x Hin. inversion H. subst.
    destruct Hin as [Hin | Hin].
    + inversion Hin. subst. eapply scan_value_string; eassumption.
    + eapply IH; eassumption.
Qed.

(** The string members of a parsed object are valid UTF-8. *)
Lemma parse_object_strings (body : string) (ms : list (string * value)) :
  parse body = Some (JObject ms) ->
  forall k x, In (k, JString x) ms -> valid_label x = true.
Proof.
  unfold parse.
  destruct (scan_value _ 0 (bytes body)) as [v r| |] eqn:Ev; try discriminate.
  destruct (skip_space r); [|discriminate]. intros [= ->].
  unfold fuel_for in Ev. cbn [Nat.mul Nat.add] in Ev.
  rewrite Nat.add_comm in Ev. cbn [Nat.add scan_value] in Ev.
  revert Ev. break_scan.
  - intros H k x Hin. inversion H. subst. destruct Hin.
  - intros H. inversion H. subst. eapply scan_members_strings; eassumption.
  - intros H k x Hin. unfold scan_literal in H. revert H. break_scan.
Qed.

Lemma last_string_In (name : string) (ms : list (string * value)) (x : string) :
  last_string name ms = Some x -> exists k, In (k, JString x) ms.
Proof.
  induction ms as [|[k v] t IH]; [discriminate|].
  cbn [last_string]. destruct (last_string name t) as [s|].
  - intros [= ->]. destruct (IH eq_refl) as [k' Hin]. exists k'. right. exact Hin.
  - destruct (for_field name (k, v)); [|discriminate].
    cbn [snd]. destruct v; try discriminate.
    intros [= ->]. exists k. left. reflexivity.
Qed.

(** ** The scanner has fuel enough *)

Lemma skip_space_length (s : list ascii) :
  (List.length (skip_space s) <= List.length s)%nat.
Proof.
  induction s as [|c t IH]; cbn [skip_space List.length]; [lia|].
  destruct (is_space c); cbn [List.length]; lia.
Qed.

Lemma skip_space_cons (s t : list ascii) (c : ascii) :
  skip_space s = c :: t -> (List.length t < List.length s)%nat.
Proof.
  intros H. pose proof (skip_space_length s) as L. rewrite H in L.
  cbn [List.length] in L. lia.
Qed.

Lemma span_digits_length (s ds r : list ascii) :
  span_digits s = (ds, r) -> (List.length r <= List.length s)%nat.
Proof.
  revert ds r. induction s as [|c t IH]; intros ds r; cbn [span_digits].
  - intros [= <- <-]. cbn. lia.
  - destruct (is_digit c).
    + destruct (span_digits t) as [ds' r'] eqn:E. intros [= <- <-].
      specialize (IH _ _ eq_refl). cbn [List.length]. lia.
    + intros [= <- <-]. lia.
Qed.

Lemma strip_prefix_length (p s r : list ascii) :
  strip_prefix p s = Some r -> (List.length r <= List.length s)%nat.
Proof.
  revert s r. induction p as [|a p IH]; intros s r; cbn [strip_prefix].
  - intros [= <-]. lia.
  - destruct s as [|b s']; [discriminate|].
    destruct (Ascii.eqb a b); [|discriminate].
    intros H. apply IH in H. cbn [List.length]. lia.
Qed.

Lemma scan_string_length (n : nat) (s raw r : list ascii) :
  (List.length s <= n)%nat ->
  scan_string s = Some (raw, r) -> (List.length r < List.length s)%nat.
Proof.
  revert s raw r. induction n as [|n IH]; intros s raw r Hn.
  - destruct s; [discriminate | cbn in Hn; lia].
  - destruct s as [|c t]; [discriminate|]. cbn [scan_string List.length] in *.
    destruct (Ascii.eqb c dquote); [intros [= <- <-]; lia|].
    destruct (c =? "\")%char.
    + destruct t as [|e t1]; [discriminate|]. cbn [List.length] in *.
      destruct (is_simple_escape e).
      * destruct (scan_string t1) as [[raw' r']|] eqn:E; [|discriminate].
        intros [= <- <-]. apply IH in E; lia.
      * destruct (e =? "u")%char; [|discriminate].
        destruct t1 as [|h1 [|h2 [|h3 [|h4 t2]]]]; try discriminate.
        destruct (_ && _); [|discriminate].
        destruct (scan_string t2) as [[raw' r']|] eqn:E; [|discriminate].
        intros [= <- <-]. cbn [List.length] in *. apply IH in E; lia.
    + destruct (code c <? 32)%N; [discriminate|].
      destruct (scan_string t) as [[raw' r']|] eqn:E; [|discriminate].
      intros [= <- <-]. apply IH in E; lia.
Qed.

Lemma scan_key_length (s r : list ascii) (k : string) :
  scan_key s = Some (k, r) -> (List.length r < List.length s)%nat.
Proof.
  unfold scan_key. destruct (scan_string s) as [[raw r']|] eqn:E; [|discriminate].
  destruct (unquote raw); [|discriminate]. intros [= <- <-].
  eapply scan_string_length; [reflexivity | exact E].
Qed.

Lemma scan_int_length (s ip r : list ascii) :
  scan_int s = Some (ip, r) -> (List.length r < List.length s)%nat.
Proof.
  unfold scan_int. destruct s as [|c t]; [discriminate|].
  cbn [List.length].
  destruct (c =? "0")%char; [intros [= <- <-]; lia|].
  destruct (is_digit c); [|discriminate].
  destruct (span_digits t) as [ds r'] eqn:E. apply span_digits_length in E.
  intros [= <- <-]. lia.
Qed.

Lemma scan_frac_length (s fp r : list ascii) :
  scan_frac s = Some (fp, r) -> (List.length r <= List.length s)%nat.
Proof.
  unfold scan_frac. destruct s as [|c t]; [intros [= <- <-]; lia|].
  cbn [List.length].
  destruct (c =? ".")%char; [|intros [= <- <-]; cbn; lia].
  destruct (span_digits t) as [ds r'] eqn:E. apply span_digits_length in E.
  destruct ds; [discriminate|]. intros [= <- <-]. lia.
Qed.

Lemma scan_exp_length (s ep r : list ascii) :
  scan_exp s = Some (ep, r) -> (List.length r <= List.length s)%nat.
Proof.
  unfold scan_exp. destruct s as [|c t]; [intros [= <- <-]; lia|].
  cbn [List.length].
  destruct ((c =? "e") || (c =? "E"))%char; [|intros [= <- <-]; cbn; lia].
  destruct t as [|d t'].
  - cbn. discriminate.
  - destruct ((d =? "+") || (d =? "-"))%char.
    + destruct (span_digits t') as [ds r'] eqn:E. apply span_digits_length in E.
      destruct ds; [discriminate|]. intros [= <- <-]. cbn [List.length]. lia.
    + destruct (span_digits (d :: t')) as [ds r'] eqn:E.
      apply span_digits_length in E.
      destruct ds; [discriminate|]. intros [= <- <-]. lia.
Qed.

Lemma scan_number_length (s lit r : list ascii) :
  scan_number s = Some (lit, r) -> (List.length r < List.length s)%nat.
Proof.
  unfold scan_number.
  destruct (match s with
            | c :: t => if (c =? "-")%char then ([c], t) else ([], s)
            | [] => ([], s)
            end) as [sg s1] eqn:Es.
  assert (Hs : (List.length s1 <= List.length s)%nat).
  { destruct s as [|c t]; [injection Es as <- <-; lia|].
    destruct (c =? "-")%char; injection Es as <- <-; cbn; lia. }
  destruct (scan_int s1) as [[ip r1]|] eqn:E1; [|discriminate].
  apply scan_int_length in E1.
  destruct (scan_frac r1) as [[fp r2]|] eqn:E2; [|discriminate].
  apply scan_frac_length in E2.
  destruct (scan_exp r2) as [[ep r3]|] eqn:E3; [|discriminate].
  apply scan_exp_length in E3.
  intros [= <- <-]. lia.
Qed.

Lemma scan_literal_length (s r : list ascii) (v : value) :
  scan_literal s = Scanned v r -> (List.length r < List.length s)%nat.
Proof.
  unfold scan_literal. destruct s as [|c t]; [discriminate|].
  destruct (Ascii.eqb c dquote).
  { destruct (scan_string t) as [[raw r']|] eqn:E; [|discriminate].
    destruct (unquote raw); [|discriminate]. intros [= <- <-].
    apply (scan_string_length _ _ _ _ (le_n _)) in E. cbn [List.length]. lia. }
  destruct (c =? "t")%char.
  { destruct (strip_prefix _ t) eqn:E; [|discriminate]. intros [= <- <-].
    apply strip_prefix_length in E. cbn [List.length]. lia. }
  destruct (c =? "f")%char.
  { destruct (strip_prefix _ t) eqn:E; [|discriminate]. intros [= <- <-].
    apply strip_prefix_length in E. cbn [List.length]. lia. }
  destruct (c =? "n")%char.
  { destruct (strip_prefix _ t) eqn:E; [|discriminate]. intros [= <- <-].
    apply strip_prefix_length in E. cbn [List.length]. lia. }
  destruct (scan_number (c :: t)) as [[lit r']|] eqn:E; [|discriminate].
  intros [= <- <-]. apply scan_number_length in E. exact E.
Qed.

Ltac lens IHv IHe IHm :=
  repeat match goal with
  | H : skip_space ?s = _ :: _ |- _ => apply skip_space_cons in H
  | H : scan_literal _ = Scanned _ _ |- _ => apply scan_literal_length in H
  | H : scan_key _ = Some _ |- _ => apply scan_key_length in H
  | H : scan_value _ _ _ = Scanned _ _ |- _ => apply IHv in H
  | H : scan_elements _ _ _ = Scanned _ _ |- _ => apply IHe in H
  | H : scan_members _ _ _ = Scanned _ _ |- _ => apply IHm in H
  end.

(** Every scan consumes input. *)
Lemma scan_shrinks (fuel : nat) : shrinks fuel.
Proof.
  induction fuel as [|fuel (IHv & IHe & IHm)].
  { repeat split; intros; discriminate. }
  repeat split.
  - intros d s v r. cbn [scan_value]. break_scan;
      intros H;
      first [apply scan_literal_length in H | inversion H; subst; clear H];
      lens IHv IHe IHm; cbn [List.length] in *; lia.
  - intros d s vs r. cbn [scan_elements]. break_scan;
      intros H; inversion H; subst; clear H; lens IHv IHe IHm;
      cbn [List.length] in *; lia.
  - intros d s ms r. cbn [scan_members]. break_scan;
      intros H; inversion H; subst; clear H; lens IHv IHe IHm;
      cbn [List.length] in *; lia.
Qed.

Ltac lens' :=
  repeat match goal with
  | H : skip_space ?s = _ :: _ |- _ => apply skip_space_cons in H
  | H : scan_key _ = Some _ |- _ => apply scan_key_length in H
  | H : scan_value ?f _ _ = Scanned _ _ |- _ =>
    apply (proj1 (scan_shrinks f)) in H
  end.

Lemma scan_fuelled (fuel : nat) : fuelled fuel.
Proof.
  induction fuel as [|fuel (IHv & IHe & IHm)].
  { repeat split; intros d s H; lia. }
  repeat split.
  - intros d s Hf. cbn [scan_value]. break_scan; try discriminate.
    + lens'. exfalso. eapply IHe; [|eassumption]. cbn [List.length] in *. lia.
    + lens'. exfalso. eapply IHm; [|eassumption]. cbn [List.length] in *. lia.
    + unfold scan_literal. break_scan.
  - intros d s Hf. cbn [scan_elements]. break_scan; try discriminate.
    + lens'. exfalso. eapply IHe; [|eassumption]. cbn [List.length] in *. lia.
    + exfalso. eapply IHv; [|eassumption]. lia.
  - intros d s Hf. cbn [scan_members]. break_scan; try discriminate.
    + lens'. exfalso. eapply IHm; [|eassumption]. cbn [List.length] in *. lia.
    + lens'. exfalso. eapply IHv; [|eassumption]. cbn [List.length] in *. lia.
Qed.

(** [parse] never gives up for lack of fuel. *)
Theorem parse_fuelled (data : string) :
  scan_value (fuel_for (List.length (bytes data))) 0 (bytes data) <> OutOfFuel.
Proof.
  apply (proj1 (scan_fuelled _)). unfold fuel_for. lia.
Qed.

Lemma scan_string_well_escaped (n : nat) (s raw r : list ascii) :
  (List.length s <= n)%nat ->
  scan_string s = Some (raw, r) -> well_escaped raw = true.
Proof.
  revert s raw r. induction n as [|n IH]; intros s raw r Hn.
  - destruct s; [discriminate | cbn in Hn; lia].
  - destruct s as [|c t]; [discriminate|]. cbn [scan_string List.length] in *.
    destruct (Ascii.eqb c dquote) eqn:Eq; [intros [= <- <-]; reflexivity|].
    destruct (c =? "\")%char eqn:Eb.
    + destruct t as [|e t1]; [discriminate|]. cbn [List.length] in *.
      destruct (is_simple_escape e) eqn:Ee.
      * destruct (scan_string t1) as [[raw' r']|] eqn:E; [|discriminate].
        intros [= <- <-]. cbn [well_escaped]. rewrite Eb, Ee.
        eapply IH; [|exact E]. lia.
      * destruct (e =? "u")%char eqn:Eu; [|discriminate].
        destruct t1 as [|h1 [|h2 [|h3 [|h4 t2]]]]; try discriminate.
        destruct (_ && _) eqn:Eh; [|discriminate].
        destruct (scan_string t2) as [[raw' r']|] eqn:E; [|discriminate].
        intros [= <- <-]. cbn [well_escaped]. rewrite Eb, Ee, Eu, Eh.
        cbn [List.length] in *. eapply IH; [|exact E]. lia.
    + destruct (code c <? 32)%N eqn:Ec; [discriminate|].
      destruct (scan_string t) as [[raw' r']|] eqn:E; [|discriminate].
      intros [= <- <-]. cbn [well_escaped]. rewrite Eb, Eq, Ec.
      eapply IH; [|exact E]. lia.
Qed.

Lemma well_escaped_high (c : ascii) (t : list ascii) :
  (128 <= code c)%N -> well_escaped (c :: t) = well_escaped t.
Proof.
  intros H. cbn [well_escaped].
  destruct (c =? "\")%char eqn:Eb.
  { apply Ascii.eqb_eq in Eb. subst c. vm_compute in H. exfalso. apply H. reflexivity. }
  destruct (Ascii.eqb c dquote) eqn:Eq.
  { apply Ascii.eqb_eq in Eq. subst c. vm_compute in H. exfalso. apply H. reflexivity. }
  destruct (N.ltb_spec (code c) 32); [lia | reflexivity].
Qed.

Lemma between_high (lo hi : N) (c : ascii) :
  (128 <= lo)%N -> between lo hi c = true -> (128 <= code c)%N.
Proof.
  unfold between. intros Hlo H. apply andb_true_iff in H. destruct H as [H _].
  apply N.leb_le in H. lia.
Qed.

(** Skipping the encoding that [DecodeRune] reads keeps the rest well
    escaped. *)
Lemma well_escaped_skip_rune (c : ascii) (t : list ascii) :
  (128 <= code c)%N -> well_escaped (c :: t) = true ->
  well_escaped (skipn (snd (UTF8.DecodeRune (c :: t))) (c :: t)) = true
  /\ (1 <= snd (UTF8.DecodeRune (c :: t)))%nat.
Proof.
  intros Hc Hw. rewrite (well_escaped_high c t Hc) in Hw.
  unfold UTF8.DecodeRune.
  destruct (N.ltb_spec (code c) 128); [lia|].
  assert (Hlo : forall b : bool, (128 <= (if b then 160 else 128))%N)
    by (intros []; lia).
  assert (Hlo' : forall b : bool, (128 <= (if b then 144 else 128))%N)
    by (intros []; lia).
  repeat match goal with
  | |- context [if ?b then _ else _] =>
    lazymatch b with
    | (_ && _) => destruct b eqn:?
    | UTF8.cont _ _ _ => destruct b eqn:?
    | (_ <? _)%N => destruct b
    end
  | |- context [match ?l with [] => _ | _ :: _ => _ end] => destruct l
  end; cbn [snd skipn]; (split; [|lia]); try exact Hw;
  repeat match goal with
  | H : (_ && _) = true |- _ => apply andb_true_iff in H; destruct H
  | H : UTF8.cont ?lo _ ?x = true |- _ =>
    apply between_high in H; [|solve [lia | apply Hlo | apply Hlo']]
  end;
  repeat match goal with
  | H : (128 <= code ?x)%N, Hw : well_escaped (?x :: _) = true |- _ =>
    rewrite (well_escaped_high x _ H) in Hw
  end; exact Hw.
Qed.

Lemma getu4_Some (s : list ascii) (r : N) :
  getu4 s = Some r ->
  exists b u h1 h2 h3 h4 t,
    s = b :: u :: h1 :: h2 :: h3 :: h4 :: t /\
    (b =? "\")%char = true /\ (u =? "u")%char = true /\
    is_hex h1 && is_hex h2 && is_hex h3 && is_hex h4 = true.
Proof.
  unfold getu4.
  destruct s as [|b [|u [|h1 [|h2 [|h3 [|h4 t]]]]]]; try discriminate.
  destruct (b =? "\")%char eqn:Eb; [|discriminate].
  destruct (u =? "u")%char eqn:Eu; [|discriminate].
  destruct (is_hex h1 && is_hex h2 && is_hex h3 && is_hex h4) eqn:Eh.
  - intros _. exists b, u, h1, h2, h3, h4, t. repeat split; assumption.
  - cbn [andb]. rewrite <- !andb_assoc in *. cbn [andb].
    rewrite Eh. discriminate.
Qed.

Lemma u_not_simple (e : ascii) :
  (e =? "u")%char = true -> is_simple_escape e = false.
Proof. intros H. apply Ascii.eqb_eq in H. subst e. reflexivity. Qed.

(** On well-escaped contents [unquoteBytes] succeeds. *)
Lemma unquote_aux_total (fuel : nat) (s : list ascii) :
  (List.length s < fuel)%nat -> well_escaped s = true ->
  exists out, unquote_aux fuel s = Some out.
Proof.
  revert s. induction fuel as [|fuel IH]; intros s Hf Hw; [lia|].
  cbn [unquote_aux]. destruct s as [|c t]; [eexists; reflexivity|].
  cbn [well_escaped List.length] in *.
  destruct (c =? "\")%char eqn:Eb.
  - destruct t as [|e t1]; [discriminate|]. cbn [List.length] in *.
    destruct (e =? "u")%char eqn:Eu.
    + rewrite (u_not_simple e Eu) in Hw.
      destruct t1 as [|h1 [|h2 [|h3 [|h4 t2]]]]; try discriminate.
      apply andb_true_iff in Hw. destruct Hw as [Hh Hw].
      cbn [List.length] in *.
      assert (Hg : exists rr, getu4 (c :: e :: h1 :: h2 :: h3 :: h4 :: t2)
                              = Some rr).
      { unfold getu4. rewrite Eb, Eu. cbn [andb]. rewrite Hh.
        eexists; reflexivity. }
      destruct Hg as [rr ->]. cbn [skipn].
      destruct (IsSurrogate rr).
      * destruct (utf16_DecodeRune rr (getu4 t2)) as [dec|] eqn:Ed.
        -- destruct (getu4 t2) as [r2|] eqn:E2; [|discriminate].
           apply getu4_Some in E2.
           destruct E2 as (b' & u' & k1 & k2 & k3 & k4 & t3 & -> & Eb' & Eu' & Hh').
           cbn [well_escaped] in Hw. rewrite Eb', (u_not_simple u' Eu'), Eu' in Hw.
           apply andb_true_iff in Hw. destruct Hw as [_ Hw].
           cbn [skipn List.length] in *.
           destruct (IH t3) as [out ->]; [lia | exact Hw |].
           eexists; reflexivity.
        -- destruct (IH t2) as [out ->]; [lia | exact Hw |].
           eexists; reflexivity.
      * destruct (IH t2) as [out ->]; [lia | exact Hw |].
        eexists; reflexivity.
    + destruct (is_simple_escape e); [|discriminate].
      destruct (IH t1) as [out ->]; [lia | exact Hw |].
      eexists; reflexivity.
  - destruct (Ascii.eqb c dquote || (code c <? 32)%N) eqn:Eq; [discriminate|].
    destruct (N.ltb_spec (code c) 128) as [Hc | Hc].
    + destruct (IH t) as [out ->]; [lia | exact Hw |].
      eexists; reflexivity.
    + assert (Hw' : well_escaped (c :: t) = true).
      { cbn [well_escaped]. rewrite Eb, Eq. exact Hw. }
      destruct (well_escaped_skip_rune c t Hc Hw') as [Hs Hn].
      destruct (UTF8.DecodeRune (c :: t)) as [rr size]. cbn [snd] in *.
      destruct (IH (skipn size (c :: t))) as [out ->]; [|exact Hs|].
      * rewrite length_skipn. cbn [List.length]. lia.
      * eexists; reflexivity.
Qed.

(** The string literals and keys that the scanner accepts always unquote. *)
Lemma scan_string_unquote (s raw r : list ascii) :
  scan_string s = Some (raw, r) -> exists k, unquote raw = Some k.
Proof.
  intros H. apply (scan_string_well_escaped _ _ _ _ (le_n _)) in H.
  unfold unquote.
  destruct (unquote_aux_total (S (List.length raw)) raw) as [out ->];
    [lia | exact H |].
  eexists; reflexivity.
Qed.

(** ** The labels are accepted by the metric vectors *)

Lemma string_of_uint_valid (d : Decimal.uint) :
  UTF8.ValidString (bytes (NilEmpty.string_of_uint d)) = true.
Proof.
  induction d; cbn [NilEmpty.string_of_uint bytes list_ascii_of_string];
    [reflexivity | rewrite ValidString_ascii by (vm_compute; reflexivity);
                   exact IHd ..].
Qed.

Lemma NilZero_string_of_uint_valid (d : Decimal.uint) :
  UTF8.ValidString (bytes (NilZero.string_of_uint d)) = true.
Proof.
  unfold NilZero.string_of_uint. destruct d; try apply string_of_uint_valid.
  reflexivity.
Qed.

Lemma Itoa_valid (n : Z) : valid_label (Itoa n) = true.
Proof.
  unfold valid_label, Itoa, NilZero.string_of_int.
  destruct (Z.to_int n) as [d | d].
  - apply NilZero_string_of_uint_valid.
  - cbn [bytes list_ascii_of_string].
    rewrite ValidString_ascii by (vm_compute; reflexivity).
    apply NilZero_string_of_uint_valid.
Qed.

(** The model label is valid UTF-8 for every body: it is a decoded string or
    the word unknown. *)
Lemma model_of_valid (b : string) : valid_label (model_of b) = true.
Proof.
  unfold model_of. destruct (String.eqb _ _); [reflexivity|].
  unfold payload_of, Unmarshal_RequestPayload.
  destruct (parse b) as [[| | | | |ms]|] eqn:Ep; try reflexivity.
  assert (H : forall p e,
             valid_label (Model p) = true ->
             valid_label
               (Model (fst (fold_left store_RequestPayload ms (p, e)))) = true).
  { assert (Hms := parse_object_strings b ms Ep). clear Ep.
    induction ms as [|[k v] t IH]; intros p e Hp; [exact Hp|].
    cbn [fold_left].
    destruct (store_RequestPayload (p, e) (k, v)) as [p' e'] eqn:Es.
    apply IH.
    - intros k' x Hin. apply (Hms k' x). right. exact Hin.
    - unfold store_RequestPayload in Es.
      destruct (Decoder.field_matches "model" k).
      + destruct v; cbn in Es; inversion Es; cbn; try exact Hp.
        apply (Hms k s). left. reflexivity.
      + destruct (Decoder.field_matches "stream" k).
        * destruct (Decoder.store_bool_ptr v (Stream p)). inversion Es. exact Hp.
        * inversion Es. subst. exact Hp. }
  apply H. reflexivity.
Qed.

Lemma streamLabel_of_valid (b : string) : valid_label (streamLabel_of b) = true.
Proof. unfold streamLabel_of. destruct (negb _); reflexivity. Qed.

Lemma labels_valid (r : Request) (b status : string) :
  valid_label (URL_Path r) = true -> valid_label status = true ->
  forallb valid_label (labels2 r b) = true /\
  forallb valid_label (labels3 r b) = true /\
  forallb valid_label (labels4 r b status) = true.
Proof.
  intros Hp Hs. unfold labels2, labels3, labels4. cbn [forallb].
  rewrite Hp, Hs, model_of_valid, streamLabel_of_valid. intuition.
Qed.

(** ** Steps of the handler *)

Lemma bind_Continue {A B : Type} (m : M A) (k : A -> M B)
  (s s' : hstate) (a : A) :
  m s = (Continue a, s') -> bind m k s = k a s'.
Proof. intros H. unfold bind. rewrite H. reflexivity. Qed.

Lemma WithLabelValues_valid (lvs : list string) :
  forallb valid_label lvs = true -> WithLabelValues lvs = ret tt.
Proof.
  intros H. unfold WithLabelValues.
  destruct (find _ lvs) as [v|] eqn:E; [|reflexivity].
  apply find_some in E. destruct E as [Hin Hv].
  rewrite forallb_forall in H. rewrite (H v Hin) in Hv. discriminate Hv.
Qed.

Lemma counter_Add_nonneg (m : metric) (lvs : list string) (v : Z) :
  forallb valid_label lvs = true -> 0 <= v ->
  counter_Add m lvs v = emit (CounterAdd m lvs v).
Proof.
  intros Hl H. unfold counter_Add. rewrite (WithLabelValues_valid lvs Hl).
  destruct (Z.ltb_spec v 0); [lia | reflexivity].
Qed.

Lemma counter_Add_neg (m : metric) (lvs : list string) (v : Z) :
  forallb valid_label lvs = true -> v < 0 ->
  counter_Add m lvs v = panic "counter cannot decrease in value".
Proof.
  intros Hl H. unfold counter_Add. rewrite (WithLabelValues_valid lvs Hl).
  destruct (Z.ltb_spec v 0); [reflexivity | lia].
Qed.

Lemma counter_Inc_valid (m : metric) (lvs : list string) :
  forallb valid_label lvs = true -> counter_Inc m lvs = emit (CounterInc m lvs).
Proof.
  intros Hl. unfold counter_Inc. rewrite (WithLabelValues_valid lvs Hl).
  reflexivity.
Qed.

Lemma Observe_valid (m : metric) (lvs : list string) (d : Z) :
  forallb valid_label lvs = true ->
  Observe m lvs d = emit (HistObserve m lvs d).
Proof.
  intros Hl. unfold Observe. rewrite (WithLabelValues_valid lvs Hl).
  reflexivity.
Qed.

Lemma w_WriteHeader_valid (code : Z) (h : Header) :
  valid_status code -> w_WriteHeader code h = emit (WriteHeader code h).
Proof.
  unfold valid_status, w_WriteHeader. intros H.
  destruct (Z.ltb_spec code 100); [lia|].
  destruct (Z.ltb_spec 999 code); [lia | reflexivity].
Qed.

Lemma add_tokens_nonneg (endpoint model : string)
  (m : OllamaResponseMetrics) (s : hstate) :
  forallb valid_label [endpoint; model] = true ->
  nonneg (PromptEvalCount m) -> nonneg (EvalCount m) ->
  add_tokens endpoint model m s =
  (Continue tt,
   {| trace := trace s ++ token_adds [endpoint; model] m;
      deferred := deferred s |}).
Proof.
  unfold add_tokens, token_adds, nonneg. intros Hl.
  destruct (PromptEvalCount m) as [p|], (EvalCount m) as [e|]; intros Hp He;
    repeat rewrite counter_Add_nonneg
      by (assumption || apply float64_of_int_nonneg; assumption);
    destruct s as [tr ds]; unfold bind, emit, ret; cbn;
    rewrite <- ?app_assoc, ?app_nil_r; reflexivity.
Qed.

Lemma string_app_empty (s : string) : (s ++ EmptyString)%string = s.
Proof. induction s as [|c s IH]; cbn; [|rewrite IH]; reflexivity. Qed.

(** After the body is read the handler is [forward]. *)
Lemma serve_forward (w : World) (r : Request) (b : string) :
  read_body r = Some b -> serve w r = finish (forward w r b) (body_close r).
Proof.
  unfold read_body, body_close, serve, proxyHandler, finish.
  destruct (Body r) as [rd|]; unfold ReadAll.
  - destruct (rd_fails rd); [discriminate|]. intros [= <-]. reflexivity.
  - intros [= <-]. reflexivity.
Qed.

(** ** The traces of the handler, branch by branch *)

(** The inbound body cannot be read. *)
Lemma serve_body_unreadable (w : World) (r : Request) :
  read_body r = None ->
  serve w r =
  (Returned,
   [HttpError "failed to read request body" StatusBadRequest;
    ErrorBody
      (fst (taken (client_takes w) (error_body "failed to read request body")));
    CloseRequestBody]).
Proof.
  unfold read_body, serve, proxyHandler, finish.
  destruct (Body r) as [rd|]; [|discriminate].
  unfold ReadAll. destruct (rd_fails rd); [|discriminate].
  reflexivity.
Qed.

(** The path is not valid UTF-8: the first metric vector refuses it. *)
Lemma serve_invalid_path (w : World) (r : Request) (b : string) :
  read_body r = Some b -> valid_label (URL_Path r) = false ->
  serve w r
  = (Panicked (Errorf "label value %q is not valid UTF-8" (URL_Path r)),
     body_close r).
Proof.
  intros Hb Hp. rewrite (serve_forward w r b Hb).
  unfold finish, forward, counter_Add, WithLabelValues. cbn [find].
  rewrite Hp. reflexivity.
Qed.

Section Forwarded.

Variables (w : World) (r : Request) (b : string).
Hypothesis Hbody : read_body r = Some b.
Hypothesis Hpath : valid_label (URL_Path r) = true.

Let bytes_in : event :=
  CounterAdd bytesIn (labels3 r b) (float64_of_int (len b)).

Ltac labels :=
  solve [ apply (labels_valid r b EmptyString Hpath eq_refl)
        | apply (labels_valid r b "502" Hpath eq_refl)
        | apply (labels_valid r b _ Hpath (Itoa_valid _))
        | apply float64_of_int_nonneg, len_nonneg
        | assumption ].

Ltac step :=
  rewrite ?counter_Add_nonneg, ?counter_Inc_valid, ?Observe_valid by labels.

(** The upstream request cannot be built. *)
Lemma serve_newRequest_fails :
  newRequest_fails w = true ->
  serve w r =
  (Returned,
   [bytes_in;
    NewRequestWithContext (Method r) (upstream_target w r) b;
    HttpError "failed to create upstream request" StatusInternalServerError;
    ErrorBody
      (fst (taken (client_takes w)
              (error_body "failed to create upstream request")))]
   ++ body_close r).
Proof.
  intros Hn. rewrite (serve_forward w r b Hbody).
  unfold finish, forward. rewrite Hn. step. reflexivity.
Qed.

Hypothesis Hnew : newRequest_fails w = false.

Let sent : list event :=
  [bytes_in;
   NewRequestWithContext (Method r) (upstream_target w r) b;
   UpstreamDo (build_upstream w r b)].

(** The upstream call fails. *)
Lemma serve_upstream_error :
  upstream w = DoError ->
  serve w r =
  (Returned,
   sent ++
   [LogPrintf "upstream error: %v";
    CounterInc reqTotal (labels4 r b "502");
    HistObserve reqDuration (labels3 r b) (elapsed w);
    HttpError "upstream error" StatusBadGateway;
    ErrorBody (fst (taken (client_takes w) (error_body "upstream error")))]
   ++ body_close r).
Proof.
  intros Hu. rewrite (serve_forward w r b Hbody).
  unfold finish, forward. rewrite Hnew, Hu.
  change (Itoa StatusBadGateway) with "502". step. reflexivity.
Qed.

Variable resp : Response.
Hypothesis Hup : upstream w = DoResponse resp.

(** The upstream answers with a status code that [WriteHeader] refuses. *)
Lemma serve_invalid_status :
  ~ valid_status (StatusCode resp) ->
  serve w r =
  (Panicked (Text ("invalid WriteHeader code " ++ Itoa (StatusCode resp))),
   sent ++ [CloseResponseBody] ++ body_close r).
Proof.
  intros Hs. rewrite (serve_forward w r b Hbody).
  unfold finish, forward. rewrite Hnew, Hup. step.
  unfold w_WriteHeader, valid_status in *.
  destruct (Z.ltb_spec (StatusCode resp) 100);
    [reflexivity|].
  destruct (Z.ltb_spec 999 (StatusCode resp)); [reflexivity | lia].
Qed.

Hypothesis Hstatus : valid_status (StatusCode resp).

Let header_sent : event :=
  WriteHeader (StatusCode resp) (copy_header (Resp_Header resp) []).

Let counted : list event :=
  [CounterInc reqTotal (labels4 r b (Itoa (StatusCode resp)));
   HistObserve reqDuration (labels3 r b) (elapsed w)].

(** Streaming mode. *)
Lemma serve_streaming :
  stream_of b = true ->
  serve w r =
  (Returned,
   sent ++ [header_sent] ++
   (let '(q, werr) := taken (client_takes w) (rd_data (Resp_Body resp)) in
    [ClientWrite q] ++
    (if werr || rd_fails (Resp_Body resp)
     then [LogPrintf "streaming response to client failed: %v"] else []) ++
    [CounterAdd bytesOut (labels3 r b) (float64_of_int (len q))]) ++
   counted ++ [CloseResponseBody] ++ body_close r).
Proof.
  intros Hs. rewrite (serve_forward w r b Hbody).
  unfold finish, forward, relay_streaming, io_Copy. rewrite Hnew, Hup, Hs.
  step. rewrite w_WriteHeader_valid by assumption.
  destruct (taken (client_takes w) (rd_data (Resp_Body resp))) as [q werr].
  destruct (werr || rd_fails (Resp_Body resp)); cbn; step; reflexivity.
Qed.

Hypothesis Hbuffered : stream_of b = false.

(** Buffered mode, the upstream body cannot be read to its end. *)
Lemma serve_buffered_read_error :
  rd_fails (Resp_Body resp) = true ->
  serve w r =
  (Returned,
   sent ++ [header_sent] ++
   [LogPrintf "failed to read upstream response body: %v";
    CloseResponseBody] ++ body_close r).
Proof.
  intros Hf. rewrite (serve_forward w r b Hbody).
  unfold finish, forward, relay_buffered, ReadAll.
  rewrite Hnew, Hup, Hbuffered, Hf. step.
  rewrite w_WriteHeader_valid by assumption.
  reflexivity.
Qed.

Hypothesis Hread : rd_fails (Resp_Body resp) = false.

Let respBuf : string := rd_data (Resp_Body resp).

Let bytes_out : event :=
  CounterAdd bytesOut (labels3 r b) (float64_of_int (len respBuf)).

(** What follows the token counters in buffered mode. *)
Let written : list event :=
  let '(q, werr) := taken (client_takes w) respBuf in
  [ClientWrite q] ++
  (if werr
   then [LogPrintf "failed to write response body to client: %v"] else []).

(** Buffered mode, the upstream body does not decode. *)
Lemma serve_buffered_undecoded (m : OllamaResponseMetrics) :
  Unmarshal_OllamaResponseMetrics respBuf OllamaResponseMetrics_zero
  = (m, true) ->
  serve w r =
  (Returned,
   sent ++ [header_sent; bytes_out] ++ written ++
   counted ++ [CloseResponseBody] ++ body_close r).
Proof.
  intros Hm. rewrite (serve_forward w r b Hbody).
  unfold finish, forward, relay_buffered, ReadAll, w_Write, written.
  rewrite Hnew, Hup, Hbuffered, Hread. fold respBuf. rewrite Hm. step.
  rewrite w_WriteHeader_valid by assumption.
  destruct (taken (client_takes w) respBuf) as [q werr].
  destruct werr; reflexivity.
Qed.

(** Buffered mode, the upstream body decodes and no count is negative. *)
Lemma serve_buffered_decoded (m : OllamaResponseMetrics) :
  Unmarshal_OllamaResponseMetrics respBuf OllamaResponseMetrics_zero
  = (m, false) ->
  nonneg (PromptEvalCount m) -> nonneg (EvalCount m) ->
  serve w r =
  (Returned,
   sent ++ [header_sent; bytes_out] ++ token_adds (labels2 r b) m ++
   written ++ counted ++ [CloseResponseBody] ++ body_close r).
Proof.
  intros Hm Hp He. rewrite (serve_forward w r b Hbody).
  unfold finish, forward, relay_buffered, ReadAll, w_Write, written.
  rewrite Hnew, Hup, Hbuffered, Hread. fold respBuf. rewrite Hm. step.
  rewrite w_WriteHeader_valid by assumption.
  destruct (taken (client_takes w) respBuf) as [q werr].
  cbn. erewrite bind_Continue by (apply add_tokens_nonneg; labels).
  destruct werr; cbn; rewrite <- !app_assoc; reflexivity.
Qed.

(** Buffered mode, the upstream body decodes to a negative count: the
    counter panics, after [bytesOut] and before the body is written. *)
Lemma serve_buffered_negative (m : OllamaResponseMetrics) :
  Unmarshal_OllamaResponseMetrics respBuf OllamaResponseMetrics_zero
  = (m, false) ->
  ~ (nonneg (PromptEvalCount m) /\ nonneg (EvalCount m)) ->
  serve w r =
  (Panicked "counter cannot decrease in value",
   sent ++ [header_sent; bytes_out] ++
   token_adds_before_panic (labels2 r b) m ++
   [CloseResponseBody] ++ body_close r).
Proof.
  intros Hm Hneg. rewrite (serve_forward w r b Hbody).
  unfold finish, forward, relay_buffered, ReadAll, w_Write.
  rewrite Hnew, Hup, Hbuffered, Hread. fold respBuf. rewrite Hm. step.
  rewrite w_WriteHeader_valid by assumption.
  unfold add_tokens, token_adds_before_panic, nonneg in *.
  assert (Hl : forallb valid_label [URL_Path r; model_of b] = true) by labels.
  destruct (PromptEvalCount m) as [p|] eqn:Ep.
  - destruct (Z.ltb_spec p 0) as [Hp | Hp].
    + rewrite (counter_Add_neg tokensIn)
        by (assumption || apply float64_of_int_neg, Hp).
      reflexivity.
    + destruct (EvalCount m) as [e|]; [|tauto].
      assert (He : e < 0) by lia.
      rewrite (counter_Add_nonneg tokensIn)
        by (assumption || apply float64_of_int_nonneg, Hp).
      rewrite (counter_Add_neg tokensOut)
        by (assumption || apply float64_of_int_neg, He).
      reflexivity.
  - destruct (EvalCount m) as [e|]; [|tauto].
    assert (He : e < 0) by lia.
    rewrite (counter_Add_neg tokensOut)
      by (assumption || apply float64_of_int_neg, He).
    reflexivity.
Qed.

End Forwarded.

(** ** Scenarios of the spec *)

(** Scenario A: a buffered request answered 200 with token statistics. *)
Example scenario_A :
  serve (Sample.world (Sample.answer 200 (Sample.reader Sample.stats_body)) None)
        (Sample.generate (Sample.reader Sample.buffered_body))
  = (Returned,
     [CounterAdd bytesIn ["/api/generate"; "llama3"; "false"] 47;
      NewRequestWithContext "POST"
        {| Scheme := "http"; Host := "127.0.0.1:11434";
           Path := "/api/generate"; RawQuery := EmptyString |}
        Sample.buffered_body;
      UpstreamDo
        {| up_Method := "POST";
           up_Header := [("Content-Type", ["application/json"])];
           up_Body := Sample.buffered_body |};
      WriteHeader 200 [("Content-Type", ["application/json"])];
      CounterAdd bytesOut ["/api/generate"; "llama3"; "false"] 56;
      CounterAdd tokensIn ["/api/generate"; "llama3"] 3;
      CounterAdd tokensOut ["/api/generate"; "llama3"] 10;
      ClientWrite Sample.stats_body;
      CounterInc reqTotal ["/api/generate"; "llama3"; "200"; "false"];
      HistObserve reqDuration ["/api/generate"; "llama3"; "false"] 1500000;
      CloseResponseBody; CloseRequestBody]).
Proof. vm_compute. reflexivity. Qed.

(** Scenario B, with the 56 bytes of a statistics body for the 500 bytes:
    the bytes are counted and the token counters are not touched. *)
Example scenario_B :
  let w := Sample.world (Sample.answer 200 (Sample.reader Sample.stats_body))
             None in
  let r := Sample.generate (Sample.reader Sample.streaming_body) in
  on_metric bytesOut (events w r)
  = [CounterAdd bytesOut ["/api/generate"; "llama3"; "true"] 56] /\
  bytes_written (events w r) = 56 /\
  on_metric tokensIn (events w r) = [] /\
  on_metric tokensOut (events w r) = [].
Proof. vm_compute. intuition. Qed.

(** Scenario D: an empty body is labelled unknown and streaming, and is
    proxied. *)
Example scenario_D :
  let w := Sample.world (Sample.answer 200 (Sample.reader "ok")) None in
  let r := Sample.generate (Sample.reader EmptyString) in
  model_of EmptyString = "unknown" /\ stream_of EmptyString = true /\
  upstream_calls (events w r) = 1%nat /\
  on_metric reqTotal (events w r)
  = [CounterInc reqTotal ["/api/generate"; "unknown"; "200"; "true"]].
Proof. vm_compute. intuition. Qed.

(** A path that is not valid UTF-8 stops the handler at its first metric. *)
Example invalid_path_panics :
  let r := {| Method := "GET";
              URL_Path := String.append "/api/" (String (byte_of 255) EmptyString);
              URL_RawQuery := EmptyString; Req_Header := []; Body := None |} in
  serve (Sample.world DoError None) r
  = (Panicked (Errorf "label value %q is not valid UTF-8" (URL_Path r)), []).
Proof. vm_compute. reflexivity. Qed.

(** ** Failure to read the inbound body *)

(** C8: when reading the inbound request body fails, the handler answers
    with status 400, makes no upstream call and makes no call on any of the
    six metrics. *)
Theorem unreadable_body_emits_nothing (w : World) (r : Request) (rd : Reader) :
  Body r = Some rd -> rd_fails rd = true ->
  ending w r = Returned /\
  status_sent (events w r) = Some 400 /\
  In (HttpError "failed to read request body" StatusBadRequest) (events w r) /\
  upstream_calls (events w r) = 0%nat /\
  metric_events (events w r) = [].
Proof.
  intros Hb Hf.
  assert (Hr : read_body r = None)
    by (unfold read_body; rewrite Hb, Hf; reflexivity).
  unfold ending, events. rewrite (serve_body_unreadable w r Hr).
  cbn. intuition.
Qed.

Lemma unreadable_body_emits_nothing_witness :
  let w := Sample.world DoError None in
  let r := Sample.generate (Sample.broken "{") in
  rd_fails (Sample.broken "{") = true /\
  ending w r = Returned /\
  status_sent (events w r) = Some 400 /\
  In (HttpError "failed to read request body" StatusBadRequest) (events w r) /\
  upstream_calls (events w r) = 0%nat /\
  metric_events (events w r) = [].
Proof.
  split; [reflexivity|].
  apply (unreadable_body_emits_nothing
           (Sample.world DoError None)
           (Sample.generate (Sample.broken "{"))
           (Sample.broken "{")); reflexivity.
Defined.

(** ** Failure of the upstream call *)

(** C5: when the upstream call fails with a transport error, the handler
    answers with status 502 and an error body, the message of [http.Error]
    and a newline as far as the client takes them; it increments
    requests_total once with status label 502 and the endpoint, model and
    stream labels of the request, observes request_duration_seconds once,
    calls the upstream once only, and does nothing of either relay mode,
    whatever the stream flag.  The upstream call is reached when the body was
    read, the path is a label that the metric vectors accept, and the
    upstream request could be built. *)
Theorem upstream_error_counts_502 (w : World) (r : Request) (b : string) :
  read_body r = Some b -> valid_label (URL_Path r) = true ->
  newRequest_fails w = false -> upstream w = DoError ->
  ending w r = Returned /\
  status_sent (events w r) = Some 502 /\
  In (HttpError "upstream error" StatusBadGateway) (events w r) /\
  on_metric reqTotal (events w r)
  = [CounterInc reqTotal [URL_Path r; model_of b; "502"; streamLabel_of b]] /\
  on_metric reqDuration (events w r)
  = [HistObserve reqDuration [URL_Path r; model_of b; streamLabel_of b]
       (elapsed w)] /\
  upstream_calls (events w r) = 1%nat /\
  on_metric bytesOut (events w r) = [] /\
  on_metric tokensIn (events w r) = [] /\
  on_metric tokensOut (events w r) = [] /\
  client_body (events w r)
  = fst (taken (client_takes w) (error_body "upstream error")).
Proof.
  intros Hb Hp Hn Hu. unfold ending, events.
  rewrite (serve_upstream_error w r b Hb Hp Hn Hu).
  unfold body_close. destruct (Body r); cbn;
    rewrite string_app_empty; intuition.
Qed.

Lemma upstream_error_counts_502_witness :
  let w := Sample.world DoError None in
  let r := Sample.generate (Sample.reader Sample.buffered_body) in
  status_sent (events w r) = Some 502 /\
  on_metric reqTotal (events w r)
  = [CounterInc reqTotal ["/api/generate"; "llama3"; "502"; "false"]] /\
  upstream_calls (events w r) = 1%nat /\
  client_body (events w r) = error_body "upstream error".
Proof.
  destruct (upstream_error_counts_502
              (Sample.world DoError None)
              (Sample.generate (Sample.reader Sample.buffered_body))
              Sample.buffered_body eq_refl eq_refl eq_refl eq_refl)
    as (_ & Hs & _ & Ht & _ & Hc & _ & _ & _ & Hw).
  split; [exact Hs|]. split; [exact Ht|]. split; [exact Hc | exact Hw].
Defined.

(** ** Which branches count the request *)

Lemma valid_status_dec (code : Z) : {valid_status code} + {~ valid_status code}.
Proof.
  unfold valid_status.
  destruct (Z_le_dec 100 code), (Z_le_dec code 999); (left; lia) || (right; lia).
Defined.

Lemma nonneg_dec (o : option Z) : {nonneg o} + {~ nonneg o}.
Proof.
  destruct o as [n|]; cbn; [apply Z_le_dec | left; exact I].
Defined.

(** The calls on [m] in a trace built by appending. *)
Lemma on_metric_app (m : metric) (l1 l2 : list event) :
  on_metric m (l1 ++ l2) = on_metric m l1 ++ on_metric m l2.
Proof. apply filter_app. Qed.

Lemma on_metric_cons (m : metric) (e : event) (l : list event) :
  on_metric m (e :: l) = (if is_on m e then [e] else []) ++ on_metric m l.
Proof. unfold on_metric. cbn. destruct (is_on m e); reflexivity. Qed.

Lemma on_metric_body_close (m : metric) (r : Request) :
  on_metric m (body_close r) = [].
Proof. unfold body_close. destruct (Body r); reflexivity. Qed.

Ltac split_trace :=
  repeat (rewrite on_metric_cons || rewrite on_metric_app);
  rewrite ?on_metric_body_close.

Lemma on_metric_token_adds_other (m : metric) (lvs : list string)
  (x : OllamaResponseMetrics) :
  m <> tokensIn -> m <> tokensOut -> on_metric m (token_adds lvs x) = [].
Proof.
  intros H1 H2. unfold token_adds.
  destruct (PromptEvalCount x), (EvalCount x), m; try reflexivity; congruence.
Qed.

(** Wherever the handler calls the upstream and is answered with an error,
    or with a status that [WriteHeader] accepts and, in buffered mode, a body
    that is read to its end and decodes to no negative token count,
    requests_total is incremented once and the duration is observed once,
    with the same endpoint, model and stream labels and with the status that
    was sent to the client. *)
Lemma counted_once (w : World) (r : Request) (b : string) :
  read_body r = Some b -> valid_label (URL_Path r) = true ->
  newRequest_fails w = false ->
  match upstream w with
  | DoError => True
  | DoResponse resp =>
    valid_status (StatusCode resp) /\
    (stream_of b = false ->
     rd_fails (Resp_Body resp) = false /\
     forall x,
       Unmarshal_OllamaResponseMetrics (rd_data (Resp_Body resp))
         OllamaResponseMetrics_zero = (x, false) ->
       nonneg (PromptEvalCount x) /\ nonneg (EvalCount x))
  end ->
  exists code,
    status_sent (events w r) = Some code /\
    on_metric reqTotal (events w r)
    = [CounterInc reqTotal
         [URL_Path r; model_of b; Itoa code; streamLabel_of b]] /\
    on_metric reqDuration (events w r)
    = [HistObserve reqDuration [URL_Path r; model_of b; streamLabel_of b]
         (elapsed w)].
Proof.
  intros Hb Hp Hn Hu. unfold events.
  destruct (upstream w) as [|resp] eqn:Eu.
  - exists 502. rewrite (serve_upstream_error w r b Hb Hp Hn Eu).
    unfold body_close. destruct (Body r); cbn; intuition.
  - destruct Hu as [Hs Hbuf].
    exists (StatusCode resp).
    destruct (stream_of b) eqn:Es.
    + rewrite (serve_streaming w r b Hb Hp Hn resp Eu Hs Es).
      destruct (taken _ _) as [q werr].
      destruct (werr || _); unfold body_close; destruct (Body r); cbn;
        intuition.
    + destruct (Hbuf eq_refl) as [Hr Hx].
      destruct (Unmarshal_OllamaResponseMetrics (rd_data (Resp_Body resp))
                  OllamaResponseMetrics_zero) as [x uerr] eqn:Ex.
      destruct uerr.
      * rewrite (serve_buffered_undecoded w r b Hb Hp Hn resp Eu Hs Es Hr x Ex).
        destruct (taken _ _) as [q werr].
        destruct werr; unfold body_close; destruct (Body r); cbn; intuition.
      * destruct (Hx x eq_refl) as [Hpc Hec].
        rewrite (serve_buffered_decoded w r b Hb Hp Hn resp Eu Hs Es Hr x Ex
                   Hpc Hec).
        destruct (taken _ _) as [q werr].
        cbn [snd app status_sent].
        split; [reflexivity|].
        split_trace.
        rewrite !on_metric_token_adds_other by discriminate.
        destruct werr; cbn; intuition.
Qed.

(** C1: in buffered mode, when the upstream answers and the read of its
    body then fails, the handler has sent the upstream status to the client
    and returns; requests_total is not incremented and
    request_duration_seconds is not observed.  This branch terminates
    without the counter and histogram calls that every other relay branch
    makes. *)
Theorem unread_upstream_body_not_counted
  (w : World) (r : Request) (b : string) (resp : Response) :
  read_body r = Some b -> valid_label (URL_Path r) = true ->
  newRequest_fails w = false ->
  upstream w = DoResponse resp -> valid_status (StatusCode resp) ->
  stream_of b = false -> rd_fails (Resp_Body resp) = true ->
  ending w r = Returned /\
  status_sent (events w r) = Some (StatusCode resp) /\
  upstream_calls (events w r) = 1%nat /\
  on_metric reqTotal (events w r) = [] /\
  on_metric reqDuration (events w r) = [].
Proof.
  intros Hb Hp Hn Hu Hs Es Hf. unfold ending, events.
  rewrite (serve_buffered_read_error w r b Hb Hp Hn resp Hu Hs Es Hf).
  unfold body_close. destruct (Body r); cbn; intuition.
Qed.

Lemma unread_upstream_body_not_counted_witness :
  let w := Sample.world (Sample.answer 200 (Sample.broken "{")) None in
  let r := Sample.generate (Sample.reader Sample.buffered_body) in
  ending w r = Returned /\
  status_sent (events w r) = Some 200 /\
  upstream_calls (events w r) = 1%nat /\
  on_metric reqTotal (events w r) = [] /\
  on_metric reqDuration (events w r) = [].
Proof.
  apply (unread_upstream_body_not_counted
           (Sample.world (Sample.answer 200 (Sample.broken "{")) None)
           (Sample.generate (Sample.reader Sample.buffered_body))
           Sample.buffered_body
           {| StatusCode := 200;
              Resp_Header := [("Content-Type", ["application/json"])];
              Resp_Body := Sample.broken "{" |});
    try reflexivity.
  unfold valid_status; cbn; lia.
Defined.

(** ** Streaming mode and the token counters *)

(** C7: in streaming mode the handler makes no call on prompt_tokens_total
    or completion_tokens_total, whatever the upstream returns (an error, any
    status, any body) and however the copy to the client ends. *)
Theorem streaming_leaves_token_counters
  (w : World) (r : Request) (b : string) :
  read_body r = Some b -> stream_of b = true ->
  on_metric tokensIn (events w r) = [] /\
  on_metric tokensOut (events w r) = [].
Proof.
  intros Hb Es. unfold events.
  destruct (valid_label (URL_Path r)) eqn:Hp.
  2:{ rewrite (serve_invalid_path w r b Hb Hp). cbn [snd].
      rewrite !on_metric_body_close. split; reflexivity. }
  destruct (newRequest_fails w) eqn:Hn.
  { rewrite (serve_newRequest_fails w r b Hb Hp Hn).
    unfold body_close. destruct (Body r); cbn; intuition. }
  destruct (upstream w) as [|resp] eqn:Eu.
  { rewrite (serve_upstream_error w r b Hb Hp Hn Eu).
    unfold body_close. destruct (Body r); cbn; intuition. }
  destruct (valid_status_dec (StatusCode resp)) as [Hs | Hs].
  - rewrite (serve_streaming w r b Hb Hp Hn resp Eu Hs Es).
    destruct (taken _ _) as [q werr].
    destruct (werr || _); unfold body_close; destruct (Body r); cbn; intuition.
  - rewrite (serve_invalid_status w r b Hb Hp Hn resp Eu Hs).
    unfold body_close. destruct (Body r); cbn; intuition.
Qed.

(** A streamed answer that carries token statistics, cut short by the
    client after 20 bytes. *)
Lemma streaming_leaves_token_counters_witness :
  let w := Sample.world (Sample.answer 200 (Sample.broken Sample.stats_body))
             (Some 20%nat) in
  let r := Sample.generate (Sample.reader Sample.streaming_body) in
  stream_of Sample.streaming_body = true /\
  on_metric tokensIn (events w r) = [] /\
  on_metric tokensOut (events w r) = [].
Proof.
  split; [reflexivity|].
  apply (streaming_leaves_token_counters
           (Sample.world (Sample.answer 200 (Sample.broken Sample.stats_body))
              (Some 20%nat))
           (Sample.generate (Sample.reader Sample.streaming_body))
           Sample.streaming_body); reflexivity.
Defined.

(** ** The bytes sent out *)

Lemma taken_all (limit : option nat) (p q : string) :
  taken limit p = (q, false) -> q = p.
Proof.
  unfold taken. destruct limit as [k|].
  - destruct (String.length p <=? k)%nat; intros [= <-]; reflexivity.
  - intros [= <-]. reflexivity.
Qed.

Lemma added_app (m : metric) (l1 l2 : list event) :
  added m (l1 ++ l2) = added m l1 + added m l2.
Proof.
  induction l1 as [|e l1 IH]; [reflexivity|].
  destruct e; cbn; rewrite IH; lia.
Qed.

Lemma bytes_written_app (l1 l2 : list event) :
  bytes_written (l1 ++ l2) = bytes_written l1 + bytes_written l2.
Proof.
  induction l1 as [|e l1 IH]; [reflexivity|].
  destruct e; cbn; rewrite IH; lia.
Qed.

Lemma added_body_close (m : metric) (r : Request) : added m (body_close r) = 0.
Proof. unfold body_close. destruct (Body r); reflexivity. Qed.

Lemma bytes_written_body_close (r : Request) : bytes_written (body_close r) = 0.
Proof. unfold body_close. destruct (Body r); reflexivity. Qed.

Lemma added_bytesOut_token_adds (lvs : list string) (x : OllamaResponseMetrics) :
  added bytesOut (token_adds lvs x) = 0.
Proof.
  unfold token_adds. destruct (PromptEvalCount x), (EvalCount x); reflexivity.
Qed.

Lemma bytes_written_token_adds (lvs : list string) (x : OllamaResponseMetrics) :
  bytes_written (token_adds lvs x) = 0.
Proof.
  unfold token_adds. destruct (PromptEvalCount x), (EvalCount x); reflexivity.
Qed.

(** In buffered mode a client that takes 3 of the 5 bytes of the body has
    5 bytes counted. *)
Example bytes_out_short_write :
  let w := Sample.world (Sample.answer 200 (Sample.reader "hello"))
             (Some 3%nat) in
  let r := Sample.generate (Sample.reader Sample.buffered_body) in
  added bytesOut (events w r) = 5 /\ bytes_written (events w r) = 3.
Proof. vm_compute. split; reflexivity. Qed.

(** The amount is not the number of bytes written for every request: a
    buffered body of 5 bytes of which the client takes 3. *)
Lemma bytes_out_is_not_bytes_written : ~ bytes_out_is_bytes_written.
Proof.
  intros H.
  specialize (H (Sample.world (Sample.answer 200 (Sample.reader "hello"))
                   (Some 3%nat))
                (Sample.generate (Sample.reader Sample.buffered_body))
                Sample.buffered_body
                {| StatusCode := 200;
                   Resp_Header := [("Content-Type", ["application/json"])];
                   Resp_Body := Sample.reader "hello" |}
                eq_refl eq_refl eq_refl eq_refl).
  assert (Hv : valid_status 200) by (unfold valid_status; lia).
  specialize (H Hv). vm_compute in H. discriminate H.
Qed.

(** The amounts in the two modes.  In streaming mode the amount added to
    response_bytes_out_total is the byte count returned by the copy
    converted to float64, that is the number of body bytes written to the
    client (exactly so up to 2^53 bytes), also when the copy ends in an
    error.  In buffered mode, when the upstream body is read to its end, the
    amount added is the length of the buffered body converted to float64,
    which is the number of bytes written when the handler returns and the
    client takes the whole body.  When the read of the upstream body fails
    nothing is added and nothing is written. *)
Lemma bytes_out_amount
  (w : World) (r : Request) (b : string) (resp : Response) :
  read_body r = Some b -> valid_label (URL_Path r) = true ->
  newRequest_fails w = false ->
  upstream w = DoResponse resp -> valid_status (StatusCode resp) ->
  (stream_of b = true ->
   added bytesOut (events w r) = float64_of_int (bytes_written (events w r)) /\
   (bytes_written (events w r) <= 2 ^ 53 ->
    added bytesOut (events w r) = bytes_written (events w r))) /\
  (stream_of b = false -> rd_fails (Resp_Body resp) = false ->
   added bytesOut (events w r)
   = float64_of_int (len (rd_data (Resp_Body resp))) /\
   (ending w r = Returned ->
    snd (taken (client_takes w) (rd_data (Resp_Body resp))) = false ->
    bytes_written (events w r) = len (rd_data (Resp_Body resp)))) /\
  (stream_of b = false -> rd_fails (Resp_Body resp) = true ->
   added bytesOut (events w r) = 0 /\ bytes_written (events w r) = 0).
Proof.
  intros Hb Hp Hn Hu Hs. unfold events, ending. split; [|split].
  - intros Es. rewrite (serve_streaming w r b Hb Hp Hn resp Hu Hs Es).
    destruct (taken _ _) as [q werr]. cbn [snd].
    rewrite !added_app, !bytes_written_app.
    rewrite added_body_close, bytes_written_body_close.
    assert (Hq := len_nonneg q).
    destruct (werr || _); cbn; rewrite ?Z.add_0_r;
      (split; [reflexivity | intros Hle; apply float64_of_int_exact; lia]).
  - intros Es Hr.
    destruct (Unmarshal_OllamaResponseMetrics (rd_data (Resp_Body resp))
                OllamaResponseMetrics_zero) as [x uerr] eqn:Ex.
    destruct uerr.
    + rewrite (serve_buffered_undecoded w r b Hb Hp Hn resp Hu Hs Es Hr x Ex).
      destruct (taken _ _) as [q werr] eqn:Et. cbn [fst snd].
      rewrite !added_app, added_body_close.
      rewrite !bytes_written_app, bytes_written_body_close.
      split; [destruct werr; cbn; lia|].
      intros _ ->. apply taken_all in Et. subst q. cbn. lia.
    + destruct (nonneg_dec (PromptEvalCount x)) as [Hpc | Hpc];
        [destruct (nonneg_dec (EvalCount x)) as [Hec | Hec]|].
      * rewrite (serve_buffered_decoded w r b Hb Hp Hn resp Hu Hs Es Hr x Ex
                   Hpc Hec).
        destruct (taken _ _) as [q werr] eqn:Et. cbn [fst snd].
        rewrite !added_app, added_body_close, added_bytesOut_token_adds.
        rewrite !bytes_written_app, bytes_written_body_close,
          bytes_written_token_adds.
        split; [destruct werr; cbn; lia|].
        intros _ ->. apply taken_all in Et. subst q. cbn. lia.
      * rewrite (serve_buffered_negative w r b Hb Hp Hn resp Hu Hs Es Hr x Ex)
          by tauto.
        cbn [fst snd]. rewrite !added_app, added_body_close.
        split; [|discriminate].
        unfold token_adds_before_panic.
        destruct (PromptEvalCount x) as [p|]; [destruct (p <? 0)|]; cbn; lia.
      * rewrite (serve_buffered_negative w r b Hb Hp Hn resp Hu Hs Es Hr x Ex)
          by tauto.
        cbn [fst snd]. rewrite !added_app, added_body_close.
        split; [|discriminate].
        unfold token_adds_before_panic.
        destruct (PromptEvalCount x) as [p|]; [destruct (p <? 0)|]; cbn; lia.
  - intros Es Hf.
    rewrite (serve_buffered_read_error w r b Hb Hp Hn resp Hu Hs Es Hf).
    cbn [snd]. rewrite !added_app, added_body_close.
    rewrite !bytes_written_app, bytes_written_body_close.
    split; reflexivity.
Qed.

(** A streamed body of 5 bytes of which the client takes 3. *)
Lemma bytes_out_amount_witness :
  let w := Sample.world (Sample.answer 200 (Sample.reader "hello"))
             (Some 3%nat) in
  let r := Sample.generate (Sample.reader Sample.streaming_body) in
  stream_of Sample.streaming_body = true /\
  added bytesOut (events w r) = 3 /\ bytes_written (events w r) = 3.
Proof.
  split; [reflexivity|].
  destruct (bytes_out_amount
              (Sample.world (Sample.answer 200 (Sample.reader "hello"))
                 (Some 3%nat))
              (Sample.generate (Sample.reader Sample.streaming_body))
              Sample.streaming_body
              {| StatusCode := 200;
                 Resp_Header := [("Content-Type", ["application/json"])];
                 Resp_Body := Sample.reader "hello" |}
              eq_refl eq_refl eq_refl eq_refl)
    as [Hs _].
  - unfold valid_status; cbn; lia.
  - destruct (Hs eq_refl) as [_ He].
    split; [|reflexivity].
    rewrite He; [reflexivity | vm_compute; discriminate].
Defined.

Lemma substring_length (k : nat) (p : string) :
  (k <= String.length p)%nat -> String.length (substring 0 k p) = k.
Proof.
  revert k. induction p as [|c p IH]; intros [|k] H; cbn in *;
    try reflexivity; try lia.
  rewrite IH by lia. reflexivity.
Qed.

Lemma taken_short (k : nat) (p : string) :
  (k < String.length p)%nat -> taken (Some k) p = (substring 0 k p, true).
Proof.
  intros H. unfold taken.
  destruct (Nat.leb_spec (String.length p) k); [lia | reflexivity].
Qed.

(** C2: in buffered mode the amount added to response_bytes_out_total is
    the length of the upstream body, not the number of bytes that the
    client took.  When the write to the client stops after [k] bytes, short
    of the body, the handler returns with the whole length added, before
    the write, and with [k] bytes written: the counter is ahead of the bytes
    sent, by the bytes that were never written. *)
Theorem buffered_short_write_overcounted
  (w : World) (r : Request) (b : string) (resp : Response) (k : nat) :
  read_body r = Some b -> valid_label (URL_Path r) = true ->
  newRequest_fails w = false ->
  upstream w = DoResponse resp -> valid_status (StatusCode resp) ->
  stream_of b = false -> rd_fails (Resp_Body resp) = false ->
  counts_nonneg (rd_data (Resp_Body resp)) ->
  client_takes w = Some k ->
  (k < String.length (rd_data (Resp_Body resp)))%nat ->
  let body := rd_data (Resp_Body resp) in
  let counted :=
    CounterAdd bytesOut [URL_Path r; model_of b; streamLabel_of b]
      (float64_of_int (len body)) in
  ending w r = Returned /\
  on_metric bytesOut (events w r) = [counted] /\
  (exists pre mid post,
     events w r
     = pre ++ [counted] ++ mid ++ [ClientWrite (substring 0 k body)] ++ post) /\
  bytes_written (events w r) = Z.of_nat k /\
  (len body <= 2 ^ 53 ->
   added bytesOut (events w r) = len body /\
   bytes_written (events w r) < added bytesOut (events w r)).
Proof.
  intros Hb Hp Hn Hu Hs Es Hr Hc Hk Hlt body counted. subst body counted.
  assert (Et := taken_short k _ Hlt).
  assert (Hl : len (substring 0 k (rd_data (Resp_Body resp))) = Z.of_nat k)
    by (unfold len; rewrite substring_length by lia; reflexivity).
  assert (Hlen : Z.of_nat k < len (rd_data (Resp_Body resp)))
    by (unfold len; lia).
  unfold counts_nonneg in Hc. unfold ending, events.
  destruct (Unmarshal_OllamaResponseMetrics (rd_data (Resp_Body resp))
              OllamaResponseMetrics_zero) as [x uerr] eqn:Ex.
  destruct uerr.
  - rewrite (serve_buffered_undecoded w r b Hb Hp Hn resp Hu Hs Es Hr x Ex).
    rewrite Hk, Et. cbn [fst snd].
    split; [reflexivity|].
    split; [unfold body_close; destruct (Body r); reflexivity|].
    split; [eexists [_; _; _; _], [], _; reflexivity|].
    rewrite !bytes_written_app, !added_app, bytes_written_body_close,
      added_body_close.
    cbn. rewrite Hl.
    split; [lia|]. intros Hle. rewrite float64_of_int_exact by lia. lia.
  - destruct Hc as [Hc | [Hpc Hec]]; [discriminate Hc|].
    rewrite (serve_buffered_decoded w r b Hb Hp Hn resp Hu Hs Es Hr x Ex
               Hpc Hec).
    rewrite Hk, Et. cbn [fst snd].
    split; [reflexivity|].
    split.
    { split_trace.
      rewrite (on_metric_token_adds_other bytesOut (labels2 r b) x)
        by discriminate.
      reflexivity. }
    split; [eexists [_; _; _; _], _, _; reflexivity|].
    rewrite !bytes_written_app, !added_app, bytes_written_body_close,
      added_body_close, bytes_written_token_adds, added_bytesOut_token_adds.
    cbn. rewrite Hl.
    split; [lia|]. intros Hle. rewrite float64_of_int_exact by lia. lia.
Qed.

(** A buffered body of 5 bytes of which the client takes 3: 5 are
    counted. *)
Lemma buffered_short_write_overcounted_witness :
  let w := Sample.world (Sample.answer 200 (Sample.reader "hello"))
             (Some 3%nat) in
  let r := Sample.generate (Sample.reader Sample.buffered_body) in
  ending w r = Returned /\
  on_metric bytesOut (events w r)
  = [CounterAdd bytesOut ["/api/generate"; "llama3"; "false"] 5] /\
  bytes_written (events w r) = 3 /\
  added bytesOut (events w r) = 5.
Proof.
  destruct (buffered_short_write_overcounted
              (Sample.world (Sample.answer 200 (Sample.reader "hello"))
                 (Some 3%nat))
              (Sample.generate (Sample.reader Sample.buffered_body))
              Sample.buffered_body
              {| StatusCode := 200;
                 Resp_Header := [("Content-Type", ["application/json"])];
                 Resp_Body := Sample.reader "hello" |}
              3%nat eq_refl eq_refl eq_refl eq_refl)
    as (He & Hm & _ & Hw & Ha); try reflexivity.
  - unfold valid_status; cbn; lia.
  - left. reflexivity.
  - cbn. lia.
  - split; [exact He|]. split; [exact Hm|]. split; [exact Hw|].
    apply Ha. vm_compute. discriminate.
Defined.

(** ** What the decoder leaves in the structs *)

Lemma fold_names_differ (n1 n2 k : string) :
  str (Decoder.foldName (bytes n1)) <> str (Decoder.foldName (bytes n2)) ->
  Decoder.field_matches n1 k = true -> Decoder.field_matches n2 k = false.
Proof.
  unfold Decoder.field_matches. intros Hd H1.
  assert (F1 : str (Decoder.foldName (bytes k))
               = str (Decoder.foldName (bytes n1))).
  { apply orb_true_iff in H1. destruct H1 as [H1 | H1].
    - apply String.eqb_eq in H1. subst k. reflexivity.
    - apply String.eqb_eq in H1. exact H1. }
  apply orb_false_iff. split.
  - apply String.eqb_neq. intros ->. apply Hd. symmetry. exact F1.
  - apply String.eqb_neq. rewrite F1. exact Hd.
Qed.

Lemma model_not_stream (k : string) :
  Decoder.field_matches "model" k = true ->
  Decoder.field_matches "stream" k = false.
Proof. apply fold_names_differ. vm_compute. discriminate. Qed.

Lemma stream_not_model (k : string) :
  Decoder.field_matches "stream" k = true ->
  Decoder.field_matches "model" k = false.
Proof. apply fold_names_differ. vm_compute. discriminate. Qed.

Lemma eval_not_prompt (k : string) :
  Decoder.field_matches "eval_count" k = true ->
  Decoder.field_matches "prompt_eval_count" k = false.
Proof. apply fold_names_differ. vm_compute. discriminate. Qed.

(** [Model] after the members [ms] are stored. *)
Lemma Model_stored (ms : list (string * value)) (p : RequestPayload) (e : bool) :
  Model (fst (fold_left store_RequestPayload ms (p, e)))
  = match last_string "model" ms with
    | Some s => s
    | None => Model p
    end.
Proof.
  revert p e. induction ms as [|[k v] t IH]; intros p e; [reflexivity|].
  cbn [fold_left last_string].
  destruct (store_RequestPayload (p, e) (k, v)) as [p' e'] eqn:Es.
  rewrite IH. destruct (last_string "model" t) as [s|]; [reflexivity|].
  unfold store_RequestPayload in Es. unfold for_field. cbn [fst snd].
  destruct (Decoder.field_matches "model" k).
  - destruct v; cbn in Es; inversion Es; reflexivity.
  - destruct (Decoder.field_matches "stream" k).
    + destruct (Decoder.store_bool_ptr v (Stream p)).
      inversion Es. reflexivity.
    + inversion Es. reflexivity.
Qed.

Lemma Model_payload_of (body : string) :
  Model (payload_of body)
  = match body_model_string body with
    | Some s => s
    | None => EmptyString
    end.
Proof.
  unfold payload_of, Unmarshal_RequestPayload, body_model_string, members_of.
  destruct (parse body) as [[| | | | |ms]|]; try reflexivity.
  apply Model_stored.
Qed.

(** ** The model label *)

(** C3, amended: the extracted model is the string of the body's last model
    member that holds a string (keys compared without regard to letter
    case), unless that string is empty; it is unknown when the body is
    absent, is not valid JSON, is not an object, has no model member holding
    a string, or that string is empty.  So the model is unknown exactly when
    there is no such string or the string is empty or is itself unknown. *)
Theorem model_extraction (body : string) :
  model_of body
  = match body_model_string body with
    | Some s => if String.eqb s EmptyString then "unknown" else s
    | None => "unknown"
    end
  /\ (model_of body = "unknown" <->
      body_model_string body = None
      \/ body_model_string body = Some EmptyString
      \/ body_model_string body = Some "unknown").
Proof.
  assert (E : model_of body
              = match body_model_string body with
                | Some s => if String.eqb s EmptyString then "unknown" else s
                | None => "unknown"
                end).
  { unfold model_of. rewrite Model_payload_of.
    destruct (body_model_string body); reflexivity. }
  split; [exact E|]. rewrite E. clear E.
  destruct (body_model_string body) as [s|]; [|intuition].
  destruct (String.eqb_spec s EmptyString) as [Hs | Hs].
  - subst s. intuition.
  - split.
    + intros Hu. subst s. intuition.
    + intros [H | [H | H]]; try discriminate; inversion H; subst s;
        [contradiction | reflexivity].
Qed.

(** C3 fails as worded: a body whose model field is the empty string has a
    string model field, and its model is unknown. *)
Lemma model_unknown_with_string_field : ~ model_unknown_iff_no_string_field.
Proof.
  intros H.
  destruct (H (Sample.obj [("model", quoted EmptyString)])) as [_ Hv].
  specialize (Hv EmptyString).
  assert (Hm : has_member "model" (Sample.obj [("model", quoted EmptyString)])
                 (JString EmptyString)).
  { exists [("model", JString EmptyString)].
    split; [reflexivity | left; reflexivity]. }
  specialize (Hv Hm). vm_compute in Hv. discriminate Hv.
Qed.

(** Bodies of each kind. *)
Example model_of_samples :
  model_of (Sample.obj [("model", quoted "llama3")]) = "llama3" /\
  model_of (Sample.obj [("MODEL", quoted "llama3")]) = "llama3" /\
  model_of (Sample.obj [("model", quoted "a"); ("model", "7")]) = "a" /\
  model_of (Sample.obj [("model", quoted EmptyString)]) = "unknown" /\
  model_of (Sample.obj [("model", "7")]) = "unknown" /\
  model_of "[1,2]" = "unknown" /\
  model_of "{" = "unknown".
Proof. vm_compute. intuition. Qed.

(** ** The stream flag *)

(** [Stream] after the members [ms] are stored: the last member for the
    field decides when it is null or a boolean; when it is anything else the
    pointer is left allocated. *)
Lemma Stream_stored (ms : list (string * value)) (p : RequestPayload) (e : bool) :
  let s := Stream (fst (fold_left store_RequestPayload ms (p, e))) in
  match last_member "stream" ms with
  | None => s = Stream p
  | Some JNull => s = None
  | Some (JBool v) => s = Some v
  | Some _ => exists c, s = Some c
  end.
Proof.
  revert p e. induction ms as [|[k v] t IH]; intros p e; [reflexivity|].
  cbn [fold_left last_member].
  destruct (store_RequestPayload (p, e) (k, v)) as [p' e'] eqn:Es.
  specialize (IH p' e'). cbn zeta in IH |- *.
  destruct (last_member "stream" t) as [v'|]; [exact IH|].
  rewrite IH. unfold store_RequestPayload in Es. unfold for_field. cbn [fst snd].
  destruct (Decoder.field_matches "stream" k) eqn:Ek.
  - rewrite (stream_not_model k Ek) in Es.
    destruct v; cbn in Es; inversion Es; cbn; eauto.
  - destruct (Decoder.field_matches "model" k).
    + destruct (Decoder.store_string v (Model p)). inversion Es. reflexivity.
    + inversion Es. reflexivity.
Qed.

(** The parts of C6 that hold on the code: without a stream member, or with
    a last stream member that is null, the flag is true; with a last stream
    member that is a boolean, the flag is that boolean. *)
Lemma stream_extraction (body : string) :
  match last_member "stream" (members_of body) with
  | None | Some JNull => stream_of body = true
  | Some (JBool v) => stream_of body = v
  | Some _ => True
  end.
Proof.
  unfold stream_of, payload_of, Unmarshal_RequestPayload, members_of.
  destruct (parse body) as [[| | | | |ms]|]; try reflexivity.
  pose proof (Stream_stored ms RequestPayload_zero false) as H.
  cbn zeta in H.
  destruct (last_member "stream" ms) as [[| | | | |]|]; try exact I;
    rewrite H; reflexivity.
Qed.

(** C6: a body whose stream field is a string.  The decoder allocates the
    [*bool] before it rejects the string, the handler ignores the error of
    [json.Unmarshal], and the flag is false: the request is relayed in
    buffered mode and labelled stream=false, where a wrongly typed field is
    meant to leave the default true. *)
Theorem wrong_typed_stream_is_buffered :
  let body := Sample.obj [("model", quoted "llama3"); ("stream", quoted "yes")] in
  Unmarshal_RequestPayload body RequestPayload_zero
  = ({| Model := "llama3"; Stream := Some false |}, true) /\
  stream_of body = false /\
  on_metric reqTotal
    (events (Sample.world (Sample.answer 200 (Sample.reader "{}")) None)
            (Sample.generate (Sample.reader body)))
  = [CounterInc reqTotal ["/api/generate"; "llama3"; "200"; "false"]].
Proof. vm_compute. intuition. Qed.

(** Bodies of each kind. *)
Example stream_of_samples :
  stream_of EmptyString = true /\
  stream_of "{" = true /\
  stream_of (Sample.obj [("model", quoted "llama3")]) = true /\
  stream_of (Sample.obj [("stream", "false")]) = false /\
  stream_of (Sample.obj [("stream", "true")]) = true /\
  stream_of (Sample.obj [("Stream", "false")]) = false /\
  stream_of (Sample.obj [("stream", "null")]) = true /\
  stream_of (Sample.obj [("stream", "0")]) = false /\
  stream_of (Sample.obj [("stream", "[]")]) = false /\
  stream_of (Sample.obj [("stream", "true"); ("stream", quoted "no")]) = true.
Proof. vm_compute. intuition. Qed.

(** ** The token counters *)

(** The struct after the members of a well-typed body are stored: each
    field holds the count of its last member, and no error is saved. *)
Lemma stats_stored (ms : list (string * value))
  (m : OllamaResponseMetrics) (e : bool) :
  stats_well_typed ms ->
  fold_left store_OllamaResponseMetrics ms (m, e)
  = ({| EvalCount := int_of (last_member "eval_count" ms) (EvalCount m);
        PromptEvalCount :=
          int_of (last_member "prompt_eval_count" ms) (PromptEvalCount m) |},
     e).
Proof.
  revert m e. induction ms as [|[k v] t IH]; intros m e Hwt.
  { destruct m. reflexivity. }
  assert (Ht : stats_well_typed t).
  { intros kv Hin. apply Hwt. right. exact Hin. }
  specialize (Hwt (k, v) (or_introl eq_refl)).
  cbn [fold_left last_member]. unfold for_field in *. cbn [fst snd] in *.
  unfold store_OllamaResponseMetrics at 2.
  destruct (Decoder.field_matches "eval_count" k) eqn:Ee.
  - rewrite (eval_not_prompt k Ee).
    destruct (Hwt eq_refl) as [-> | (lit & n & -> & Hn)]; cbn;
      rewrite ?Hn, ?orb_false_r, (IH _ _ Ht); cbn;
      destruct (last_member "eval_count" t);
      destruct (last_member "prompt_eval_count" t);
      cbn; rewrite ?Hn; reflexivity.
  - destruct (Decoder.field_matches "prompt_eval_count" k) eqn:Ep.
    + destruct (Hwt eq_refl) as [-> | (lit & n & -> & Hn)]; cbn;
        rewrite ?Hn, ?orb_false_r, (IH _ _ Ht); cbn;
        destruct (last_member "eval_count" t);
        destruct (last_member "prompt_eval_count" t);
        cbn; rewrite ?Hn; reflexivity.
    + rewrite (IH _ _ Ht).
      destruct (last_member "eval_count" t);
        destruct (last_member "prompt_eval_count" t); reflexivity.
Qed.

Lemma on_metric_token_adds (lvs : list string) (x : OllamaResponseMetrics) :
  on_metric tokensIn (token_adds lvs x)
  = match PromptEvalCount x with
    | Some p => [CounterAdd tokensIn lvs (float64_of_int p)]
    | None => []
    end
  /\ on_metric tokensOut (token_adds lvs x)
     = match EvalCount x with
       | Some e => [CounterAdd tokensOut lvs (float64_of_int e)]
       | None => []
       end.
Proof.
  unfold token_adds.
  destruct (PromptEvalCount x), (EvalCount x); split; reflexivity.
Qed.

(** The token calls of a buffered relay, from what [json.Unmarshal] leaves
    in the struct and whether it returns an error. *)
Lemma token_calls_of_decoded
  (w : World) (r : Request) (b : string) (resp : Response)
  (x : OllamaResponseMetrics) (uerr : bool) :
  read_body r = Some b -> valid_label (URL_Path r) = true ->
  newRequest_fails w = false ->
  upstream w = DoResponse resp -> valid_status (StatusCode resp) ->
  stream_of b = false -> rd_fails (Resp_Body resp) = false ->
  Unmarshal_OllamaResponseMetrics (rd_data (Resp_Body resp))
    OllamaResponseMetrics_zero = (x, uerr) ->
  (uerr = true ->
   on_metric tokensIn (events w r) = [] /\
   on_metric tokensOut (events w r) = []) /\
  (uerr = false -> nonneg (PromptEvalCount x) -> nonneg (EvalCount x) ->
   on_metric tokensIn (events w r)
   = match PromptEvalCount x with
     | Some p =>
       [CounterAdd tokensIn [URL_Path r; model_of b] (float64_of_int p)]
     | None => []
     end /\
   on_metric tokensOut (events w r)
   = match EvalCount x with
     | Some e =>
       [CounterAdd tokensOut [URL_Path r; model_of b] (float64_of_int e)]
     | None => []
     end).
Proof.
  intros Hb Hp Hn Hu Hs Es Hr Ex. unfold events. split.
  - intros ->.
    rewrite (serve_buffered_undecoded w r b Hb Hp Hn resp Hu Hs Es Hr x Ex).
    destruct (taken _ _) as [q werr].
    destruct werr; unfold body_close; destruct (Body r); cbn; intuition.
  - intros -> Hpc Hec.
    rewrite (serve_buffered_decoded w r b Hb Hp Hn resp Hu Hs Es Hr x Ex
               Hpc Hec).
    destruct (taken _ _) as [q werr]. cbn [snd app].
    split_trace.
    destruct (on_metric_token_adds (labels2 r b) x) as [-> ->].
    destruct werr; cbn; rewrite !app_nil_r; split; reflexivity.
Qed.

(** An error, once saved, is returned. *)
Lemma stats_error_kept (ms : list (string * value)) (m : OllamaResponseMetrics) :
  snd (fold_left store_OllamaResponseMetrics ms (m, true)) = true.
Proof.
  revert m. induction ms as [|[k v] t IH]; intros m; [reflexivity|].
  cbn [fold_left]. unfold store_OllamaResponseMetrics at 2.
  destruct (Decoder.field_matches "eval_count" k).
  - destruct (Decoder.store_int64_ptr v (EvalCount m)). apply IH.
  - destruct (Decoder.field_matches "prompt_eval_count" k).
    + destruct (Decoder.store_int64_ptr v (PromptEvalCount m)). apply IH.
    + apply IH.
Qed.

Lemma int_or_null_dec (v : value) : {int_or_null v} + {~ int_or_null v}.
Proof.
  unfold int_or_null. destruct v as [| | lit | | |];
    try (left; left; reflexivity);
    try (right; intros [H | (l & n & H & _)]; discriminate H).
  destruct (ParseInt64 lit) as [n|] eqn:E.
  - left. right. exists lit, n. split; [reflexivity | exact E].
  - right. intros [H | (l & n & H & Hn)]; [discriminate H|].
    injection H as <-. congruence.
Defined.

Lemma store_int64_ptr_error (v : value) (cur : option Z) :
  ~ int_or_null v -> snd (Decoder.store_int64_ptr v cur) = true.
Proof.
  unfold int_or_null. intros H. destruct v as [| | lit | | |]; try reflexivity.
  - exfalso. apply H. left. reflexivity.
  - cbn. destruct (ParseInt64 lit) as [n|] eqn:E; [|reflexivity].
    exfalso. apply H. right. exists lit, n. split; [reflexivity | exact E].
Qed.

(** A member for a token field that is neither null nor an integer within
    int64 makes [json.Unmarshal] return an error. *)
Lemma stats_ill_typed (ms : list (string * value))
  (m : OllamaResponseMetrics) (e : bool) :
  ~ stats_well_typed ms ->
  snd (fold_left store_OllamaResponseMetrics ms (m, e)) = true.
Proof.
  revert m e. induction ms as [|[k v] t IH]; intros m e Hwt.
  { exfalso. apply Hwt. intros kv []. }
  cbn [fold_left].
  destruct (for_field "eval_count" (k, v)
            || for_field "prompt_eval_count" (k, v)) eqn:Ef;
    [destruct (int_or_null_dec v) as [Hv | Hv]|].
  - destruct (store_OllamaResponseMetrics (m, e) (k, v)) as [m' e'].
    apply IH. intros Ht. apply Hwt. intros kv [<- | Hin]; intros Hf.
    + exact Hv.
    + exact (Ht kv Hin Hf).
  - unfold for_field in Ef. cbn [fst] in Ef.
    unfold store_OllamaResponseMetrics at 2.
    destruct (Decoder.field_matches "eval_count" k).
    + assert (He := store_int64_ptr_error v (EvalCount m) Hv).
      destruct (Decoder.store_int64_ptr v (EvalCount m)) as [n e'].
      cbn in He. subst e'. rewrite orb_true_r. apply stats_error_kept.
    + cbn [orb] in Ef. rewrite Ef.
      assert (He := store_int64_ptr_error v (PromptEvalCount m) Hv).
      destruct (Decoder.store_int64_ptr v (PromptEvalCount m)) as [n e'].
      cbn in He. subst e'. rewrite orb_true_r. apply stats_error_kept.
  - destruct (store_OllamaResponseMetrics (m, e) (k, v)) as [m' e'].
    apply IH. intros Ht. apply Hwt. intros kv [<- | Hin]; intros Hf.
    + rewrite Ef in Hf. discriminate Hf.
    + exact (Ht kv Hin Hf).
Qed.

(** What [json.Unmarshal] gives for a body that is an object with
    well-typed token members. *)
Lemma stats_decoded (body : string) (ms : list (string * value)) :
  parse body = Some (JObject ms) -> stats_well_typed ms ->
  Unmarshal_OllamaResponseMetrics body OllamaResponseMetrics_zero
  = ({| EvalCount := int_of (last_member "eval_count" ms) None;
        PromptEvalCount := int_of (last_member "prompt_eval_count" ms) None |},
     false).
Proof.
  intros Hparse Hwt. unfold Unmarshal_OllamaResponseMetrics. rewrite Hparse.
  rewrite (stats_stored ms _ _ Hwt). reflexivity.
Qed.

(** C4, amended: in buffered mode, when the upstream body is read to its end
    and is a JSON object in which every prompt_eval_count and eval_count
    member (keys compared as the decoder compares them) is null or an
    integer within int64, and no such integer is negative,
    prompt_tokens_total is incremented once by the integer of the body's
    last prompt_eval_count member and completion_tokens_total once by the
    integer of its last eval_count member, converted to float64, under the
    labels endpoint and model; the counter of a field that is absent from
    the body, or null, is left alone.  When the body is no such object (it is
    not JSON, not an object, or a token member is not an integer), neither
    counter is touched, whatever integer the other field holds. *)
Theorem token_counters_buffered
  (w : World) (r : Request) (b : string) (resp : Response) :
  read_body r = Some b -> valid_label (URL_Path r) = true ->
  newRequest_fails w = false ->
  upstream w = DoResponse resp -> valid_status (StatusCode resp) ->
  stream_of b = false -> rd_fails (Resp_Body resp) = false ->
  let body := rd_data (Resp_Body resp) in
  (forall ms, parse body = Some (JObject ms) -> stats_well_typed ms ->
     let p := int_of (last_member "prompt_eval_count" ms) None in
     let e := int_of (last_member "eval_count" ms) None in
     nonneg p -> nonneg e ->
     on_metric tokensIn (events w r)
     = match p with
       | Some n =>
         [CounterAdd tokensIn [URL_Path r; model_of b] (float64_of_int n)]
       | None => []
       end /\
     on_metric tokensOut (events w r)
     = match e with
       | Some n =>
         [CounterAdd tokensOut [URL_Path r; model_of b] (float64_of_int n)]
       | None => []
       end) /\
  ((forall ms, parse body = Some (JObject ms) -> ~ stats_well_typed ms) ->
   on_metric tokensIn (events w r) = [] /\
   on_metric tokensOut (events w r) = []).
Proof.
  intros Hb Hp Hn Hu Hs Es Hr body. subst body. split.
  - intros ms Hparse Hwt p e Hpc Hec. subst p e.
    destruct (token_calls_of_decoded w r b resp _ _ Hb Hp Hn Hu Hs Es Hr
                (stats_decoded _ ms Hparse Hwt)) as [_ H].
    exact (H eq_refl Hpc Hec).
  - intros Hno.
    destruct (Unmarshal_OllamaResponseMetrics (rd_data (Resp_Body resp))
                OllamaResponseMetrics_zero) as [x uerr] eqn:Ex.
    destruct (token_calls_of_decoded w r b resp x uerr Hb Hp Hn Hu Hs Es Hr Ex)
      as [Herr Hok].
    unfold Unmarshal_OllamaResponseMetrics in Ex.
    destruct (parse (rd_data (Resp_Body resp))) as [[| | | | |ms]|] eqn:Hparse;
      try (injection Ex as <- <-; apply Herr; reflexivity).
    + injection Ex as <- <-. apply (Hok eq_refl); exact I.
    + apply Herr.
      assert (E := stats_ill_typed ms OllamaResponseMetrics_zero false
                     (Hno ms eq_refl)).
      rewrite Ex in E. exact E.
Qed.

(** Scenario A: 3 prompt tokens and 10 completion tokens; and the same body
    with 1.5 for eval_count, where nothing is counted. *)
Lemma token_counters_buffered_witness :
  (let w := Sample.world (Sample.answer 200 (Sample.reader Sample.stats_body))
              None in
   let r := Sample.generate (Sample.reader Sample.buffered_body) in
   on_metric tokensIn (events w r)
   = [CounterAdd tokensIn ["/api/generate"; "llama3"] 3] /\
   on_metric tokensOut (events w r)
   = [CounterAdd tokensOut ["/api/generate"; "llama3"] 10]) /\
  (let body := Sample.obj [("prompt_eval_count", "3"); ("eval_count", "1.5")] in
   let w := Sample.world (Sample.answer 200 (Sample.reader body)) None in
   let r := Sample.generate (Sample.reader Sample.buffered_body) in
   on_metric tokensIn (events w r) = [] /\
   on_metric tokensOut (events w r) = []).
Proof.
  assert (Hv : valid_status 200) by (unfold valid_status; lia).
  split.
  - destruct (token_counters_buffered
                (Sample.world
                   (Sample.answer 200 (Sample.reader Sample.stats_body)) None)
                (Sample.generate (Sample.reader Sample.buffered_body))
                Sample.buffered_body
                {| StatusCode := 200;
                   Resp_Header := [("Content-Type", ["application/json"])];
                   Resp_Body := Sample.reader Sample.stats_body |}
                eq_refl eq_refl eq_refl eq_refl Hv eq_refl eq_refl) as [H _].
    apply (H [("response", JString "..."); ("eval_count", JNumber "10");
              ("prompt_eval_count", JNumber "3")]).
    + reflexivity.
    + intros kv [<- | [<- | [<- | []]]]; cbn; intros Hf;
        try discriminate Hf; right; eexists; eexists; split; reflexivity.
    + cbn. lia.
    + cbn. lia.
  - destruct (token_counters_buffered
                (Sample.world
                   (Sample.answer 200
                      (Sample.reader
                         (Sample.obj [("prompt_eval_count", "3");
                                      ("eval_count", "1.5")]))) None)
                (Sample.generate (Sample.reader Sample.buffered_body))
                Sample.buffered_body
                {| StatusCode := 200;
                   Resp_Header := [("Content-Type", ["application/json"])];
                   Resp_Body :=
                     Sample.reader
                       (Sample.obj [("prompt_eval_count", "3");
                                    ("eval_count", "1.5")]) |}
                eq_refl eq_refl eq_refl eq_refl Hv eq_refl eq_refl) as [_ H].
    apply H. intros ms Hparse Hwt.
    vm_compute in Hparse. injection Hparse as <-.
    destruct (Hwt ("eval_count", JNumber "1.5")
                (or_intror (or_introl eq_refl)) eq_refl)
      as [Hnull | (lit & n & Hlit & Hn)]; [discriminate Hnull|].
    injection Hlit as <-. vm_compute in Hn. discriminate Hn.
Defined.

(** C4 fails as worded: an upstream body with the integer 3 for
    prompt_eval_count and the number 1.5 for eval_count.  [json.Unmarshal]
    returns an error and the handler skips both counters. *)
Lemma integer_field_not_counted : ~ tokens_follow_integer_fields.
Proof.
  intros H.
  pose (body := Sample.obj [("prompt_eval_count", "3"); ("eval_count", "1.5")]).
  assert (Hv : valid_status 200) by (unfold valid_status; lia).
  destruct (H (Sample.world (Sample.answer 200 (Sample.reader body)) None)
              (Sample.generate (Sample.reader Sample.buffered_body))
              Sample.buffered_body
              {| StatusCode := 200;
                 Resp_Header := [("Content-Type", ["application/json"])];
                 Resp_Body := Sample.reader body |}
              eq_refl eq_refl eq_refl eq_refl Hv eq_refl eq_refl) as [Hp _].
  specialize (Hp 3).
  assert (Hm : has_int_member "prompt_eval_count" body 3).
  { exists "3". split; [|reflexivity].
    exists [("prompt_eval_count", JNumber "3"); ("eval_count", JNumber "1.5")].
    split; [reflexivity | left; reflexivity]. }
  specialize (Hp Hm). vm_compute in Hp. discriminate Hp.
Qed.

(** ** The token counters and the upstream status *)

(** The calls on a token counter in a relayed request are read off the
    request body and the upstream body alone. *)
Lemma token_calls_of_relay (m : metric) (w : World) (r : Request) (b : string)
  (resp : Response) :
  m = tokensIn \/ m = tokensOut ->
  read_body r = Some b -> valid_label (URL_Path r) = true ->
  newRequest_fails w = false -> upstream w = DoResponse resp ->
  valid_status (StatusCode resp) ->
  on_metric m (events w r)
  = if stream_of b || rd_fails (Resp_Body resp) then []
    else
      let '(x, uerr) :=
        Unmarshal_OllamaResponseMetrics (rd_data (Resp_Body resp))
          OllamaResponseMetrics_zero in
      if uerr then []
      else if nonneg_dec (PromptEvalCount x) then
             if nonneg_dec (EvalCount x)
             then on_metric m (token_adds (labels2 r b) x)
             else on_metric m (token_adds_before_panic (labels2 r b) x)
           else on_metric m (token_adds_before_panic (labels2 r b) x).
Proof.
  intros Hm Hb Hp Hn Hu Hs. unfold events.
  destruct (stream_of b) eqn:Es.
  { rewrite (serve_streaming w r b Hb Hp Hn resp Hu Hs Es).
    destruct (taken _ _) as [q werr]. cbn [snd orb]. split_trace.
    destruct (werr || _); destruct Hm as [-> | ->]; reflexivity. }
  destruct (rd_fails (Resp_Body resp)) eqn:Hr.
  { rewrite (serve_buffered_read_error w r b Hb Hp Hn resp Hu Hs Es Hr).
    cbn [snd orb]. split_trace. destruct Hm as [-> | ->]; reflexivity. }
  cbn [orb].
  destruct (Unmarshal_OllamaResponseMetrics (rd_data (Resp_Body resp))
              OllamaResponseMetrics_zero) as [x uerr] eqn:Ex.
  destruct uerr.
  { rewrite (serve_buffered_undecoded w r b Hb Hp Hn resp Hu Hs Es Hr x Ex).
    destruct (taken _ _) as [q werr]. cbn [snd]. split_trace.
    destruct werr; destruct Hm as [-> | ->]; reflexivity. }
  destruct (nonneg_dec (PromptEvalCount x)) as [Hpc | Hpc];
    [destruct (nonneg_dec (EvalCount x)) as [Hec | Hec]|].
  - rewrite (serve_buffered_decoded w r b Hb Hp Hn resp Hu Hs Es Hr x Ex
               Hpc Hec).
    destruct (taken _ _) as [q werr]. cbn [snd]. split_trace.
    generalize (on_metric m (token_adds (labels2 r b) x)). intros l.
    destruct werr; destruct Hm as [-> | ->]; cbn; rewrite ?app_nil_r;
      reflexivity.
  - rewrite (serve_buffered_negative w r b Hb Hp Hn resp Hu Hs Es Hr x Ex)
      by tauto.
    cbn [snd]. split_trace.
    generalize (on_metric m (token_adds_before_panic (labels2 r b) x)).
    intros l. destruct Hm as [-> | ->]; cbn; rewrite ?app_nil_r; reflexivity.
  - rewrite (serve_buffered_negative w r b Hb Hp Hn resp Hu Hs Es Hr x Ex)
      by tauto.
    cbn [snd]. split_trace.
    generalize (on_metric m (token_adds_before_panic (labels2 r b) x)).
    intros l. destruct Hm as [-> | ->]; cbn; rewrite ?app_nil_r; reflexivity.
Qed.

(** The calls on the token counters do not depend on the status code of the
    upstream's answer. *)
Lemma token_calls_ignore_status (m : metric) (w : World) (r : Request)
  (c1 c2 : Z) :
  m = tokensIn \/ m = tokensOut ->
  valid_status c1 -> valid_status c2 ->
  on_metric m (events (with_status c1 w) r)
  = on_metric m (events (with_status c2 w) r).
Proof.
  intros Hm H1 H2.
  destruct (read_body r) as [b|] eqn:Hb.
  2:{ unfold events. rewrite !(serve_body_unreadable _ r Hb). reflexivity. }
  destruct (valid_label (URL_Path r)) eqn:Hp.
  2:{ unfold events. rewrite !(serve_invalid_path _ r b Hb Hp). reflexivity. }
  destruct (newRequest_fails w) eqn:Hn.
  { unfold events.
    rewrite (serve_newRequest_fails (with_status c1 w) r b Hb Hp Hn).
    rewrite (serve_newRequest_fails (with_status c2 w) r b Hb Hp Hn).
    reflexivity. }
  destruct (upstream w) as [|resp] eqn:Hu.
  { assert (E : forall c, upstream (with_status c w) = DoError)
      by (intros c; cbn; rewrite Hu; reflexivity).
    unfold events.
    rewrite (serve_upstream_error (with_status c1 w) r b Hb Hp Hn (E c1)).
    rewrite (serve_upstream_error (with_status c2 w) r b Hb Hp Hn (E c2)).
    reflexivity. }
  assert (E : forall c,
             upstream (with_status c w)
             = DoResponse {| StatusCode := c;
                             Resp_Header := Resp_Header resp;
                             Resp_Body := Resp_Body resp |})
    by (intros c; cbn; rewrite Hu; reflexivity).
  rewrite (token_calls_of_relay m (with_status c1 w) r b _ Hm Hb Hp Hn (E c1) H1).
  rewrite (token_calls_of_relay m (with_status c2 w) r b _ Hm Hb Hp Hn (E c2) H2).
  reflexivity.
Qed.

(** Not every integer is counted: status 500 with the integers -3 and 10.
    The first counter panics, and neither is incremented. *)
Lemma negative_count_at_500_not_counted : ~ tokens_counted_at_any_status.
Proof.
  intros H.
  pose (body := Sample.obj [("prompt_eval_count", "-3"); ("eval_count", "10")]).
  assert (Hv : valid_status 500) by (unfold valid_status; lia).
  destruct (H (Sample.world (Sample.answer 500 (Sample.reader body)) None)
              (Sample.generate (Sample.reader Sample.buffered_body))
              Sample.buffered_body
              {| StatusCode := 500;
                 Resp_Header := [("Content-Type", ["application/json"])];
                 Resp_Body := Sample.reader body |}
              (-3) 10
              eq_refl eq_refl eq_refl eq_refl Hv eq_refl eq_refl)
    as [[v Hin] _].
  - exists "-3". split; [|reflexivity].
    exists [("prompt_eval_count", JNumber "-3"); ("eval_count", JNumber "10")].
    split; [reflexivity | left; reflexivity].
  - exists "10". split; [|reflexivity].
    exists [("prompt_eval_count", JNumber "-3"); ("eval_count", JNumber "10")].
    split; [reflexivity | right; left; reflexivity].
  - vm_compute in Hin.
    repeat (destruct Hin as [Hin | Hin]; [discriminate Hin|]).
    exact Hin.
Qed.

(** In buffered mode, for every status code that the upstream can answer
    with, error statuses included, when the upstream body is a JSON object
    whose token members are well typed and whose last prompt_eval_count and
    eval_count members are integers that are not negative, both token
    counters are incremented once by those integers (converted to float64),
    and the request is counted under that status. *)
Lemma tokens_counted_at_any_status_nonneg
  (w : World) (r : Request) (b : string) (resp : Response)
  (ms : list (string * value)) (p e : Z) :
  read_body r = Some b -> valid_label (URL_Path r) = true ->
  newRequest_fails w = false ->
  upstream w = DoResponse resp -> valid_status (StatusCode resp) ->
  stream_of b = false -> rd_fails (Resp_Body resp) = false ->
  parse (rd_data (Resp_Body resp)) = Some (JObject ms) ->
  stats_well_typed ms ->
  int_of (last_member "prompt_eval_count" ms) None = Some p ->
  int_of (last_member "eval_count" ms) None = Some e ->
  0 <= p -> 0 <= e ->
  on_metric tokensIn (events w r)
  = [CounterAdd tokensIn [URL_Path r; model_of b] (float64_of_int p)] /\
  on_metric tokensOut (events w r)
  = [CounterAdd tokensOut [URL_Path r; model_of b] (float64_of_int e)] /\
  on_metric reqTotal (events w r)
  = [CounterInc reqTotal
       [URL_Path r; model_of b; Itoa (StatusCode resp); streamLabel_of b]].
Proof.
  intros Hb Hpath Hn Hu Hs Es Hr Hparse Hwt Hp He Hp0 He0.
  assert (Ex : Unmarshal_OllamaResponseMetrics (rd_data (Resp_Body resp))
                 OllamaResponseMetrics_zero
               = ({| EvalCount := Some e; PromptEvalCount := Some p |}, false)).
  { unfold Unmarshal_OllamaResponseMetrics. rewrite Hparse.
    rewrite (stats_stored ms _ _ Hwt). cbn [EvalCount PromptEvalCount
      OllamaResponseMetrics_zero]. rewrite Hp, He. reflexivity. }
  unfold events.
  rewrite (serve_buffered_decoded w r b Hb Hpath Hn resp Hu Hs Es Hr _ Ex
             Hp0 He0).
  destruct (taken _ _) as [q werr].
  destruct werr; unfold body_close; destruct (Body r); cbn; intuition.
Qed.

(** Status 404 with the statistics of scenario A. *)
Lemma tokens_counted_at_any_status_nonneg_witness :
  let w := Sample.world (Sample.answer 404 (Sample.reader Sample.stats_body))
             None in
  let r := Sample.generate (Sample.reader Sample.buffered_body) in
  on_metric tokensIn (events w r)
  = [CounterAdd tokensIn ["/api/generate"; "llama3"] 3] /\
  on_metric tokensOut (events w r)
  = [CounterAdd tokensOut ["/api/generate"; "llama3"] 10] /\
  on_metric reqTotal (events w r)
  = [CounterInc reqTotal ["/api/generate"; "llama3"; "404"; "false"]].
Proof.
  apply (tokens_counted_at_any_status_nonneg
           (Sample.world (Sample.answer 404 (Sample.reader Sample.stats_body))
              None)
           (Sample.generate (Sample.reader Sample.buffered_body))
           Sample.buffered_body
           {| StatusCode := 404;
              Resp_Header := [("Content-Type", ["application/json"])];
              Resp_Body := Sample.reader Sample.stats_body |}
           [("response", JString "..."); ("eval_count", JNumber "10");
            ("prompt_eval_count", JNumber "3")]
           3 10); try reflexivity; try lia.
  - unfold valid_status; cbn; lia.
  - intros kv [<- | [<- | [<- | []]]]; cbn; intros Hf;
      try discriminate Hf; right; eexists; eexists; split; reflexivity.
Defined.

(** C9: in buffered mode the token counters are handled alike at every
    status code that the upstream can answer with, error statuses included:
    for an upstream body that is a JSON object with well-typed token members
    and integers [p] and [e] as its last prompt_eval_count and eval_count
    members, both counters are incremented by them, and the request is
    counted under the status, when neither is negative.  When one is
    negative, at whatever status, [Counter.Add] panics: the counter of the
    negative integer is not incremented, the other one only where it came
    first, and the request is not counted. *)
Theorem tokens_at_any_status
  (w : World) (r : Request) (b : string) (resp : Response)
  (ms : list (string * value)) (p e : Z) :
  read_body r = Some b -> valid_label (URL_Path r) = true ->
  newRequest_fails w = false ->
  upstream w = DoResponse resp -> valid_status (StatusCode resp) ->
  stream_of b = false -> rd_fails (Resp_Body resp) = false ->
  parse (rd_data (Resp_Body resp)) = Some (JObject ms) ->
  stats_well_typed ms ->
  int_of (last_member "prompt_eval_count" ms) None = Some p ->
  int_of (last_member "eval_count" ms) None = Some e ->
  status_sent (events w r) = Some (StatusCode resp) /\
  (0 <= p -> 0 <= e ->
   ending w r = Returned /\
   on_metric tokensIn (events w r)
   = [CounterAdd tokensIn [URL_Path r; model_of b] (float64_of_int p)] /\
   on_metric tokensOut (events w r)
   = [CounterAdd tokensOut [URL_Path r; model_of b] (float64_of_int e)] /\
   on_metric reqTotal (events w r)
   = [CounterInc reqTotal
        [URL_Path r; model_of b; Itoa (StatusCode resp); streamLabel_of b]]) /\
  (p < 0 ->
   ending w r = Panicked "counter cannot decrease in value" /\
   on_metric tokensIn (events w r) = [] /\
   on_metric tokensOut (events w r) = [] /\
   on_metric reqTotal (events w r) = []) /\
  (0 <= p -> e < 0 ->
   ending w r = Panicked "counter cannot decrease in value" /\
   on_metric tokensIn (events w r)
   = [CounterAdd tokensIn [URL_Path r; model_of b] (float64_of_int p)] /\
   on_metric tokensOut (events w r) = [] /\
   on_metric reqTotal (events w r) = []).
Proof.
  intros Hb Hpath Hn Hu Hs Es Hr Hparse Hwt Hp He.
  assert (Ex := stats_decoded _ ms Hparse Hwt). rewrite Hp, He in Ex.
  unfold ending, events.
  split; [|split; [|split]].
  - destruct (Z_lt_dec p 0) as [Hp0 | Hp0]; [|destruct (Z_lt_dec e 0) as [He0 | He0]].
    + rewrite (serve_buffered_negative w r b Hb Hpath Hn resp Hu Hs Es Hr _ Ex)
        by (cbn; lia).
      reflexivity.
    + rewrite (serve_buffered_negative w r b Hb Hpath Hn resp Hu Hs Es Hr _ Ex)
        by (cbn; lia).
      reflexivity.
    + rewrite (serve_buffered_decoded w r b Hb Hpath Hn resp Hu Hs Es Hr _ Ex)
        by (cbn; lia).
      reflexivity.
  - intros Hp0 He0.
    rewrite (serve_buffered_decoded w r b Hb Hpath Hn resp Hu Hs Es Hr _ Ex
               Hp0 He0).
    destruct (taken _ _) as [q werr].
    destruct werr; unfold body_close; destruct (Body r); cbn; intuition.
  - intros Hp0.
    rewrite (serve_buffered_negative w r b Hb Hpath Hn resp Hu Hs Es Hr _ Ex)
      by (cbn; lia).
    unfold token_adds_before_panic. cbn [PromptEvalCount].
    destruct (Z.ltb_spec p 0); [|lia].
    unfold body_close; destruct (Body r); cbn; intuition.
  - intros Hp0 He0.
    rewrite (serve_buffered_negative w r b Hb Hpath Hn resp Hu Hs Es Hr _ Ex)
      by (cbn; lia).
    unfold token_adds_before_panic. cbn [PromptEvalCount].
    destruct (Z.ltb_spec p 0); [lia|].
    unfold body_close; destruct (Body r); cbn; intuition.
Qed.

(** Status 500 with the integers -3 and 10: the handler panics and nothing
    is counted. *)
Lemma tokens_at_any_status_witness :
  let body := Sample.obj [("prompt_eval_count", "-3"); ("eval_count", "10")] in
  let w := Sample.world (Sample.answer 500 (Sample.reader body)) None in
  let r := Sample.generate (Sample.reader Sample.buffered_body) in
  status_sent (events w r) = Some 500 /\
  ending w r = Panicked "counter cannot decrease in value" /\
  on_metric tokensIn (events w r) = [] /\
  on_metric tokensOut (events w r) = [] /\
  on_metric reqTotal (events w r) = [].
Proof.
  destruct (tokens_at_any_status
              (Sample.world
                 (Sample.answer 500
                    (Sample.reader
                       (Sample.obj [("prompt_eval_count", "-3");
                                    ("eval_count", "10")]))) None)
              (Sample.generate (Sample.reader Sample.buffered_body))
              Sample.buffered_body
              {| StatusCode := 500;
                 Resp_Header := [("Content-Type", ["application/json"])];
                 Resp_Body :=
                   Sample.reader
                     (Sample.obj [("prompt_eval_count", "-3");
                                  ("eval_count", "10")]) |}
              [("prompt_eval_count", JNumber "-3"); ("eval_count", JNumber "10")]
              (-3) 10 eq_refl eq_refl eq_refl eq_refl)
    as (Hst & _ & Hneg & _); try reflexivity.
  - unfold valid_status; cbn; lia.
  - intros kv [<- | [<- | []]]; cbn; intros Hf;
      try discriminate Hf; right; eexists; eexists; split; reflexivity.
  - split; [exact Hst|]. apply Hneg. lia.
Defined.

(** ** Negative token counts *)

(** C10: an upstream body whose eval_count is -1 decodes without error, and
    the handler passes -1 to [Counter.Add], which panics: the amount is
    negative, the body is not written to the client and the request is not
    counted. *)
Theorem negative_count_panics :
  let body := Sample.obj [("eval_count", "-1")] in
  let w := Sample.world (Sample.answer 200 (Sample.reader body)) None in
  let r := Sample.generate (Sample.reader Sample.buffered_body) in
  Unmarshal_OllamaResponseMetrics body OllamaResponseMetrics_zero
  = ({| EvalCount := Some (-1); PromptEvalCount := None |}, false) /\
  float64_of_int (-1) < 0 /\
  ending w r = Panicked "counter cannot decrease in value" /\
  bytes_written (events w r) = 0 /\
  on_metric reqTotal (events w r) = [].
Proof. vm_compute. intuition. Qed.

(** Whenever a decoded count is negative the handler panics. *)
Lemma negative_counts_panic
  (w : World) (r : Request) (b : string) (resp : Response)
  (x : OllamaResponseMetrics) :
  read_body r = Some b -> valid_label (URL_Path r) = true ->
  newRequest_fails w = false ->
  upstream w = DoResponse resp -> valid_status (StatusCode resp) ->
  stream_of b = false -> rd_fails (Resp_Body resp) = false ->
  Unmarshal_OllamaResponseMetrics (rd_data (Resp_Body resp))
    OllamaResponseMetrics_zero = (x, false) ->
  ~ (nonneg (PromptEvalCount x) /\ nonneg (EvalCount x)) ->
  ending w r = Panicked "counter cannot decrease in value" /\
  on_metric reqTotal (events w r) = [] /\
  bytes_written (events w r) = 0.
Proof.
  intros Hb Hp Hn Hu Hs Es Hr Ex Hneg. unfold ending, events.
  rewrite (serve_buffered_negative w r b Hb Hp Hn resp Hu Hs Es Hr x Ex Hneg).
  cbn [fst snd]. split; [reflexivity|].
  rewrite !bytes_written_app, bytes_written_body_close.
  split_trace. unfold token_adds_before_panic.
  destruct (PromptEvalCount x) as [p|]; [destruct (p <? 0)|]; cbn; intuition.
Qed.

(** * Further properties of the program *)

(** ** Every way through the handler *)

(** The case analysis of [serve]: the goal is split along the branches of
    the handler and [serve w r] is replaced by the trace of the branch. *)
Ltac branches w r :=
  let b := fresh "b" in
  let resp := fresh "resp" in
  let x := fresh "x" in
  let Hb := fresh "Hb" in let Hp := fresh "Hp" in let Hn := fresh "Hn" in
  let Hu := fresh "Hu" in let Hs := fresh "Hs" in let Es := fresh "Es" in
  let Hr := fresh "Hr" in let Ex := fresh "Ex" in
  let Hpc := fresh "Hpc" in let Hec := fresh "Hec" in
  destruct (read_body r) as [b|] eqn:Hb;
  [ destruct (valid_label (URL_Path r)) eqn:Hp;
    [ destruct (newRequest_fails w) eqn:Hn;
      [ rewrite ?(serve_newRequest_fails w r b Hb Hp Hn)
      | destruct (upstream w) as [|resp] eqn:Hu;
        [ rewrite ?(serve_upstream_error w r b Hb Hp Hn Hu)
        | destruct (valid_status_dec (StatusCode resp)) as [Hs|Hs];
          [ destruct (stream_of b) eqn:Es;
            [ rewrite ?(serve_streaming w r b Hb Hp Hn resp Hu Hs Es)
            | destruct (rd_fails (Resp_Body resp)) eqn:Hr;
              [ rewrite ?(serve_buffered_read_error
                            w r b Hb Hp Hn resp Hu Hs Es Hr)
              | destruct (Unmarshal_OllamaResponseMetrics
                            (rd_data (Resp_Body resp))
                            OllamaResponseMetrics_zero) as [x [|]] eqn:Ex;
                [ rewrite ?(serve_buffered_undecoded
                              w r b Hb Hp Hn resp Hu Hs Es Hr x Ex)
                | destruct (nonneg_dec (PromptEvalCount x)) as [Hpc|Hpc];
                  [ destruct (nonneg_dec (EvalCount x)) as [Hec|Hec];
                    [ rewrite ?(serve_buffered_decoded
                                  w r b Hb Hp Hn resp Hu Hs Es Hr x Ex Hpc Hec)
                    | rewrite ?(serve_buffered_negative
                                  w r b Hb Hp Hn resp Hu Hs Es Hr x Ex
                                  (fun H => Hec (proj2 H))) ]
                  | rewrite ?(serve_buffered_negative
                                w r b Hb Hp Hn resp Hu Hs Es Hr x Ex
                                (fun H => Hpc (proj1 H))) ] ] ] ]
          | rewrite ?(serve_invalid_status w r b Hb Hp Hn resp Hu Hs) ] ] ]
    | rewrite ?(serve_invalid_path w r b Hb Hp) ]
  | rewrite ?(serve_body_unreadable w r Hb) ].

(** The same for two calls that take the same way through the handler. *)
Ltac branches2 w r w' r' :=
  let b := fresh "b" in
  let resp := fresh "resp" in
  let x := fresh "x" in
  let Hb := fresh "Hb" in let Hp := fresh "Hp" in let Hn := fresh "Hn" in
  let Hu := fresh "Hu" in let Hs := fresh "Hs" in let Es := fresh "Es" in
  let Hr := fresh "Hr" in let Ex := fresh "Ex" in
  let Hpc := fresh "Hpc" in let Hec := fresh "Hec" in
  destruct (read_body r) as [b|] eqn:Hb;
  [ destruct (valid_label (URL_Path r)) eqn:Hp;
    [ destruct (newRequest_fails w) eqn:Hn;
      [ rewrite ?(serve_newRequest_fails w r b Hb Hp Hn),
                ?(serve_newRequest_fails w' r' b Hb Hp Hn)
      | destruct (upstream w) as [|resp] eqn:Hu;
        [ rewrite ?(serve_upstream_error w r b Hb Hp Hn Hu),
                  ?(serve_upstream_error w' r' b Hb Hp Hn Hu)
        | destruct (valid_status_dec (StatusCode resp)) as [Hs|Hs];
          [ destruct (stream_of b) eqn:Es;
            [ rewrite ?(serve_streaming w r b Hb Hp Hn resp Hu Hs Es),
                      ?(serve_streaming w' r' b Hb Hp Hn resp Hu Hs Es)
            | destruct (rd_fails (Resp_Body resp)) eqn:Hr;
              [ rewrite ?(serve_buffered_read_error
                            w r b Hb Hp Hn resp Hu Hs Es Hr),
                        ?(serve_buffered_read_error
                            w' r' b Hb Hp Hn resp Hu Hs Es Hr)
              | destruct (Unmarshal_OllamaResponseMetrics
                            (rd_data (Resp_Body resp))
                            OllamaResponseMetrics_zero) as [x [|]] eqn:Ex;
                [ rewrite ?(serve_buffered_undecoded
                              w r b Hb Hp Hn resp Hu Hs Es Hr x Ex),
                          ?(serve_buffered_undecoded
                              w' r' b Hb Hp Hn resp Hu Hs Es Hr x Ex)
                | destruct (nonneg_dec (PromptEvalCount x)) as [Hpc|Hpc];
                  [ destruct (nonneg_dec (EvalCount x)) as [Hec|Hec];
                    [ rewrite ?(serve_buffered_decoded
                                  w r b Hb Hp Hn resp Hu Hs Es Hr x Ex Hpc Hec),
                              ?(serve_buffered_decoded
                                  w' r' b Hb Hp Hn resp Hu Hs Es Hr x Ex
                                  Hpc Hec)
                    | rewrite ?(serve_buffered_negative
                                  w r b Hb Hp Hn resp Hu Hs Es Hr x Ex
                                  (fun H => Hec (proj2 H))),
                              ?(serve_buffered_negative
                                  w' r' b Hb Hp Hn resp Hu Hs Es Hr x Ex
                                  (fun H => Hec (proj2 H))) ]
                  | rewrite ?(serve_buffered_negative
                                w r b Hb Hp Hn resp Hu Hs Es Hr x Ex
                                (fun H => Hpc (proj1 H))),
                            ?(serve_buffered_negative
                                w' r' b Hb Hp Hn resp Hu Hs Es Hr x Ex
                                (fun H => Hpc (proj1 H))) ] ] ] ]
          | rewrite ?(serve_invalid_status w r b Hb Hp Hn resp Hu Hs),
                    ?(serve_invalid_status w' r' b Hb Hp Hn resp Hu Hs) ] ] ]
    | rewrite ?(serve_invalid_path w r b Hb Hp),
              ?(serve_invalid_path w' r' b Hb Hp) ]
  | rewrite ?(serve_body_unreadable w r Hb),
            ?(serve_body_unreadable w' r' Hb) ].

(** The pieces of a trace that depend on the data are opened by cases. *)
Ltac open_trace :=
  unfold body_close, token_adds, token_adds_before_panic;
  repeat match goal with
  | |- context [taken ?l ?p] => destruct (taken l p) as [? [|]]
  | |- context [match Body ?r with _ => _ end] => destruct (Body r)
  | |- context [match PromptEvalCount ?x with _ => _ end] =>
      destruct (PromptEvalCount x)
  | |- context [match EvalCount ?x with _ => _ end] => destruct (EvalCount x)
  | |- context [if ?c then _ else _] => destruct c
  end.

Ltac open_taken :=
  repeat match goal with
  | |- context [taken ?l ?p] =>
    let q := fresh "q" in let Et := fresh "Et" in
    destruct (taken l p) as [q [|]] eqn:Et
  end.

(** The body of the request is the one that the statement names. *)
Ltac known_body H :=
  try discriminate;
  try match type of H with Some ?b0 = Some ?b => injection H as -> end.

(** ** The request side *)

(** X1: when the request body is read and the path is a label value, the
    first thing the handler does is to add the length of the body to
    request_bytes_in_total, under the path, the model and the stream flag
    of the request.  It does so once, whatever happens to the request
    afterwards, and the amount is the exact length for a body of up to 2^53
    bytes. *)
Theorem bytes_in_recorded_first (w : World) (r : Request) (b : string) :
  read_body r = Some b -> valid_label (URL_Path r) = true ->
  let e := CounterAdd bytesIn [URL_Path r; model_of b; streamLabel_of b]
             (float64_of_int (len b)) in
  (exists rest, events w r = e :: rest) /\
  on_metric bytesIn (events w r) = [e] /\
  (len b <= 2 ^ 53 -> added bytesIn (events w r) = len b).
Proof.
  intros H Hv e. subst e. unfold events.
  assert (Hl := len_nonneg b).
  branches w r; known_body H; try congruence;
    open_trace; cbn [snd app];
    (split; [eexists; reflexivity|]);
    (split; [reflexivity|]);
    intros Hle; cbn; rewrite float64_of_int_exact by lia; lia.
Qed.

Lemma bytes_in_recorded_first_witness :
  let w := Sample.world DoError None in
  let r := Sample.generate (Sample.reader Sample.buffered_body) in
  let e := CounterAdd bytesIn ["/api/generate"; "llama3"; "false"] 47 in
  (exists rest, events w r = e :: rest) /\
  on_metric bytesIn (events w r) = [e] /\
  (47 <= 2 ^ 53 -> added bytesIn (events w r) = 47).
Proof.
  exact (bytes_in_recorded_first
           (Sample.world DoError None)
           (Sample.generate (Sample.reader Sample.buffered_body))
           Sample.buffered_body eq_refl eq_refl).
Defined.

(** X2: when the upstream request cannot be built, the handler answers
    with status 500 and returns: the upstream is not called, the body of the
    response is the message of [http.Error] and a newline, as far as the
    client takes them, and of the six metrics only request_bytes_in_total is
    touched, so that the request is counted neither in requests_total nor in
    request_duration_seconds. *)
Theorem unbuilt_request_counts_bytes_only
  (w : World) (r : Request) (b : string) :
  read_body r = Some b -> valid_label (URL_Path r) = true ->
  newRequest_fails w = true ->
  ending w r = Returned /\
  status_sent (events w r) = Some 500 /\
  upstream_calls (events w r) = 0%nat /\
  metric_events (events w r)
  = [CounterAdd bytesIn [URL_Path r; model_of b; streamLabel_of b]
       (float64_of_int (len b))] /\
  client_body (events w r)
  = fst (taken (client_takes w)
           (error_body "failed to create upstream request")).
Proof.
  intros Hb Hp Hn. unfold ending, events.
  rewrite (serve_newRequest_fails w r b Hb Hp Hn).
  unfold body_close. destruct (Body r); cbn;
    rewrite string_app_empty; intuition.
Qed.

Lemma unbuilt_request_counts_bytes_only_witness :
  let w := {| upstreamURL := Sample.ollama; newRequest_fails := true;
              upstream := DoError; client_takes := None;
              elapsed := 1500000 |} in
  let r := Sample.generate (Sample.reader Sample.buffered_body) in
  ending w r = Returned /\
  status_sent (events w r) = Some 500 /\
  upstream_calls (events w r) = 0%nat /\
  metric_events (events w r)
  = [CounterAdd bytesIn ["/api/generate"; "llama3"; "false"] 47] /\
  client_body (events w r) = error_body "failed to create upstream request".
Proof.
  exact (unbuilt_request_counts_bytes_only
           {| upstreamURL := Sample.ollama; newRequest_fails := true;
              upstream := DoError; client_takes := None;
              elapsed := 1500000 |}
           (Sample.generate (Sample.reader Sample.buffered_body))
           Sample.buffered_body eq_refl eq_refl eq_refl).
Defined.

(** X3: the upstream is called once at most, and exactly once when the
    request body is read, the path is a label value and
    [http.NewRequestWithContext] returns no error.  The request that goes to
    [httpClient.Do] is the one made by the call of
    [http.NewRequestWithContext] just before it: from the method of the
    inbound request (GET when it is empty), from its body byte for byte, and
    from the text of a [url.URL] with the scheme and the host of the
    configured upstream, the configured base path without trailing slashes
    followed by the inbound path, and the inbound query string. *)
Theorem upstream_called_once (w : World) (r : Request) :
  upstream_calls (events w r) = (if reaches_upstream w r then 1 else 0)%nat /\
  forall q, In (UpstreamDo q) (events w r) ->
    read_body r = Some (up_Body q) /\
    up_Method q
    = (if String.eqb (Method r) EmptyString then "GET" else Method r) /\
    exists u pre post,
      events w r
      = pre ++ NewRequestWithContext (Method r) u (up_Body q)
               :: UpstreamDo q :: post /\
      Scheme u = Scheme (upstreamURL w) /\
      Host u = Host (upstreamURL w) /\
      Path u = (TrimRight_slash (Path (upstreamURL w)) ++ URL_Path r)%string /\
      RawQuery u = URL_RawQuery r.
Proof.
  unfold events, reaches_upstream.
  set (method := if String.eqb (Method r) EmptyString then "GET" else Method r).
  branches w r; cbn [andb negb snd]; open_trace; cbn [snd app];
    (split; [reflexivity|]); cbn [In]; intros q Hq;
    repeat (destruct Hq as [Hq|Hq];
            [first [ discriminate Hq
                   | injection Hq as <-;
                     split; [reflexivity|]; split; [reflexivity|];
                     exists (upstream_target w r); eexists [_]; eexists;
                     split; [reflexivity|]; cbn; intuition ]|]);
    contradiction.
Qed.

(** *** Headers *)

Lemma Header_Get_Values (k : string) (h : Header) :
  Header_Get k h = hd EmptyString (Header_Values k h).
Proof.
  induction h as [|[k' vs] t IH]; cbn; [reflexivity|].
  destruct (String.eqb k k'); [reflexivity | exact IH].
Qed.

Lemma Header_Values_Add (k k' v : string) (h : Header) :
  Header_Values k (Header_Add k' v h)
  = if String.eqb k k' then Header_Values k h ++ [v] else Header_Values k h.
Proof.
  induction h as [|[k0 vs] t IH]; cbn.
  - destruct (String.eqb k k'); reflexivity.
  - destruct (String.eqb_spec k' k0) as [->|Hne]; cbn.
    + destruct (String.eqb k k0); reflexivity.
    + destruct (String.eqb_spec k k0) as [->|Hne'].
      * destruct (String.eqb_spec k0 k'); [congruence | reflexivity].
      * exact IH.
Qed.

Lemma Header_Values_Set (k k' v : string) (h : Header) :
  Header_Values k (Header_Set k' v h)
  = if String.eqb k k' then [v] else Header_Values k h.
Proof.
  induction h as [|[k0 vs] t IH]; cbn.
  - destruct (String.eqb k k'); reflexivity.
  - destruct (String.eqb_spec k' k0) as [->|Hne]; cbn.
    + destruct (String.eqb k k0); reflexivity.
    + destruct (String.eqb_spec k k0) as [->|Hne'].
      * destruct (String.eqb_spec k0 k'); [congruence | reflexivity].
      * exact IH.
Qed.

Lemma Header_Values_Add_all (k k' : string) (vs : list string) (h : Header) :
  Header_Values k (fold_left (fun d v => Header_Add k' v d) vs h)
  = if String.eqb k k' then Header_Values k h ++ vs else Header_Values k h.
Proof.
  revert h. induction vs as [|v vs IH]; intros h; cbn.
  - destruct (String.eqb k k'); [rewrite app_nil_r|]; reflexivity.
  - rewrite IH, Header_Values_Add.
    destruct (String.eqb k k'); [rewrite <- app_assoc|]; reflexivity.
Qed.

(** The copy loops on any two headers: the values of [src] are appended
    to those of [dst], key by key. *)
Lemma Header_Values_copy (k : string) (src dst : Header) :
  Header_Values k (copy_header src dst)
  = Header_Values k dst ++ all_values k src.
Proof.
  unfold copy_header, all_values. revert dst.
  induction src as [|[k' vs] t IH]; intros dst; cbn.
  - rewrite app_nil_r. reflexivity.
  - rewrite IH, Header_Values_Add_all.
    destruct (String.eqb k k'); cbn; [rewrite <- app_assoc|]; reflexivity.
Qed.

Lemma all_values_absent (k : string) (h : Header) :
  ~ In k (map fst h) -> all_values k h = [].
Proof.
  unfold all_values. induction h as [|[k' vs] t IH]; cbn; [reflexivity|].
  intros Hn. destruct (String.eqb_spec k k') as [->|Hne]; [tauto|].
  apply IH. tauto.
Qed.

Lemma all_values_map (k : string) (h : Header) :
  NoDup (map fst h) -> all_values k h = Header_Values k h.
Proof.
  induction h as [|[k' vs] t IH]; cbn; [reflexivity|].
  intros Hnd. inversion Hnd as [|? ? Hni Hnd']; subst.
  unfold all_values in *. cbn.
  destruct (String.eqb_spec k k') as [->|Hne]; cbn.
  - fold (all_values k' t). rewrite (all_values_absent k' t Hni).
    apply app_nil_r.
  - apply IH, Hnd'.
Qed.

Lemma copy_header_Values (k : string) (src : Header) :
  NoDup (map fst src) ->
  Header_Values k (copy_header src []) = Header_Values k src.
Proof.
  intros Hnd. rewrite Header_Values_copy. cbn. apply all_values_map, Hnd.
Qed.

Lemma sample_header_NoDup :
  NoDup (map fst [("Content-Type", ["application/json"]);
                  ("Accept", ["text/plain"; "application/json"])]).
Proof.
  cbn. repeat constructor; cbn; intuition discriminate.
Defined.

(** X4: the two loops that copy a header, of the inbound request to the
    upstream request and of the upstream response to the client, carry
    every value of every key over, in order: in the copy each key has the
    values it has in the original (the keys of a header being those of a
    map, each once), and [Get] gives the same on both. *)
Theorem copy_header_keeps_values (k : string) (src : Header) :
  NoDup (map fst src) ->
  Header_Values k (copy_header src []) = Header_Values k src /\
  Header_Get k (copy_header src []) = Header_Get k src.
Proof.
  intros Hnd. assert (E := copy_header_Values k src Hnd).
  split; [exact E|]. rewrite !Header_Get_Values, E. reflexivity.
Qed.

Lemma copy_header_keeps_values_witness :
  let src := [("Content-Type", ["application/json"]);
              ("Accept", ["text/plain"; "application/json"])] in
  Header_Values "Accept" (copy_header src []) = Header_Values "Accept" src /\
  Header_Get "Accept" (copy_header src []) = Header_Get "Accept" src.
Proof.
  exact (copy_header_keeps_values "Accept" _ sample_header_NoDup).
Defined.

(** X5: the upstream request never goes without a Content-Type.  When the
    inbound request has one that is not empty, the upstream request has
    the inbound header as it is; otherwise its Content-Type is
    application/json and every other key is as in the inbound header. *)
Theorem content_type_defaulted
  (w : World) (r : Request) (b : string) (k : string) :
  NoDup (map fst (Req_Header r)) ->
  let h := up_Header (build_upstream w r b) in
  Header_Get "Content-Type" h <> EmptyString /\
  (Header_Get "Content-Type" (Req_Header r) <> EmptyString ->
   Header_Values k h = Header_Values k (Req_Header r)) /\
  (Header_Get "Content-Type" (Req_Header r) = EmptyString ->
   Header_Values k h
   = if String.eqb k "Content-Type" then ["application/json"]
     else Header_Values k (Req_Header r)).
Proof.
  intros Hnd h. subst h. unfold build_upstream. cbn [up_Header].
  assert (Ev := copy_header_Values k _ Hnd).
  assert (Eg : Header_Get "Content-Type" (copy_header (Req_Header r) [])
               = Header_Get "Content-Type" (Req_Header r))
    by (rewrite !Header_Get_Values, (copy_header_Values _ _ Hnd);
        reflexivity).
  rewrite Eg.
  destruct (String.eqb_spec (Header_Get "Content-Type" (Req_Header r))
              EmptyString) as [E|E].
  - split; [|split].
    + rewrite Header_Get_Values, Header_Values_Set. cbn. discriminate.
    + congruence.
    + intros _. rewrite Header_Values_Set, Ev. reflexivity.
  - split; [|split].
    + rewrite Eg. exact E.
    + intros _. exact Ev.
    + congruence.
Qed.

Lemma content_type_defaulted_witness :
  let r := {| Method := "POST"; URL_Path := "/api/chat";
              URL_RawQuery := EmptyString;
              Req_Header := [("Accept", ["text/plain"])];
              Body := None |} in
  let h := up_Header
             (build_upstream (Sample.world DoError None) r EmptyString) in
  Header_Get "Content-Type" h <> EmptyString /\
  (Header_Get "Content-Type" (Req_Header r) <> EmptyString ->
   Header_Values "Accept" h = Header_Values "Accept" (Req_Header r)) /\
  (Header_Get "Content-Type" (Req_Header r) = EmptyString ->
   Header_Values "Accept" h = ["text/plain"]).
Proof.
  apply (content_type_defaulted (Sample.world DoError None)
           {| Method := "POST"; URL_Path := "/api/chat";
              URL_RawQuery := EmptyString;
              Req_Header := [("Accept", ["text/plain"])];
              Body := None |}
           EmptyString "Accept").
  cbn. repeat constructor; cbn; intuition discriminate.
Defined.

(** *** The upstream path *)

Lemma TrimRight_slash_aux_spec (l : list ascii) :
  (exists n, l = TrimRight_slash_aux l ++ repeat "/"%char n) /\
  (forall t, TrimRight_slash_aux l <> t ++ ["/"%char]).
Proof.
  induction l as [|c l [[n En] IH]]; cbn.
  - split; [exists 0%nat; reflexivity|]. intros [|? ?]; discriminate.
  - destruct (TrimRight_slash_aux l) as [|a l'] eqn:E.
    + destruct (Ascii.eqb_spec c "/"%char) as [->|Hc].
      * split; [exists (S n); cbn; rewrite En; reflexivity|].
        intros [|? ?]; discriminate.
      * split; [exists n; cbn; rewrite En; reflexivity|].
        intros [|? [|? ?]]; cbn; intros [= ]; congruence.
    + split; [exists n; cbn; rewrite En at 1; reflexivity|].
      intros [|c' t]; cbn.
      * discriminate.
      * intros [= -> Ht]. exact (IH t Ht).
Qed.

Lemma str_app (l1 l2 : list ascii) : str (l1 ++ l2) = (str l1 ++ str l2)%string.
Proof.
  unfold str. induction l1 as [|c l1 IH]; cbn; [|rewrite IH]; reflexivity.
Qed.

Lemma bytes_app (s1 s2 : string) : bytes (s1 ++ s2) = bytes s1 ++ bytes s2.
Proof.
  unfold bytes. induction s1 as [|c s1 IH]; cbn; [|rewrite IH]; reflexivity.
Qed.

Lemma str_bytes (s : string) : str (bytes s) = s.
Proof. apply string_of_list_ascii_of_string. Qed.

Lemma bytes_str (l : list ascii) : bytes (str l) = l.
Proof. apply list_ascii_of_string_of_list_ascii. Qed.

(** [strings.TrimRight(s, "/")] takes all the slashes off the end of [s]
    and nothing else. *)
Lemma TrimRight_slash_trims (s : string) :
  (exists n, s = (TrimRight_slash s ++ slashes n)%string) /\
  (forall t, TrimRight_slash s <> (t ++ "/")%string).
Proof.
  unfold TrimRight_slash, slashes.
  destruct (TrimRight_slash_aux_spec (bytes s)) as [[n En] Hn].
  split.
  - exists n. rewrite <- str_app, <- En. symmetry. apply str_bytes.
  - intros t E. apply (Hn (bytes t)).
    rewrite <- (bytes_str (TrimRight_slash_aux (bytes s))), E, bytes_app.
    reflexivity.
Qed.

(** X6: in the [url.URL] that the handler puts into text for
    [http.NewRequestWithContext], the field Path is the configured base path
    without its trailing slashes, all of them, followed by the path of the
    inbound request; so a base path that ends in slashes gives the same
    field as the base path without them.  This is the value before
    [up.String()]; what [url.Parse] makes of the text is left open. *)
Theorem upstream_path_joined (w : World) (r : Request) :
  exists base n,
    Path (upstreamURL w) = (base ++ slashes n)%string /\
    (forall t, base <> (t ++ "/")%string) /\
    forall m u body, In (NewRequestWithContext m u body) (events w r) ->
      Path u = (base ++ URL_Path r)%string.
Proof.
  destruct (TrimRight_slash_trims (Path (upstreamURL w))) as [[n En] Hn].
  exists (TrimRight_slash (Path (upstreamURL w))), n.
  split; [exact En | split; [exact Hn|]].
  unfold events.
  branches w r; open_trace; cbn [snd app In]; intros m u body Hq;
    repeat (destruct Hq as [Hq|Hq];
            [first [ discriminate Hq
                   | injection Hq as <- <- <-; reflexivity ]|]);
    contradiction.
Qed.

(** ** The response side *)



Lemma substring_prefix (k : nat) (p : string) :
  exists rest, p = (substring 0 k p ++ rest)%string.
Proof.
  revert k. induction p as [|c p IH]; intros [|k]; cbn.
  - exists EmptyString. reflexivity.
  - exists EmptyString. reflexivity.
  - eexists. reflexivity.
  - destruct (IH k) as [rest E]. exists rest. rewrite <- E. reflexivity.
Qed.

Lemma taken_prefix (limit : option nat) (p q : string) (e : bool) :
  taken limit p = (q, e) -> exists rest, p = (q ++ rest)%string.
Proof.
  unfold taken. destruct limit as [k|].
  - destruct (String.length p <=? k)%nat; intros [= <- <-].
    + exists EmptyString. symmetry. apply string_app_empty.
    + apply substring_prefix.
  - intros [= <- <-]. exists EmptyString. symmetry. apply string_app_empty.
Qed.

(** X8: whatever happens, the body bytes that the client gets are the
    bytes of one text from its start, the whole of it or a first part: of
    the upstream body where the upstream answers, and else of the message of
    the handler's own [http.Error] with its newline.  The handler never
    mixes the two and adds no bytes of its own to an upstream body. *)
Theorem client_gets_upstream_bytes (w : World) (r : Request) :
  exists rest,
    match read_body r with
    | None => error_body "failed to read request body"
    | Some _ =>
      if newRequest_fails w
      then error_body "failed to create upstream request"
      else
        match upstream w with
        | DoResponse resp => rd_data (Resp_Body resp)
        | DoError => error_body "upstream error"
        end
    end = (client_body (events w r) ++ rest)%string.
Proof.
  unfold events.
  branches w r; open_taken; open_trace; cbn;
    try (eexists; reflexivity);
    match goal with
    | Et : taken _ _ = _ |- _ =>
      destruct (taken_prefix _ _ _ _ Et) as [rest E]; exists rest;
      rewrite string_app_empty; exact E
    end.
Qed.

(** X9: when the upstream answers and the client takes all that is
    written, the client gets the whole upstream body, byte for byte: in
    streaming mode always (all that the upstream yielded, when its body
    breaks off), in buffered mode when the upstream body is read to its
    end and the handler returns. *)
Theorem client_gets_whole_body
  (w : World) (r : Request) (b : string) (resp : Response) :
  read_body r = Some b -> valid_label (URL_Path r) = true ->
  newRequest_fails w = false ->
  upstream w = DoResponse resp -> valid_status (StatusCode resp) ->
  snd (taken (client_takes w) (rd_data (Resp_Body resp))) = false ->
  stream_of b = true
  \/ (rd_fails (Resp_Body resp) = false /\ ending w r = Returned) ->
  client_body (events w r) = rd_data (Resp_Body resp).
Proof.
  intros Hb Hp Hn Hu Hs Ht Hm. unfold ending, events in *.
  destruct (taken (client_takes w) (rd_data (Resp_Body resp)))
    as [q e] eqn:Et. cbn in Ht. subst e.
  apply taken_all in Et as Eq. subst q.
  revert Hm.
  branches w r; try discriminate; try congruence;
    injection Hb as <-; injection Hu as <-;
    rewrite ?Et; open_trace; cbn;
    rewrite ?string_app_empty; intros [Hm | [Hm1 Hm2]];
    congruence.
Qed.

Lemma client_gets_whole_body_witness :
  let w := Sample.world (Sample.answer 200 (Sample.reader Sample.stats_body))
             None in
  let r := Sample.generate (Sample.reader Sample.buffered_body) in
  client_body (events w r) = Sample.stats_body.
Proof.
  apply (client_gets_whole_body
           (Sample.world (Sample.answer 200 (Sample.reader Sample.stats_body))
              None)
           (Sample.generate (Sample.reader Sample.buffered_body))
           Sample.buffered_body
           {| StatusCode := 200;
              Resp_Header := [("Content-Type", ["application/json"])];
              Resp_Body := Sample.reader Sample.stats_body |}
           eq_refl eq_refl eq_refl eq_refl).
  - unfold valid_status; cbn; lia.
  - reflexivity.
  - right. split; reflexivity.
Defined.

(** X10: the handler keeps to the protocol of the response writer: it sets
    the status once at most, by [WriteHeader] or by [http.Error]; it writes
    body bytes only after [WriteHeader]; and after [http.Error], which
    writes its message, it writes nothing more.  When it returns, the status
    is set, to a code of three digits. *)
Theorem response_well_formed (w : World) (r : Request) :
  response_ok NothingSent (events w r) = true /\
  (ending w r = Returned ->
   exists code, status_sent (events w r) = Some code /\ valid_status code).
Proof.
  unfold ending, events.
  branches w r; (split; [open_trace; reflexivity|]); cbn [fst snd];
    intros E; try discriminate E; clear E; open_trace; cbn;
    eexists; (split; [reflexivity|]);
    first [ assumption
          | unfold valid_status, StatusBadRequest, StatusInternalServerError,
              StatusBadGateway; lia ].
Qed.

Lemma response_well_formed_witness :
  let w := Sample.world DoError None in
  let r := Sample.generate (Sample.reader Sample.buffered_body) in
  response_ok NothingSent (events w r) = true /\
  exists code, status_sent (events w r) = Some code /\ valid_status code.
Proof.
  destruct (response_well_formed
              (Sample.world DoError None)
              (Sample.generate (Sample.reader Sample.buffered_body)))
    as [H1 H2].
  split; [exact H1 | exact (H2 eq_refl)].
Defined.

(** X11: the bodies are closed on every way out of the handler, a panic
    included: the body of the inbound request once when there is one, the
    body of the upstream response once when the upstream call returned a
    response, and nothing else is closed.  The closing comes last, the
    upstream body first. *)
Theorem bodies_closed (w : World) (r : Request) :
  filter is_close (events w r)
  = (if answered w r then [CloseResponseBody] else []) ++ body_close r /\
  events w r
  = filter (fun e => negb (is_close e)) (events w r)
    ++ filter is_close (events w r).
Proof.
  unfold events, answered.
  branches w r; cbn [andb negb snd];
    try (unfold body_close, read_body in *; destruct (Body r); [|discriminate]);
    open_trace; cbn; split; reflexivity.
Qed.

(** X12: the handler returns, rather than panics, exactly when the path is
    a label value that the metric vectors accept and, where the upstream
    answers, its status code has three digits and, in buffered mode with
    the body read, the body does not decode to a negative token count.  A
    panic is one of those three of the libraries, with the value that the
    library gives it: the error of the metric vector that quotes the path,
    the string of [net/http] that ends in the status code, or the error of
    the counter. *)
Theorem handler_returns_iff (w : World) (r : Request) :
  (ending w r = Returned <->
   match read_body r with
   | None => True
   | Some b =>
     valid_label (URL_Path r) = true /\
     (newRequest_fails w = false ->
      match upstream w with
      | DoError => True
      | DoResponse resp =>
        valid_status (StatusCode resp) /\
        (stream_of b = false -> rd_fails (Resp_Body resp) = false ->
         counts_nonneg (rd_data (Resp_Body resp)))
      end)
   end) /\
  (forall v, ending w r = Panicked v ->
     v = Errorf "label value %q is not valid UTF-8" (URL_Path r)
     \/ (exists resp,
           upstream w = DoResponse resp /\
           v = Text ("invalid WriteHeader code " ++ Itoa (StatusCode resp)))
     \/ v = Text "counter cannot decrease in value").
Proof.
  unfold ending, counts_nonneg.
  branches w r; cbn [fst];
    rewrite ?Ex;
    (split; [split; [intros E|intros E] | intros v E]);
    try discriminate; try reflexivity; try exact I;
    try (injection E as <-;
         first [ left; reflexivity
               | right; left; eexists; split; reflexivity
               | right; right; reflexivity ]);
    try solve [intuition (congruence || tauto)].
Qed.

(** ** The metrics *)

(** X13: every call on a metric vector gives as many label values as the
    vector is declared with, in the order of the declared names: the
    endpoint is the path of the request, the model and the stream flag are
    those of its body, and the status stands third of four in
    requests_total. *)
Theorem labels_in_declared_order (w : World) (r : Request) (b : string) :
  read_body r = Some b -> Forall (labelled r b) (events w r).
Proof.
  intros H. unfold events. branches w r; known_body H;
    open_trace; cbn [snd app];
    repeat (apply Forall_cons;
            [cbn; first [exact I | exists EmptyString; reflexivity
                        | eexists; reflexivity]|]);
    apply Forall_nil.
Qed.

Lemma labels_in_declared_order_witness :
  let w := Sample.world (Sample.answer 200 (Sample.reader Sample.stats_body))
             None in
  let r := Sample.generate (Sample.reader Sample.buffered_body) in
  Forall (labelled r Sample.buffered_body) (events w r).
Proof.
  exact (labels_in_declared_order
           (Sample.world (Sample.answer 200 (Sample.reader Sample.stats_body))
              None)
           (Sample.generate (Sample.reader Sample.buffered_body))
           Sample.buffered_body eq_refl).
Defined.

(** X14: a request is counted once at most: either neither
    requests_total nor request_duration_seconds is touched, or
    requests_total is incremented once and request_duration_seconds is
    observed once, and then the status label is the status code that the
    client was sent. *)
Theorem requests_counted_once (w : World) (r : Request) :
  (on_metric reqTotal (events w r) = [] /\
   on_metric reqDuration (events w r) = []) \/
  (exists b code,
     read_body r = Some b /\
     status_sent (events w r) = Some code /\
     on_metric reqTotal (events w r)
     = [CounterInc reqTotal
          [URL_Path r; model_of b; Itoa code; streamLabel_of b]] /\
     on_metric reqDuration (events w r)
     = [HistObserve reqDuration [URL_Path r; model_of b; streamLabel_of b]
          (elapsed w)]).
Proof.
  unfold events.
  branches w r; cbn [snd]; open_trace;
    first [ left; split; reflexivity
          | right; eexists; eexists;
            (split; [reflexivity|]); (split; [reflexivity|]);
            split; reflexivity ].
Qed.

(** X15: a request without a body, with an empty body or with a body that
    is not JSON is labelled model unknown and stream true; its bytes are
    counted under those labels, the body goes to the upstream as it came,
    and the answer is relayed in streaming mode, so that the token counters
    are not touched. *)
Theorem unparsed_body_defaults (w : World) (r : Request) (b : string) :
  read_body r = Some b -> parse b = None ->
  valid_label (URL_Path r) = true ->
  model_of b = "unknown" /\ stream_of b = true /\
  on_metric bytesIn (events w r)
  = [CounterAdd bytesIn [URL_Path r; "unknown"; "true"]
       (float64_of_int (len b))] /\
  (forall q, In (UpstreamDo q) (events w r) -> up_Body q = b) /\
  on_metric tokensIn (events w r) = [] /\
  on_metric tokensOut (events w r) = [].
Proof.
  intros H Hparse Hv.
  assert (Em : model_of b = "unknown")
    by (unfold model_of, payload_of, Unmarshal_RequestPayload;
        rewrite Hparse; reflexivity).
  assert (Es : stream_of b = true)
    by (unfold stream_of, payload_of, Unmarshal_RequestPayload;
        rewrite Hparse; reflexivity).
  assert (El : streamLabel_of b = "true")
    by (unfold streamLabel_of; rewrite Es; reflexivity).
  split; [exact Em|]. split; [exact Es|].
  unfold events.
  branches w r; known_body H; try congruence;
    unfold labels2, labels3, labels4; rewrite ?Em, ?El;
    open_trace; cbn [snd app];
    (split; [reflexivity|]);
    (split; [|split; reflexivity]);
    cbn [In]; intros q Hq;
    repeat (destruct Hq as [Hq|Hq];
            [try discriminate; injection Hq as <-; reflexivity|]);
    contradiction.
Qed.

Lemma unparsed_body_defaults_witness :
  let w := Sample.world (Sample.answer 200 (Sample.reader Sample.stats_body))
             None in
  let r := {| Method := "GET"; URL_Path := "/api/tags";
              URL_RawQuery := EmptyString; Req_Header := [];
              Body := None |} in
  model_of EmptyString = "unknown" /\ stream_of EmptyString = true /\
  on_metric bytesIn (events w r)
  = [CounterAdd bytesIn ["/api/tags"; "unknown"; "true"] 0] /\
  (forall q, In (UpstreamDo q) (events w r) -> up_Body q = EmptyString) /\
  on_metric tokensIn (events w r) = [] /\
  on_metric tokensOut (events w r) = [].
Proof.
  exact (unparsed_body_defaults
           (Sample.world (Sample.answer 200 (Sample.reader Sample.stats_body))
              None)
           {| Method := "GET"; URL_Path := "/api/tags";
              URL_RawQuery := EmptyString; Req_Header := [];
              Body := None |}
           EmptyString eq_refl eq_refl eq_refl).
Defined.

(** X16: in buffered mode the metrics do not depend on the client: the
    calls on the six metric vectors, and whether the handler returns, are
    the same whether the client takes the whole body, a part of it or
    nothing. *)
Theorem buffered_metrics_ignore_client
  (w : World) (r : Request) (b : string) (k : option nat) :
  read_body r = Some b -> stream_of b = false ->
  metric_events (events (with_client k w) r) = metric_events (events w r) /\
  ending (with_client k w) r = ending w r.
Proof.
  intros Hb Hs. unfold ending, events.
  branches2 w r (with_client k w) r; try discriminate; try congruence;
    cbn [fst snd]; (split; [|reflexivity]);
    unfold with_client; cbn [client_takes elapsed];
    open_trace; reflexivity.
Qed.

Lemma buffered_metrics_ignore_client_witness :
  let w := Sample.world (Sample.answer 200 (Sample.reader Sample.stats_body))
             None in
  let r := Sample.generate (Sample.reader Sample.buffered_body) in
  metric_events (events (with_client (Some 3%nat) w) r)
  = metric_events (events w r) /\
  ending (with_client (Some 3%nat) w) r = ending w r.
Proof.
  exact (buffered_metrics_ignore_client
           (Sample.world (Sample.answer 200 (Sample.reader Sample.stats_body))
              None)
           (Sample.generate (Sample.reader Sample.buffered_body))
           Sample.buffered_body (Some 3%nat) eq_refl eq_refl).
Defined.

(** With the outcomes of the library calls held as they are, the method,
    the query string and the header of the request do not show in the
    metrics. *)
Lemma same_outcomes_same_metrics
  (w : World) (r : Request) (method query : string) (h : Header) :
  metric_events (events w (with_meta method query h r))
  = metric_events (events w r) /\
  ending w (with_meta method query h r) = ending w r.
Proof.
  unfold ending, events.
  branches2 w r w (with_meta method query h r);
    cbn [fst snd]; (split; [|reflexivity]);
    unfold body_close, labels2, labels3, labels4, with_meta;
    cbn [Body URL_Path];
    open_trace; reflexivity.
Qed.

(** X17: the metrics depend on the request through its path and its body,
    and through its method and query string only as far as these decide
    whether [http.NewRequestWithContext] fails.  With [nr] telling for which
    method and URL that call fails, and with the same answer of the upstream
    and the same client connection: requests that differ in the header only
    make the same calls on the six metric vectors and end alike, and so do
    requests that differ in method and query string when [nr] gives the
    same for both. *)
Theorem metrics_ignore_method_query_headers
  (nr : string -> URL -> bool) (w : World) (r : Request) :
  (forall h,
     let r' := with_meta (Method r) (URL_RawQuery r) h r in
     metric_events (events (calling nr w r') r')
     = metric_events (events (calling nr w r) r) /\
     ending (calling nr w r') r' = ending (calling nr w r) r) /\
  (forall method query h,
     let r' := with_meta method query h r in
     nr (Method r') (upstream_target w r') = nr (Method r) (upstream_target w r) ->
     metric_events (events (calling nr w r') r')
     = metric_events (events (calling nr w r) r) /\
     ending (calling nr w r') r' = ending (calling nr w r) r).
Proof.
  split.
  - intros h r'.
    change (calling nr w r') with (calling nr w r).
    apply same_outcomes_same_metrics.
  - intros method query h r' E.
    unfold calling at 1 3. rewrite E. fold (calling nr w r).
    apply same_outcomes_same_metrics.
Qed.

(** Where [http.NewRequestWithContext] fails for a method with a space in
    it: a GET with a query string and without header is counted as the
    POST. *)
Lemma metrics_ignore_method_query_headers_witness :
  let nr := fun (m : string) (u : URL) => String.eqb m "BAD METHOD" in
  let w := Sample.world (Sample.answer 200 (Sample.reader Sample.stats_body))
             None in
  let r := Sample.generate (Sample.reader Sample.buffered_body) in
  let r' := with_meta "GET" "verbose=1" [] r in
  metric_events (events (calling nr w r') r')
  = metric_events (events (calling nr w r) r) /\
  ending (calling nr w r') r' = ending (calling nr w r) r.
Proof.
  exact (proj2 (metrics_ignore_method_query_headers
                  (fun (m : string) (u : URL) => String.eqb m "BAD METHOD")
                  (Sample.world
                     (Sample.answer 200 (Sample.reader Sample.stats_body)) None)
                  (Sample.generate (Sample.reader Sample.buffered_body)))
               "GET" "verbose=1" [] eq_refl).
Defined.

(** X18: [strconv.Itoa] gives different texts for different numbers, so
    that requests answered with different status codes are counted in
    different series of requests_total. *)
Theorem status_labels_differ (a b : Z) : a <> b -> Itoa a <> Itoa b.
Proof.
  unfold Itoa. intros Hab E. apply Hab.
  assert (E' : NilZero.int_of_string (NilZero.string_of_int (Z.to_int a))
               = NilZero.int_of_string (NilZero.string_of_int (Z.to_int b)))
    by (rewrite E; reflexivity).
  assert (Hnil : forall z, Z.to_int z <> Decimal.Pos Decimal.Nil
                          /\ Z.to_int z <> Decimal.Neg Decimal.Nil).
  { intros [|p|p]; cbn; split; try discriminate;
      intros [= E0]; exact (DecimalPos.Unsigned.to_uint_nonnil p E0). }
  rewrite !NilZero.isi in E' by apply Hnil. injection E' as E'.
  rewrite <- (DecimalZ.of_to a), <- (DecimalZ.of_to b), E'. reflexivity.
Qed.

Lemma status_labels_differ_witness : Itoa 200 <> Itoa 404.
Proof. apply (status_labels_differ 200 404). discriminate. Defined.

(** X19: the conversion of a count to [float64] is off by one part in
    2^53 at most: what a counter is incremented by differs from the number
    of bytes or tokens by no more than that number over 2^53. *)
Theorem float64_of_int_close (n : Z) :
  Z.abs (float64_of_int n - n) * 2 ^ 53 <= Z.abs n.
Proof.
  unfold float64_of_int.
  destruct (Z.leb_spec (Z.log2 (Z.abs n) - 52) 0) as [Hk | Hk].
  { rewrite Z.sub_diag. cbn. lia. }
  set (a := Z.abs n) in *. set (k := Z.log2 a - 52) in *.
  assert (Ha : 0 < a) by (destruct a; cbn in *; lia).
  assert (Hlog : 2 ^ (k + 52) <= a).
  { replace (k + 52) with (Z.log2 a) by (unfold k; lia).
    apply Z.log2_spec. exact Ha. }
  rewrite Z.shiftr_div_pow2, Z.land_ones, !Z.shiftl_mul_pow2 by lia.
  rewrite Z.mul_1_l.
  assert (HP : 2 ^ k = 2 * 2 ^ (k - 1)).
  { replace k with (1 + (k - 1)) at 1 by lia.
    rewrite Z.pow_add_r by lia. reflexivity. }
  assert (H52 : 2 ^ (k + 52) = 2 ^ 53 * 2 ^ (k - 1)).
  { replace (k + 52) with (53 + (k - 1)) by lia.
    rewrite Z.pow_add_r by lia. reflexivity. }
  assert (Hh : 0 < 2 ^ (k - 1)) by (apply Z.pow_pos_nonneg; lia).
  set (h := 2 ^ (k - 1)) in *.
  assert (Hdm := Z.div_mod a (2 ^ k) ltac:(lia)).
  assert (Hm := Z.mod_pos_bound a (2 ^ k) ltac:(lia)).
  set (q := a / 2 ^ k) in *. set (rm := a mod 2 ^ k) in *.
  assert (Hn : n = Z.sgn n * a) by (unfold a; destruct n; cbn; lia).
  assert (Hs : Z.sgn n = 1 \/ Z.sgn n = -1) by (destruct n; cbn in *; lia).
  set (m := 2 ^ k * q) in *.
  destruct ((h <? rm) || ((rm =? h) && Z.odd q)) eqn:Eup.
  - assert (Hr : h <= rm).
    { apply orb_true_iff in Eup as [E|E]; [apply Z.ltb_lt in E; lia|].
      apply andb_true_iff in E as [E _]. apply Z.eqb_eq in E. lia. }
    replace ((q + 1) * 2 ^ k) with (m + 2 ^ k) by (unfold m; ring).
    rewrite Hn at 2.
    replace (Z.sgn n * (m + 2 ^ k) - Z.sgn n * a)
      with (Z.sgn n * (m + 2 ^ k - a)) by ring.
    destruct Hs as [-> | ->]; lia.
  - assert (Hr : rm <= h).
    { apply orb_false_iff in Eup as [E _]. apply Z.ltb_ge in E. exact E. }
    replace (q * 2 ^ k) with m by (unfold m; ring).
    rewrite Hn at 2.
    replace (Z.sgn n * m - Z.sgn n * a) with (Z.sgn n * (m - a)) by ring.
    destruct Hs as [-> | ->]; lia.
Qed.

(** ** Bodies that spell JSON documents *)

(** *** Decimal integers *)

Lemma uint_digits (d : Decimal.uint) :
  forallb is_digit (bytes (NilEmpty.string_of_uint d)) = true.
Proof. induction d; cbn; try reflexivity; exact IHd. Qed.

Lemma digits_value_acc (d : Decimal.uint) (acc : positive) :
  fold_left (fun a c => 10 * a + Z.of_N (code c - 48))
    (bytes (NilEmpty.string_of_uint d)) (Z.pos acc)
  = Z.pos (Pos.of_uint_acc d acc).
Proof.
  revert acc. induction d; intros acc; cbn [NilEmpty.string_of_uint bytes
    list_ascii_of_string fold_left Pos.of_uint_acc]; try reflexivity;
    rewrite <- IHd; f_equal;
    match goal with
    | |- context [Z.of_N ?t] =>
      let v := eval vm_compute in (Z.of_N t) in change (Z.of_N t) with v
    end; lia.
Qed.

Lemma digits_value_uint (d : Decimal.uint) :
  digits_value (bytes (NilEmpty.string_of_uint d)) = Z.of_N (Pos.of_uint d).
Proof.
  unfold digits_value.
  induction d; cbn [NilEmpty.string_of_uint bytes list_ascii_of_string
                    fold_left Pos.of_uint]; try reflexivity;
    try exact IHd; apply (digits_value_acc d).
Qed.

Lemma to_uint_unorm (p : positive) :
  Decimal.unorm (Pos.to_uint p) = Pos.to_uint p.
Proof.
  rewrite <- DecimalPos.Unsigned.to_of, DecimalPos.Unsigned.of_to.
  reflexivity.
Qed.

Lemma to_uint_head (p : positive) (d : Decimal.uint) :
  Pos.to_uint p <> Decimal.D0 d.
Proof.
  intros E. assert (U := to_uint_unorm p).
  unfold Decimal.unorm in U.
  destruct (Decimal.nzhead (Pos.to_uint p)) eqn:En;
    try congruence.
  - apply (DecimalPos.Unsigned.to_uint_nonzero p). symmetry. exact U.
  - apply (DecimalFacts.nzhead_nonzero (Pos.to_uint p) u). congruence.
Qed.

Lemma NilZero_NilEmpty (p : positive) :
  NilZero.string_of_uint (Pos.to_uint p)
  = NilEmpty.string_of_uint (Pos.to_uint p).
Proof.
  unfold NilZero.string_of_uint.
  destruct (Pos.to_uint p) eqn:E; try reflexivity.
  exfalso. exact (DecimalPos.Unsigned.to_uint_nonnil p E).
Qed.

(** The decimal text of a positive number: digits, the first of them not
    a zero. *)
Lemma to_uint_digits (p : positive) :
  exists c t,
    bytes (NilEmpty.string_of_uint (Pos.to_uint p)) = c :: t /\
    is_digit c = true /\ (c =? "0")%char = false /\
    forallb is_digit t = true.
Proof.
  assert (Hd := uint_digits (Pos.to_uint p)).
  assert (Hh := to_uint_head p).
  assert (Hn := DecimalPos.Unsigned.to_uint_nonnil p).
  destruct (Pos.to_uint p) as [|d|d|d|d|d|d|d|d|d|d];
    try congruence; try (exfalso; exact (Hh d eq_refl));
    cbn in *; eexists _, _; (split; [reflexivity|]); auto.
Qed.

(** [strconv.ParseInt] reads back what [strconv.Itoa] writes. *)
Lemma ParseInt64_Itoa (n : Z) :
  - 2 ^ 63 <= n < 2 ^ 63 -> ParseInt64 (Itoa n) = Some n.
Proof.
  intros Hn. unfold Itoa, ParseInt64.
  destruct n as [|p|p]; [reflexivity| |];
    cbn [Z.to_int NilZero.string_of_int]; rewrite NilZero_NilEmpty;
    assert (Hv := digits_value_uint (Pos.to_uint p));
    rewrite DecimalPos.Unsigned.of_to in Hv; cbn [Z.of_N] in Hv;
    destruct (to_uint_digits p) as (c & t & E & Hc & H0 & Ht).
  - rewrite E in *.
    assert (Hs : (c =? "+")%char = false /\ (c =? "-")%char = false).
    { clear - Hc. destruct c as [[] [] [] [] [] [] [] []];
        try discriminate; split; reflexivity. }
    destruct Hs as [-> ->]. cbn [forallb]. rewrite Hc, Ht. cbn [andb].
    rewrite Hv. destruct (Z.ltb_spec (Z.pos p) (2 ^ 63)); [reflexivity | lia].
  - cbn [bytes list_ascii_of_string String.append].
    fold (bytes (NilEmpty.string_of_uint (Pos.to_uint p))).
    rewrite E in *.
    change ("-" =? "+")%char with false. change ("-" =? "-")%char with true.
    cbn [forallb]. rewrite Hc, Ht. cbn [andb]. rewrite Hv.
    destruct (Z.leb_spec (Z.pos p) (2 ^ 63)); [reflexivity | lia].
Qed.

(** *** Number literals *)

Lemma scan_value_number (fuel : nat) (d : N) (c : ascii) (l : list ascii) :
  starts_number c = true ->
  scan_value (S fuel) d (c :: l)
  = match scan_number (c :: l) with
    | Some (lit, r) => Scanned (JNumber (str lit)) r
    | None => SyntaxError
    end.
Proof.
  intros Hc.
  destruct c as [[] [] [] [] [] [] [] []]; try discriminate; reflexivity.
Qed.

Lemma inert_facts (c : ascii) :
  inert c = true ->
  is_digit c = false /\ (c =? ".")%char = false /\ (c =? "e")%char = false /\
  (c =? "E")%char = false /\ (c =? "+")%char = false /\ (c =? "-")%char = false.
Proof.
  unfold inert. intros H.
  repeat (apply andb_true_iff in H as [H ?]).
  repeat match goal with
         | H : negb _ = true |- _ => apply negb_true_iff in H
         end.
  repeat split; assumption.
Qed.

Lemma span_digits_inert (l : list ascii) (c : ascii) (t : list ascii) :
  inert c = true ->
  span_digits (l ++ c :: t)
  = (fst (span_digits l), snd (span_digits l) ++ c :: t).
Proof.
  intros Hc. destruct (inert_facts c Hc) as (Hd & _).
  induction l as [|a l IH]; cbn [app span_digits].
  - rewrite Hd. reflexivity.
  - destruct (is_digit a); [|reflexivity].
    rewrite IH. destruct (span_digits l). reflexivity.
Qed.

Lemma scan_int_inert (l ip r : list ascii) (c : ascii) (t : list ascii) :
  inert c = true -> scan_int l = Some (ip, r) ->
  scan_int (l ++ c :: t) = Some (ip, r ++ c :: t).
Proof.
  intros Hc. unfold scan_int. destruct l as [|a l]; [discriminate|].
  cbn [app]. destruct (a =? "0")%char.
  - intros [= <- <-]. reflexivity.
  - destruct (is_digit a); [|discriminate].
    rewrite (span_digits_inert l c t Hc). destruct (span_digits l).
    intros [= <- <-]. reflexivity.
Qed.

Lemma scan_frac_inert (l fp r : list ascii) (c : ascii) (t : list ascii) :
  inert c = true -> scan_frac l = Some (fp, r) ->
  scan_frac (l ++ c :: t) = Some (fp, r ++ c :: t).
Proof.
  intros Hc. destruct (inert_facts c Hc) as (_ & Hp & _).
  unfold scan_frac. destruct l as [|a l]; cbn [app].
  - rewrite Hp. intros [= <- <-]. reflexivity.
  - destruct (a =? ".")%char.
    + rewrite (span_digits_inert l c t Hc). destruct (span_digits l) as [[|d ds] r'].
      * discriminate.
      * intros [= <- <-]. reflexivity.
    + intros [= <- <-]. reflexivity.
Qed.

Lemma scan_exp_inert (l ep r : list ascii) (c : ascii) (t : list ascii) :
  inert c = true -> scan_exp l = Some (ep, r) ->
  scan_exp (l ++ c :: t) = Some (ep, r ++ c :: t).
Proof.
  intros Hc. destruct (inert_facts c Hc) as (Hd & _ & He & HE & Hplus & Hminus).
  unfold scan_exp. destruct l as [|a l]; cbn [app].
  - rewrite He, HE. intros [= <- <-]. reflexivity.
  - destruct ((a =? "e") || (a =? "E"))%char.
    + destruct l as [|d l]; cbn [app].
      * cbn. discriminate.
      * destruct ((d =? "+") || (d =? "-"))%char.
        -- rewrite (span_digits_inert l c t Hc).
           destruct (span_digits l) as [[|x ds] r']; [discriminate|].
           intros [= <- <-]. reflexivity.
        -- change (d :: l ++ c :: t) with ((d :: l) ++ c :: t).
           rewrite (span_digits_inert (d :: l) c t Hc).
           destruct (span_digits (d :: l)) as [[|x ds] r']; [discriminate|].
           intros [= <- <-]. reflexivity.
    + intros [= <- <-]. reflexivity.
Qed.

Lemma scan_number_inert (l lit r : list ascii) (c : ascii) (t : list ascii) :
  inert c = true -> scan_number l = Some (lit, r) ->
  scan_number (l ++ c :: t) = Some (lit, r ++ c :: t).
Proof.
  intros Hc. destruct (inert_facts c Hc) as (Hd & _ & _ & _ & _ & Hminus).
  unfold scan_number.
  assert (Hgo : forall sg s1,
             match scan_int s1 with
             | Some (ip, r1) =>
               match scan_frac r1 with
               | Some (fp, r2) =>
                 match scan_exp r2 with
                 | Some (ep, r3) => Some (sg ++ ip ++ fp ++ ep, r3)
                 | None => None
                 end
               | None => None
               end
             | None => None
             end = Some (lit, r) ->
             match scan_int (s1 ++ c :: t) with
             | Some (ip, r1) =>
               match scan_frac r1 with
               | Some (fp, r2) =>
                 match scan_exp r2 with
                 | Some (ep, r3) => Some (sg ++ ip ++ fp ++ ep, r3)
                 | None => None
                 end
               | None => None
               end
             | None => None
             end = Some (lit, r ++ c :: t)).
  { intros sg s1.
    destruct (scan_int s1) as [[ip r1]|] eqn:E1; [|discriminate].
    rewrite (scan_int_inert _ _ _ c t Hc E1).
    destruct (scan_frac r1) as [[fp r2]|] eqn:E2; [|discriminate].
    rewrite (scan_frac_inert _ _ _ c t Hc E2).
    destruct (scan_exp r2) as [[ep r3]|] eqn:E3; [|discriminate].
    rewrite (scan_exp_inert _ _ _ c t Hc E3).
    intros [= <- <-]. reflexivity. }
  destruct l as [|a l]; cbn [app].
  - cbn. discriminate.
  - destruct (a =? "-")%char.
    + apply (Hgo [a] l).
    + apply (Hgo [] (a :: l)).
Qed.

Lemma span_digits_whole (s : list ascii) :
  s = fst (span_digits s) ++ snd (span_digits s).
Proof.
  induction s as [|c s IH]; cbn [span_digits]; [reflexivity|].
  destruct (is_digit c); [|reflexivity].
  destruct (span_digits s). cbn in *. rewrite <- IH. reflexivity.
Qed.

Lemma scan_number_whole (s lit r : list ascii) :
  scan_number s = Some (lit, r) -> s = lit ++ r.
Proof.
  unfold scan_number.
  assert (Hint : forall s ip r, scan_int s = Some (ip, r) -> s = ip ++ r).
  { intros [|a l] ip r0; cbn; [discriminate|].
    destruct (a =? "0")%char; [intros [= <- <-]; reflexivity|].
    destruct (is_digit a); [|discriminate].
    pose proof (span_digits_whole l) as W. destruct (span_digits l).
    intros [= <- <-]. cbn in *. rewrite <- W. reflexivity. }
  assert (Hfrac : forall s fp r, scan_frac s = Some (fp, r) -> s = fp ++ r).
  { intros [|a l] fp r0; cbn; [intros [= <- <-]; reflexivity|].
    destruct (a =? ".")%char; [|intros [= <- <-]; reflexivity].
    pose proof (span_digits_whole l) as W.
    destruct (span_digits l) as [[|d ds] r']; [discriminate|].
    intros [= <- <-]. cbn in *. rewrite <- W. reflexivity. }
  assert (Hexp : forall s ep r, scan_exp s = Some (ep, r) -> s = ep ++ r).
  { intros [|a l] ep r0; cbn [scan_exp]; [intros [= <- <-]; reflexivity|].
    destruct ((a =? "e") || (a =? "E"))%char; [|intros [= <- <-]; reflexivity].
    destruct l as [|d l].
    - cbn. discriminate.
    - destruct ((d =? "+") || (d =? "-"))%char.
      + pose proof (span_digits_whole l) as W.
        destruct (span_digits l) as [[|x ds] r']; [discriminate|].
        intros [= <- <-]. cbn in *. rewrite <- W. reflexivity.
      + pose proof (span_digits_whole (d :: l)) as W.
        destruct (span_digits (d :: l)) as [[|x ds] r']; [discriminate|].
        intros [= <- <-]. cbn in *. rewrite <- W. reflexivity. }
  assert (Hgo : forall sg s1,
             match scan_int s1 with
             | Some (ip, r1) =>
               match scan_frac r1 with
               | Some (fp, r2) =>
                 match scan_exp r2 with
                 | Some (ep, r3) => Some (sg ++ ip ++ fp ++ ep, r3)
                 | None => None
                 end
               | None => None
               end
             | None => None
             end = Some (lit, r) -> sg ++ s1 = lit ++ r).
  { intros sg s1.
    destruct (scan_int s1) as [[ip r1]|] eqn:E1; [|discriminate].
    destruct (scan_frac r1) as [[fp r2]|] eqn:E2; [|discriminate].
    destruct (scan_exp r2) as [[ep r3]|] eqn:E3; [|discriminate].
    intros [= <- <-].
    rewrite (Hint _ _ _ E1), (Hfrac _ _ _ E2), (Hexp _ _ _ E3).
    rewrite <- !app_assoc. reflexivity. }
  destruct s as [|a l].
  - cbn. discriminate.
  - destruct (a =? "-")%char.
    + intros H. apply (Hgo [a] l H).
    + intros H. apply (Hgo [] (a :: l) H).
Qed.

Lemma scan_number_starts (c : ascii) (l lit r : list ascii) :
  scan_number (c :: l) = Some (lit, r) -> starts_number c = true.
Proof.
  unfold scan_number, starts_number.
  destruct (c =? "-")%char eqn:Em; [intros _; apply orb_true_r|].
  unfold scan_int. destruct (c =? "0")%char eqn:E0.
  - apply Ascii.eqb_eq in E0. subst c. reflexivity.
  - destruct (is_digit c); [reflexivity | discriminate].
Qed.

Lemma number_ok_scans (lit : string) (rest : list ascii) :
  number_ok lit = true -> ends_value rest ->
  exists c t,
    bytes lit = c :: t /\ starts_number c = true /\
    scan_number (bytes lit ++ rest) = Some (bytes lit, rest).
Proof.
  unfold number_ok. intros H Hr.
  destruct (scan_number (bytes lit)) as [[l [|? ?]]|] eqn:E; try discriminate.
  assert (W := scan_number_whole _ _ _ E). rewrite app_nil_r in W. subst l.
  destruct (bytes lit) as [|c t] eqn:Eb; [cbn in E; discriminate|].
  exists c, t. split; [reflexivity|].
  split; [exact (scan_number_starts _ _ _ _ E)|].
  destruct rest as [|c' t'].
  - rewrite app_nil_r. exact E.
  - apply (scan_number_inert _ _ _ c' t' Hr E).
Qed.

(** *** String literals *)

Lemma plain_byte_facts (c : ascii) :
  plain_byte c = true ->
  Ascii.eqb c dquote = false /\ (c =? "\")%char = false /\
  (code c <? 32)%N = false /\ (code c <? 128)%N = true.
Proof.
  unfold plain_byte. intros H.
  apply andb_true_iff in H as [H H4]. apply andb_true_iff in H as [H H3].
  apply andb_true_iff in H as [H1 H2].
  apply negb_true_iff in H3, H4. apply N.leb_le in H1. apply N.ltb_lt in H2.
  repeat split; try assumption.
  - apply N.ltb_ge. exact H1.
  - apply N.ltb_lt. lia.
Qed.

Lemma unquote_aux_plain (l : list ascii) (fuel : nat) :
  forallb plain_byte l = true -> (List.length l < fuel)%nat ->
  unquote_aux fuel l = Some l.
Proof.
  revert fuel. induction l as [|c l IH]; intros fuel H Hf;
    (destruct fuel as [|fuel]; [cbn in Hf; lia|]).
  - reflexivity.
  - cbn [forallb] in H. apply andb_true_iff in H as [Hc Hl].
    destruct (plain_byte_facts c Hc) as (H1 & H2 & H3 & H4).
    cbn [unquote_aux]. rewrite H2, H1, H3, H4. cbn [orb].
    rewrite (IH fuel Hl) by (cbn in Hf; lia). reflexivity.
Qed.

Lemma unquote_plain (s : string) : plain s = true -> unquote (bytes s) = Some s.
Proof.
  intros H. unfold unquote. rewrite (unquote_aux_plain _ _ H) by lia.
  cbn. rewrite str_bytes. reflexivity.
Qed.

Lemma backslash_not_dquote : Ascii.eqb "\" dquote = false.
Proof. reflexivity. Qed.

Lemma scan_string_complete (n : nat) (raw rest : list ascii) :
  (List.length raw <= n)%nat -> well_escaped raw = true ->
  scan_string (raw ++ dquote :: rest) = Some (raw, rest).
Proof.
  revert raw. induction n as [|n IH]; intros raw Hn Hw.
  - destruct raw; [|cbn in Hn; lia]. cbn. reflexivity.
  - destruct raw as [|c t]; [cbn; reflexivity|].
    cbn [well_escaped] in Hw. cbn [app scan_string].
    destruct (c =? "\")%char eqn:Eb.
    + apply Ascii.eqb_eq in Eb. subst c. rewrite backslash_not_dquote.
      destruct t as [|e t1]; [discriminate|]. cbn [app].
      destruct (is_simple_escape e).
      * rewrite (IH t1) by (cbn in Hn; lia || exact Hw). reflexivity.
      * destruct (e =? "u")%char; [|discriminate].
        destruct t1 as [|h1 [|h2 [|h3 [|h4 t2]]]]; try discriminate.
        cbn [app].
        apply andb_true_iff in Hw as [Hh Hw]. rewrite Hh.
        rewrite (IH t2) by (cbn in Hn; lia || exact Hw). reflexivity.
    + destruct (Ascii.eqb c dquote); [discriminate|].
      destruct (code c <? 32)%N; [discriminate|]. cbn [orb] in Hw.
      rewrite (IH t) by (cbn in Hn; lia || exact Hw). reflexivity.
Qed.

Lemma unquote_decoded (raw : string) :
  well_escaped (bytes raw) = true -> unquote (bytes raw) = Some (decoded raw).
Proof.
  intros Hw. unfold decoded, unquote.
  destruct (unquote_aux_total (S (List.length (bytes raw))) (bytes raw))
    as [out E]; [lia | exact Hw |].
  rewrite E. reflexivity.
Qed.

Lemma scan_key_complete (k : string) (rest : list ascii) :
  well_escaped (bytes k) = true ->
  scan_key (bytes k ++ dquote :: rest) = Some (decoded k, rest).
Proof.
  intros Hw. unfold scan_key.
  rewrite (scan_string_complete _ _ rest (le_n _) Hw), (unquote_decoded k Hw).
  reflexivity.
Qed.

(** *** White space *)

Lemma skip_space_app (ws s : list ascii) :
  forallb is_space ws = true -> skip_space (ws ++ s) = skip_space s.
Proof.
  induction ws as [|c ws IH]; cbn [forallb app skip_space]; [reflexivity|].
  intros H. apply andb_true_iff in H as [-> H]. apply IH, H.
Qed.

Lemma scan_value_skip (fuel : nat) (dp : N) (ws s : list ascii) :
  forallb is_space ws = true ->
  scan_value fuel dp (ws ++ s) = scan_value fuel dp s.
Proof.
  intros H. destruct fuel as [|fuel]; [reflexivity|].
  cbn [scan_value]. rewrite (skip_space_app ws s H). reflexivity.
Qed.

Lemma scan_members_skip (fuel : nat) (dp : N) (ws s : list ascii) :
  forallb is_space ws = true ->
  scan_members fuel dp (ws ++ s) = scan_members fuel dp s.
Proof.
  intros H. destruct fuel as [|fuel]; [reflexivity|].
  cbn [scan_members]. rewrite (skip_space_app ws s H). reflexivity.
Qed.

Lemma starts_number_value (c : ascii) :
  starts_number c = true -> starts_value c = true.
Proof.
  destruct c as [[] [] [] [] [] [] [] []]; try discriminate; reflexivity.
Qed.

Lemma text_of_doc_starts (ws : list ascii) (d : doc) :
  wf d = true ->
  exists c t, text_of_doc ws d = c :: t /\ starts_value c = true.
Proof.
  destruct d as [|[|]|lit|raw|ds|ms]; intros Hw;
    try (eexists _, _; split; reflexivity).
  cbn [wf text_of_doc] in *.
  destruct (number_ok_scans lit [] Hw I) as (c & t & E & Hc & _).
  exists c, t. split; [exact E | apply starts_number_value, Hc].
Qed.

Lemma skip_space_starts (c : ascii) (t : list ascii) :
  starts_value c = true -> skip_space (c :: t) = c :: t.
Proof.
  unfold starts_value. intros H.
  repeat (apply andb_true_iff in H as [H ?]).
  apply negb_true_iff in H. cbn [skip_space]. rewrite H. reflexivity.
Qed.

(** *** Documents *)

(** Induction on a document, with the property at hand for the elements
    of an array and the members of an object. *)
Section doc_induction.
Variable P : doc -> Prop.
Hypothesis HNull : P DNull.
Hypothesis HBool : forall b, P (DBool b).
Hypothesis HNumber : forall lit, P (DNumber lit).
Hypothesis HString : forall raw, P (DString raw).
Hypothesis HArray : forall ds, Forall P ds -> P (DArray ds).
Hypothesis HObject :
  forall ms, Forall (fun kv => P (snd kv)) ms -> P (DObject ms).

Fixpoint doc_induction (d : doc) : P d :=
  match d with
  | DNull => HNull
  | DBool b => HBool b
  | DNumber lit => HNumber lit
  | DString raw => HString raw
  | DArray ds =>
    HArray ds
      ((fix all (l : list doc) : Forall P l :=
          match l with
          | [] => Forall_nil P
          | x :: t => Forall_cons x (doc_induction x) (all t)
          end) ds)
  | DObject ms =>
    HObject ms
      ((fix all (l : list (string * doc))
          : Forall (fun kv => P (snd kv)) l :=
          match l with
          | [] => Forall_nil _
          | x :: t => Forall_cons x (doc_induction (snd x)) (all t)
          end) ms)
  end.
End doc_induction.

Lemma scan_elements_skip (fuel : nat) (dp : N) (ws s : list ascii) :
  forallb is_space ws = true ->
  scan_elements fuel dp (ws ++ s) = scan_elements fuel dp s.
Proof.
  intros H. destruct fuel as [|fuel]; [reflexivity|].
  cbn [scan_elements]. rewrite (scan_value_skip fuel dp ws s H). reflexivity.
Qed.

Section Documents.

Variable ws : list ascii.
Hypothesis Hws : forallb is_space ws = true.

Let sep : list ascii := ","%char :: ws.

Lemma text_nonempty (d : doc) :
  wf d = true -> (1 <= List.length (text_of_doc ws d))%nat.
Proof.
  intros H. destruct (text_of_doc_starts ws d H) as (c & t & -> & _).
  cbn. lia.
Qed.

Lemma scan_elements_docs (ds : list doc) :
  ds <> [] ->
  Forall (fun d => wf d = true -> scans ws d) ds ->
  forallb wf ds = true ->
  forall fuel dp rest,
    (2 * List.length (join sep (map (text_of_doc ws) ds)) + 2 <= fuel)%nat ->
    (dp + fold_right (fun d acc => N.max (depth d) acc) 0%N ds
     <= maxNestingDepth)%N ->
    scan_elements fuel dp
      (join sep (map (text_of_doc ws) ds) ++ "]"%char :: rest)
    = Scanned (map value_of_doc ds) rest.
Proof.
  induction ds as [|d ds IH]; [congruence|].
  intros _ Hall Hwf fuel dp rest Hf Hd.
  inversion Hall as [|? ? Hd1 Hall']; subst.
  cbn [forallb] in Hwf. apply andb_true_iff in Hwf as [Hw1 Hwf].
  specialize (Hd1 Hw1). unfold scans in Hd1.
  cbn [fold_right] in Hd.
  destruct fuel as [|fuel]; [lia|].
  assert (Hn1 := text_nonempty d Hw1).
  destruct ds as [|d2 ds].
  - cbn [map join] in *. cbn [scan_elements].
    rewrite (Hd1 fuel dp ("]"%char :: rest)) by (lia || reflexivity).
    reflexivity.
  - change (join sep (map (text_of_doc ws) (d :: d2 :: ds)))
      with (text_of_doc ws d ++ sep
              ++ join sep (map (text_of_doc ws) (d2 :: ds))) in *.
    set (J := join sep (map (text_of_doc ws) (d2 :: ds))) in *.
    rewrite !length_app in Hf. unfold sep in *. cbn [List.length] in Hf.
    rewrite <- !app_assoc. cbn [app]. cbn [scan_elements].
    rewrite (Hd1 fuel dp (","%char :: ws ++ J ++ "]"%char :: rest))
      by (lia || reflexivity).
    cbn [skip_space]. change (is_space ",") with false. cbn iota.
    change ("," =? "]")%char with false. change ("," =? ",")%char with true.
    cbn iota.
    rewrite (scan_elements_skip fuel dp ws _ Hws).
    rewrite IH by (try discriminate; try assumption; cbn [fold_right] in *; lia).
    reflexivity.
Qed.

Lemma scan_members_docs (ms : list (string * doc)) :
  ms <> [] ->
  Forall (fun kv => wf (snd kv) = true -> scans ws (snd kv)) ms ->
  forallb (fun kv => well_escaped (bytes (fst kv)) && wf (snd kv)) ms = true ->
  forall fuel dp rest,
    (2 * List.length (join sep (map (member_text ws) ms)) + 2 <= fuel)%nat ->
    (dp + fold_right (fun kv acc => N.max (depth (snd kv)) acc) 0%N ms
     <= maxNestingDepth)%N ->
    scan_members fuel dp
      (join sep (map (member_text ws) ms) ++ "}"%char :: rest)
    = Scanned (map (fun kv => (decoded (fst kv), value_of_doc (snd kv))) ms)
        rest.
Proof.
  induction ms as [|[k v] ms IH]; [congruence|].
  intros _ Hall Hwf fuel dp rest Hf Hd.
  inversion Hall as [|? ? Hd1 Hall']; subst.
  cbn [forallb fst snd] in Hwf. apply andb_true_iff in Hwf as [Hw1 Hwf].
  apply andb_true_iff in Hw1 as [Hk Hw1].
  cbn [snd] in Hd1. specialize (Hd1 Hw1). unfold scans in Hd1.
  cbn [fold_right snd] in Hd.
  destruct fuel as [|fuel]; [lia|].
  assert (Hn1 := text_nonempty v Hw1).
  assert (Hstep : forall tail,
             (2 * List.length (text_of_doc ws v) + 1 <= fuel)%nat ->
             ends_value tail ->
             scan_members (S fuel) dp ((member_text ws) (k, v) ++ tail)
             = match skip_space tail with
               | c2 :: t2 =>
                 if (c2 =? "}")%char
                 then Scanned [(decoded k, value_of_doc v)] t2
                 else if (c2 =? ",")%char then
                   match scan_members fuel dp t2 with
                   | Scanned ms' r' =>
                     Scanned ((decoded k, value_of_doc v) :: ms') r'
                   | SyntaxError => SyntaxError
                   | OutOfFuel => OutOfFuel
                   end
                 else SyntaxError
               | [] => SyntaxError
               end).
  { intros tail Hfu Ht. unfold member_text. cbn [fst snd app].
    rewrite <- !app_assoc. cbn [app]. rewrite <- !app_assoc.
    cbn [scan_members skip_space].
    change (is_space dquote) with false. cbn iota.
    rewrite Ascii.eqb_refl.
    rewrite (scan_key_complete k _ Hk).
    cbn [skip_space]. change (is_space ":") with false. cbn iota.
    change (":" =? ":")%char with true. cbn iota.
    rewrite (scan_value_skip fuel dp ws _ Hws).
    rewrite (Hd1 fuel dp tail) by (lia || assumption).
    reflexivity. }
  destruct ms as [|kv2 ms].
  - cbn [map join] in *.
    unfold member_text in Hf. cbn [fst snd] in Hf.
    cbn [List.length] in Hf. rewrite !length_app in Hf.
    cbn [List.length] in Hf. rewrite !length_app in Hf.
    rewrite Hstep by (lia || reflexivity).
    reflexivity.
  - change (join sep (map (member_text ws) ((k, v) :: kv2 :: ms)))
      with ((member_text ws) (k, v) ++ sep
              ++ join sep (map (member_text ws) (kv2 :: ms))) in *.
    set (J := join sep (map (member_text ws) (kv2 :: ms))) in *.
    rewrite !length_app in Hf. unfold sep in *. cbn [List.length] in Hf.
    unfold member_text in Hf at 1. cbn [fst snd] in Hf.
    cbn [List.length] in Hf. rewrite !length_app in Hf.
    cbn [List.length] in Hf. rewrite !length_app in Hf.
    rewrite <- !app_assoc. cbn [app].
    rewrite Hstep by (lia || reflexivity).
    cbn [skip_space]. change (is_space ",") with false. cbn iota.
    change ("," =? "}")%char with false. change ("," =? ",")%char with true.
    cbn iota.
    rewrite (scan_members_skip fuel dp ws _ Hws).
    rewrite IH by (try discriminate; try assumption; cbn [fold_right] in *; lia).
    reflexivity.
Qed.

Lemma join_starts {A : Type} (f : A -> list ascii) (l : list A) :
  l <> [] ->
  (forall a, In a l -> exists c t, f a = c :: t /\ starts_value c = true) ->
  exists c t, join sep (map f l) = c :: t /\ starts_value c = true.
Proof.
  destruct l as [|a [|a2 l]]; [congruence| |]; intros _ H;
    destruct (H a (or_introl eq_refl)) as (c & t & E & Hc).
  - exists c, t. cbn. split; assumption.
  - change (join sep (map f (a :: a2 :: l)))
      with (f a ++ sep ++ join sep (map f (a2 :: l))).
    rewrite E. eexists _, _. split; [reflexivity | exact Hc].
Qed.

Lemma scan_doc (d : doc) : wf d = true -> scans ws d.
Proof.
  induction d as [| b | lit | raw | ds IH | ms IH] using doc_induction;
    intros Hw fuel dp rest Hf Hd Hr;
    (destruct fuel as [|fuel]; [lia|]).
  - reflexivity.
  - destruct b; reflexivity.
  - cbn [wf text_of_doc value_of_doc] in *.
    destruct (number_ok_scans lit rest Hw Hr) as (c & t & E & Hc & Hs).
    rewrite E in *. cbn [app] in *.
    rewrite (scan_value_number fuel dp c _ Hc), Hs, <- E, str_bytes.
    reflexivity.
  - cbn [wf text_of_doc value_of_doc] in *.
    cbn [app]. rewrite <- app_assoc. cbn [app].
    cbn [scan_value skip_space]. change (is_space dquote) with false.
    cbn iota. change (dquote =? "[")%char with false.
    change (dquote =? "{")%char with false. cbn iota.
    cbn [scan_literal]. rewrite Ascii.eqb_refl.
    rewrite (scan_string_complete _ _ rest (le_n _) Hw).
    rewrite (unquote_decoded raw Hw). reflexivity.
  - cbn [wf text_of_doc value_of_doc depth] in *.
    cbn [app]. rewrite <- app_assoc. cbn [app].
    cbn [scan_value skip_space]. change (is_space "[") with false.
    cbn iota. change ("[" =? "[")%char with true. cbn iota.
    destruct (N.leb_spec maxNestingDepth dp) as [Hdp|Hdp]; [lia|].
    destruct ds as [|d ds].
    + reflexivity.
    + destruct (join_starts (text_of_doc ws) (d :: ds)) as (c & t & E & Hc);
        [discriminate | |].
      { intros a Ha. apply text_of_doc_starts.
        apply (proj1 (forallb_forall wf (d :: ds)) Hw a Ha). }
      assert (Hs := scan_elements_docs (d :: ds) ltac:(discriminate)
                      IH Hw fuel (N.succ dp) rest).
      cbn [List.length] in Hf. rewrite length_app in Hf.
      cbn [List.length] in Hf.
      unfold sep in *.
      rewrite Hs by lia. clear Hs.
      rewrite E. cbn [app]. rewrite (skip_space_starts c _ Hc).
      unfold starts_value in Hc.
      repeat (apply andb_true_iff in Hc as [Hc ?]).
      repeat match goal with
             | H : negb _ = true |- _ => apply negb_true_iff in H
             end.
      match goal with H : (c =? "]")%char = false |- _ => rewrite H end.
      reflexivity.
  - cbn [wf text_of_doc value_of_doc depth] in *.
    fold (member_text ws) in *.
    change (fun kv : string * doc =>
              dquote :: bytes (fst kv) ++ dquote :: ":"%char
                :: ws ++ text_of_doc ws (snd kv))
      with (member_text ws) in *.
    cbn [app]. rewrite <- app_assoc. cbn [app].
    cbn [scan_value skip_space]. change (is_space "{") with false.
    cbn iota. change ("{" =? "[")%char with false.
    change ("{" =? "{")%char with true. cbn iota.
    destruct (N.leb_spec maxNestingDepth dp) as [Hdp|Hdp]; [lia|].
    destruct ms as [|kv ms].
    + reflexivity.
    + destruct (join_starts (member_text ws) (kv :: ms)) as (c & t & E & Hc);
        [discriminate | |].
      { intros a _. unfold member_text. eexists _, _.
        split; reflexivity. }
      assert (Hs := scan_members_docs (kv :: ms) ltac:(discriminate)
                      IH Hw fuel (N.succ dp) rest).
      cbn [List.length] in Hf. rewrite length_app in Hf.
      cbn [List.length] in Hf.
      unfold sep in *.
      rewrite Hs by lia. clear Hs.
      rewrite E. cbn [app]. rewrite (skip_space_starts c _ Hc).
      unfold starts_value in Hc.
      repeat (apply andb_true_iff in Hc as [Hc ?]).
      repeat match goal with
             | H : negb _ = true |- _ => apply negb_true_iff in H
             end.
      match goal with H : (c =? "}")%char = false |- _ => rewrite H end.
      reflexivity.
Qed.

(** [parse] on the text of a well-formed document. *)
Lemma parse_doc (d : doc) :
  wf d = true -> (depth d <= maxNestingDepth)%N ->
  parse (str (text_of_doc ws d)) = Some (value_of_doc d).
Proof.
  intros Hw Hd. unfold parse. rewrite bytes_str.
  assert (H := scan_doc d Hw (fuel_for (List.length (text_of_doc ws d))) 0%N []).
  rewrite app_nil_r in H. rewrite H; [reflexivity| | |exact I].
  - unfold fuel_for. lia.
  - lia.
Qed.

End Documents.
(** *** Bodies *)

Lemma acceptable_parse (ws : list ascii) (d : doc) :
  forallb is_space ws = true -> acceptable d = true ->
  parse (body_of ws d) = Some (value_of_doc d).
Proof.
  unfold acceptable, body_of. intros Hws H.
  apply andb_true_iff in H as [Hw Hd]. apply N.leb_le in Hd.
  apply (parse_doc ws Hws d Hw Hd).
Qed.

Lemma span_digits_all (ds : list ascii) :
  forallb is_digit ds = true -> span_digits ds = (ds, []).
Proof.
  induction ds as [|c ds IH]; cbn [forallb span_digits]; [reflexivity|].
  intros H. apply andb_true_iff in H as [-> H]. rewrite (IH H). reflexivity.
Qed.

Lemma number_ok_digits (c : ascii) (t : list ascii) :
  is_digit c = true -> (c =? "0")%char = false ->
  forallb is_digit t = true ->
  scan_number (c :: t) = Some (c :: t, []) /\
  scan_number ("-"%char :: c :: t) = Some ("-"%char :: c :: t, []).
Proof.
  intros Hc H0 Ht.
  assert (Hm : (c =? "-")%char = false).
  { clear - Hc. destruct c as [[] [] [] [] [] [] [] []];
      try discriminate; reflexivity. }
  unfold scan_number. rewrite Hm.
  change ("-" =? "-")%char with true. cbn iota.
  unfold scan_int. rewrite H0, Hc, (span_digits_all t Ht).
  cbn. rewrite !app_nil_r. split; reflexivity.
Qed.

(** The decimal text of an integer is a number literal. *)
Lemma number_ok_Itoa (n : Z) : number_ok (Itoa n) = true.
Proof.
  unfold number_ok, Itoa.
  destruct n as [|p|p]; cbn [Z.to_int NilZero.string_of_int];
    [reflexivity| |]; rewrite NilZero_NilEmpty;
    destruct (to_uint_digits p) as (c & t & E & Hc & H0 & Ht);
    destruct (number_ok_digits c t Hc H0 Ht) as [E1 E2].
  - rewrite E, E1. reflexivity.
  - cbn [bytes list_ascii_of_string String.append].
    fold (bytes (NilEmpty.string_of_uint (Pos.to_uint p))).
    rewrite E, E2. reflexivity.
Qed.

Lemma decoded_plain (s : string) : plain s = true -> decoded s = s.
Proof. intros H. unfold decoded. rewrite (unquote_plain s H). reflexivity. Qed.

Lemma store_RequestPayload_beside (ms : list (string * doc))
  (acc : RequestPayload * bool) :
  beside ["model"; "stream"] ms = true ->
  fold_left store_RequestPayload (map member_value ms) acc = acc.
Proof.
  revert acc. induction ms as [|[k v] ms IH]; intros [p e] H; [reflexivity|].
  cbn [beside forallb fst] in H.
  apply andb_true_iff in H as [Hk H].
  apply andb_true_iff in Hk as [H1 Hk]. apply andb_true_iff in Hk as [H2 _].
  apply negb_true_iff in H1, H2.
  cbn [map fold_left member_value fst snd store_RequestPayload].
  rewrite H1, H2. apply IH, H.
Qed.

Lemma store_OllamaResponseMetrics_beside (ms : list (string * doc))
  (acc : OllamaResponseMetrics * bool) :
  beside ["eval_count"; "prompt_eval_count"] ms = true ->
  fold_left store_OllamaResponseMetrics (map member_value ms) acc = acc.
Proof.
  revert acc. induction ms as [|[k v] ms IH]; intros [p e] H; [reflexivity|].
  cbn [beside forallb fst] in H.
  apply andb_true_iff in H as [Hk H].
  apply andb_true_iff in Hk as [H1 Hk]. apply andb_true_iff in Hk as [H2 _].
  apply negb_true_iff in H1, H2.
  cbn [map fold_left member_value fst snd store_OllamaResponseMetrics].
  rewrite H1, H2. apply IH, H.
Qed.

(** Two members that hold no array and no object, put among the members
    [a], [b] and [c], leave the object acceptable. *)
Lemma members_depth (a b : list (string * doc)) (kv : string * doc) :
  depth (snd kv) = 0%N ->
  fold_right (fun kv acc => N.max (depth (snd kv)) acc) 0%N (a ++ kv :: b)
  = fold_right (fun kv acc => N.max (depth (snd kv)) acc) 0%N (a ++ b).
Proof.
  intros H. induction a as [|x a IH]; cbn [app fold_right].
  - rewrite H. apply N.max_0_l.
  - rewrite IH. reflexivity.
Qed.

Lemma acceptable_with (a b c : list (string * doc)) (kv1 kv2 : string * doc) :
  acceptable (DObject (a ++ b ++ c)) = true ->
  well_escaped (bytes (fst kv1)) && wf (snd kv1) = true ->
  well_escaped (bytes (fst kv2)) && wf (snd kv2) = true ->
  depth (snd kv1) = 0%N -> depth (snd kv2) = 0%N ->
  acceptable (DObject (a ++ kv1 :: b ++ kv2 :: c)) = true.
Proof.
  unfold acceptable. cbn [wf depth]. intros H H1 H2 D1 D2.
  apply andb_true_iff in H as [Hw Hd].
  rewrite !forallb_app in Hw.
  apply andb_true_iff in Hw as [Ha Hw]. apply andb_true_iff in Hw as [Hb Hc].
  apply andb_true_iff. split.
  - rewrite forallb_app. cbn [forallb]. rewrite forallb_app. cbn [forallb].
    rewrite Ha, Hb, Hc, H1, H2. reflexivity.
  - rewrite (members_depth a (b ++ kv2 :: c) kv1 D1).
    rewrite app_assoc, (members_depth (a ++ b) c kv2 D2), <- app_assoc.
    exact Hd.
Qed.

(** X20: a request body that spells a JSON object with one [model] string
    and one [stream] boolean is decoded without error and labelled with
    that model (unknown when it is empty) and that stream flag.  The other
    members may be any JSON values, nested ones included; the text may be
    compact or have white space behind its commas and colons.  A model name
    in plain ASCII is the label as it is written. *)
Theorem request_labels_round_trip
  (ws : list ascii) (raw : string) (s : bool)
  (a b c : list (string * doc)) :
  let d := DObject (a ++ ("model", DString raw) :: b
                      ++ ("stream", DBool s) :: c) in
  forallb is_space ws = true ->
  acceptable (DObject (a ++ b ++ c)) = true ->
  well_escaped (bytes raw) = true ->
  beside ["model"; "stream"] (a ++ b ++ c) = true ->
  Unmarshal_RequestPayload (body_of ws d) RequestPayload_zero
  = ({| Model := decoded raw; Stream := Some s |}, false) /\
  model_of (body_of ws d)
  = (if String.eqb (decoded raw) EmptyString then "unknown"
     else decoded raw) /\
  stream_of (body_of ws d) = s /\
  streamLabel_of (body_of ws d) = (if s then "true" else "false") /\
  (plain raw = true -> decoded raw = raw).
Proof.
  intros d Hws Hacc Hraw Hb.
  unfold beside in Hb. rewrite !forallb_app in Hb.
  apply andb_true_iff in Hb as [Ha Hb]. apply andb_true_iff in Hb as [Hb Hc].
  assert (Hd : acceptable d = true).
  { apply acceptable_with;
      first [ assumption | reflexivity
            | cbn [fst snd wf]; rewrite Hraw; reflexivity ]. }
  assert (E : Unmarshal_RequestPayload (body_of ws d) RequestPayload_zero
              = ({| Model := decoded raw; Stream := Some s |}, false)).
  { unfold Unmarshal_RequestPayload.
    rewrite (acceptable_parse ws d Hws Hd). subst d. cbn [value_of_doc].
    change (map (fun kv : string * doc =>
                   (decoded (fst kv), value_of_doc (snd kv))))
      with (map member_value).
    rewrite map_app, fold_left_app.
    rewrite (store_RequestPayload_beside a _ Ha).
    cbn [map]. cbn [fold_left]. rewrite map_app, fold_left_app.
    change (store_RequestPayload (RequestPayload_zero, false)
              (member_value ("model", DString raw)))
      with ({| Model := decoded raw; Stream := None |}, false).
    rewrite (store_RequestPayload_beside b _ Hb).
    cbn [map fold_left].
    change (store_RequestPayload
              ({| Model := decoded raw; Stream := None |}, false)
              (member_value ("stream", DBool s)))
      with ({| Model := decoded raw; Stream := Some s |}, false).
    apply (store_RequestPayload_beside c _ Hc). }
  split; [exact E|].
  unfold streamLabel_of, stream_of, model_of, payload_of. rewrite E. cbn.
  repeat split; [destruct s; reflexivity | apply decoded_plain].
Qed.

Lemma request_labels_round_trip_witness :
  let d := DObject [("model", DString "llama3:8b");
                    ("messages",
                     DArray [DObject [("role", DString "user");
                                      ("content", DString "Hi\nthere")]]);
                    ("options", DObject [("temperature", DNumber "0.7")]);
                    ("stream", DBool false);
                    ("keep_alive", DNumber "300")] in
  let body := body_of [" "%char] d in
  Unmarshal_RequestPayload body RequestPayload_zero
  = ({| Model := "llama3:8b"; Stream := Some false |}, false) /\
  model_of body = "llama3:8b" /\
  stream_of body = false /\
  streamLabel_of body = "false".
Proof.
  destruct (request_labels_round_trip [" "%char] "llama3:8b" false []
              [("messages",
                DArray [DObject [("role", DString "user");
                                 ("content", DString "Hi\nthere")]]);
               ("options", DObject [("temperature", DNumber "0.7")])]
              [("keep_alive", DNumber "300")]
              eq_refl eq_refl eq_refl eq_refl)
    as (H1 & H2 & H3 & H4 & _).
  repeat split; assumption.
Defined.

(** X21: an upstream body that spells a JSON object with one
    [prompt_eval_count] and one [eval_count], both integers in decimal, is
    decoded without error to those two numbers, for every value of an
    [int64].  The other members may be any JSON values, nested ones
    included; the text may be compact or have white space behind its commas
    and colons. *)
Theorem token_counts_round_trip
  (ws : list ascii) (p e : Z) (a b c : list (string * doc)) :
  let d := DObject (a ++ ("prompt_eval_count", DNumber (Itoa p)) :: b
                      ++ ("eval_count", DNumber (Itoa e)) :: c) in
  forallb is_space ws = true ->
  - 2 ^ 63 <= p < 2 ^ 63 -> - 2 ^ 63 <= e < 2 ^ 63 ->
  acceptable (DObject (a ++ b ++ c)) = true ->
  beside ["eval_count"; "prompt_eval_count"] (a ++ b ++ c) = true ->
  Unmarshal_OllamaResponseMetrics (body_of ws d) OllamaResponseMetrics_zero
  = ({| EvalCount := Some e; PromptEvalCount := Some p |}, false).
Proof.
  intros d Hws Hpr Her Hacc Hb.
  unfold beside in Hb. rewrite !forallb_app in Hb.
  apply andb_true_iff in Hb as [Ha Hb]. apply andb_true_iff in Hb as [Hb Hc].
  assert (Hd : acceptable d = true).
  { apply acceptable_with;
      first [ assumption | reflexivity
            | cbn [fst snd wf]; rewrite number_ok_Itoa; reflexivity ]. }
  unfold Unmarshal_OllamaResponseMetrics.
  rewrite (acceptable_parse ws d Hws Hd). subst d. cbn [value_of_doc].
  change (map (fun kv : string * doc =>
                 (decoded (fst kv), value_of_doc (snd kv))))
    with (map member_value).
  rewrite map_app, fold_left_app.
  rewrite (store_OllamaResponseMetrics_beside a _ Ha).
  cbn [map]. cbn [fold_left]. rewrite map_app, fold_left_app.
  assert (E1 : store_OllamaResponseMetrics (OllamaResponseMetrics_zero, false)
                 (member_value ("prompt_eval_count", DNumber (Itoa p)))
               = ({| EvalCount := None; PromptEvalCount := Some p |}, false)).
  { unfold member_value, store_OllamaResponseMetrics.
    cbn [fst snd value_of_doc].
    change (decoded "prompt_eval_count") with "prompt_eval_count".
    change (Decoder.field_matches "eval_count" "prompt_eval_count") with false.
    change (Decoder.field_matches "prompt_eval_count" "prompt_eval_count")
      with true.
    cbn iota. unfold Decoder.store_int64_ptr.
    rewrite (ParseInt64_Itoa p Hpr). reflexivity. }
  rewrite E1, (store_OllamaResponseMetrics_beside b _ Hb).
  cbn [map fold_left].
  assert (E2 : store_OllamaResponseMetrics
                 ({| EvalCount := None; PromptEvalCount := Some p |}, false)
                 (member_value ("eval_count", DNumber (Itoa e)))
               = ({| EvalCount := Some e; PromptEvalCount := Some p |}, false)).
  { unfold member_value, store_OllamaResponseMetrics.
    cbn [fst snd value_of_doc].
    change (decoded "eval_count") with "eval_count".
    change (Decoder.field_matches "eval_count" "eval_count") with true.
    cbn iota. unfold Decoder.store_int64_ptr.
    rewrite (ParseInt64_Itoa e Her). reflexivity. }
  rewrite E2. apply (store_OllamaResponseMetrics_beside c _ Hc).
Qed.

Lemma token_counts_round_trip_witness :
  let d := DObject [("model", DString "llama3:8b");
                    ("response", DString "The sky is blue.");
                    ("done", DBool true);
                    ("context", DArray [DNumber "1"; DNumber "2"]);
                    ("total_duration", DNumber "5043500667");
                    ("prompt_eval_count", DNumber "26");
                    ("prompt_eval_duration", DNumber "130079000");
                    ("eval_count", DNumber "298");
                    ("eval_duration", DNumber "4799921000")] in
  Unmarshal_OllamaResponseMetrics (body_of [] d) OllamaResponseMetrics_zero
  = ({| EvalCount := Some 298; PromptEvalCount := Some 26 |}, false).
Proof.
  apply (token_counts_round_trip [] 26 298
           [("model", DString "llama3:8b");
            ("response", DString "The sky is blue.");
            ("done", DBool true);
            ("context", DArray [DNumber "1"; DNumber "2"]);
            ("total_duration", DNumber "5043500667")]
           [("prompt_eval_duration", DNumber "130079000")]
           [("eval_duration", DNumber "4799921000")]);
    solve [lia | reflexivity].
Defined.

(** X22: [encoding/json] as it is embedded takes every JSON text: a body
    that spells a well-formed document, nested up to the depth that the
    scanner allows, in compact form or with white space behind its commas
    and colons, is no syntax error and parses to the value of the document;
    when the document is an object, the two [json.Unmarshal] calls of the
    handler store its members, in the order of the text. *)
Theorem json_text_is_parsed (ws : list ascii) (d : doc) :
  forallb is_space ws = true -> acceptable d = true ->
  parse (body_of ws d) = Some (value_of_doc d) /\
  forall ms, d = DObject ms ->
    Unmarshal_RequestPayload (body_of ws d) RequestPayload_zero
    = fold_left store_RequestPayload (map member_value ms)
        (RequestPayload_zero, false) /\
    Unmarshal_OllamaResponseMetrics (body_of ws d) OllamaResponseMetrics_zero
    = fold_left store_OllamaResponseMetrics (map member_value ms)
        (OllamaResponseMetrics_zero, false).
Proof.
  intros Hws Hd. assert (E := acceptable_parse ws d Hws Hd).
  split; [exact E|]. intros ms ->.
  unfold Unmarshal_RequestPayload, Unmarshal_OllamaResponseMetrics.
  rewrite E. split; reflexivity.
Qed.

Lemma json_text_is_parsed_witness :
  let d := DArray [DObject [("a", DNumber "-1.5e3"); ("b", DNull)];
                   DString "é\n"; DArray []; DBool true] in
  parse (body_of [" "%char] d) = Some (value_of_doc d).
Proof.
  apply (json_text_is_parsed [" "%char]
           (DArray [DObject [("a", DNumber "-1.5e3"); ("b", DNull)];
                    DString "é\n"; DArray []; DBool true])
           eq_refl eq_refl).
Defined.

(** ** Configuration *)

Lemma cut_equals_none (l : list ascii) :
  forallb (fun c => negb (c =? "=")%char) l = true ->
  flag.cut_equals l = (l, None).
Proof.
  induction l as [|c l IH]; cbn; [reflexivity|].
  destruct (c =? "=")%char; cbn; [discriminate|].
  intros H. rewrite (IH H). reflexivity.
Qed.

Lemma parseOne_render (st : setting) :
  flag.parseOne ["listen"; "upstream"] (hd EmptyString (render st))
  = if joined st then flag.WithValue (name_of (which st)) (given st)
    else flag.NeedsValue (name_of (which st)).
Proof.
  destruct st as [[|] [|] [|] v]; cbn; unfold flag.parseOne; cbn;
    rewrite ?str_bytes; reflexivity.
Qed.

Lemma Parse_command_line (sts : list setting) (vs : flag.values)
  (rest : list string) :
  flag.Parse ["listen"; "upstream"] vs (command_line sts ++ rest)
  = flag.Parse ["listen"; "upstream"] (after sts vs) rest.
Proof.
  revert vs. induction sts as [|st sts IH]; intros vs; [reflexivity|].
  unfold command_line. cbn [flat_map]. rewrite <- app_assoc.
  fold (command_line sts).
  assert (E := parseOne_render st).
  destruct st as [f d j v]. unfold render in *.
  cbn [joined which given double_minus] in *.
  destruct j; cbn [app hd] in *; cbn [flag.Parse]; rewrite E; apply IH.
Qed.

Lemma Parse_stops (vs : flag.values) (tail : list string) :
  stops tail ->
  flag.Parse ["listen"; "upstream"] vs tail = flag.Parsed vs tail.
Proof.
  destruct tail as [|s tail]; [reflexivity|]. cbn. intros ->. reflexivity.
Qed.

Lemma after_value (f : flag_name) (sts : list setting) (vs : flag.values) :
  after sts vs (name_of f)
  = match last_given f sts with
    | Some v => v
    | None => vs (name_of f)
    end.
Proof.
  revert vs. induction sts as [|st sts IH]; intros vs; [reflexivity|].
  cbn. unfold after in *. rewrite IH.
  destruct (last_given f sts); [reflexivity|].
  destruct f, (which st); reflexivity.
Qed.

(** X23: the configuration that [main] starts the server with.  For each
    of the two flags the command line beats everything, and of two values
    on the command line the later wins; without the flag the listen
    address is :8080 and the upstream is the variable OLLAMA_UPSTREAM when
    it is set and not empty, else http://127.0.0.1:11434.  The flags may
    be written with one minus sign or two, the value joined by an equals
    sign or as the next argument; they end at the first argument that is
    not a flag, and what follows it is not read. *)
Theorem main_configuration (url_Parse : string -> option URL) (env : Env)
  (sts : list setting) (tail : list string) :
  stops tail ->
  let addr :=
    match last_given Listen sts with
    | Some v => v
    | None => ":8080"
    end in
  let up :=
    match last_given Upstream sts with
    | Some v => v
    | None =>
      match env "OLLAMA_UPSTREAM" with
      | Some v =>
        if String.eqb v EmptyString then "http://127.0.0.1:11434" else v
      | None => "http://127.0.0.1:11434"
      end
    end in
  main url_Parse env (command_line sts ++ tail)
  = match url_Parse up with
    | Some u => ListenAndServe addr u
    | None => Fatal
    end.
Proof.
  intros Ht addr up. unfold main.
  rewrite Parse_command_line, (Parse_stops _ tail Ht).
  rewrite (after_value Upstream), (after_value Listen).
  subst addr up. unfold flag_defaults, getEnv. cbn.
  destruct (last_given Upstream sts), (last_given Listen sts),
    (env "OLLAMA_UPSTREAM") as [v|]; try reflexivity;
    destruct (String.eqb v EmptyString); reflexivity.
Qed.

Lemma main_configuration_witness :
  let url_Parse := fun s =>
    Some {| Scheme := "http"; Host := s;
            Path := EmptyString; RawQuery := EmptyString |} in
  let env := fun k =>
    if String.eqb k "OLLAMA_UPSTREAM" then Some "http://10.0.0.2:11434"
    else None in
  main url_Parse env
    ["-listen"; ":9090"; "--upstream=http://ollama:11434"; "serve";
     "-listen=:1"]
  = ListenAndServe ":9090"
      {| Scheme := "http"; Host := "http://ollama:11434";
         Path := EmptyString; RawQuery := EmptyString |}.
Proof.
  exact (main_configuration
           (fun s => Some {| Scheme := "http"; Host := s;
                             Path := EmptyString; RawQuery := EmptyString |})
           (fun k => if String.eqb k "OLLAMA_UPSTREAM"
                     then Some "http://10.0.0.2:11434" else None)
           [{| which := Listen; double_minus := false; joined := false;
               given := ":9090" |};
            {| which := Upstream; double_minus := true; joined := true;
               given := "http://ollama:11434" |}]
           ["serve"; "-listen=:1"] eq_refl).
Defined.

Lemma parseOne_undefined (dd : bool) (name : string) :
  undefined_flag name = true ->
  flag.parseOne ["listen"; "upstream"]
    ((if dd then "--" else "-") ++ name)
  = if String.eqb name "help" || String.eqb name "h" then flag.ErrHelp
    else flag.Failf "flag provided but not defined: -%s".
Proof.
  unfold undefined_flag, flag.parseOne. intros H.
  assert (Eb : bytes ((if dd then "--" else "-") ++ name)
               = if dd then "-"%char :: "-"%char :: bytes name
                 else "-"%char :: bytes name)
    by (destruct dd; reflexivity).
  rewrite Eb. clear Eb.
  destruct (bytes name) as [|n0 t] eqn:E; [discriminate|].
  apply andb_true_iff in H as [H H5]. apply andb_true_iff in H as [H H4].
  apply andb_true_iff in H as [H H3]. apply andb_true_iff in H as [H1 H2].
  apply negb_true_iff in H1, H2, H4, H5.
  assert (Hgo :
            (let '(n, v) := flag.cut_equals t in
             let name0 := str (n0 :: n) in
             if existsb (String.eqb name0) ["listen"; "upstream"] then
               match v with
               | Some value => flag.WithValue name0 (str value)
               | None => flag.NeedsValue name0
               end
             else if String.eqb name0 "help" || String.eqb name0 "h"
                  then flag.ErrHelp
                  else flag.Failf "flag provided but not defined: -%s")
            = if String.eqb name "help" || String.eqb name "h"
              then flag.ErrHelp
              else flag.Failf "flag provided but not defined: -%s").
  { rewrite (cut_equals_none t H3). cbn zeta.
    rewrite <- E, str_bytes. cbn [existsb]. rewrite H4, H5. reflexivity. }
  destruct dd.
  - change ("-" =? "-")%char with true. cbn [negb andb].
    rewrite H1, H2. cbn [orb]. exact Hgo.
  - change ("-" =? "-")%char with true. cbn [negb].
    rewrite H1. cbn [andb]. rewrite H1, H2. cbn [orb]. exact Hgo.
Qed.

(** X24: a command line that names a flag which the program does not
    define, or that ends in one of its two flags without a value, ends the
    process before anything is served: with status 0 for [-h] and [-help],
    with status 2 otherwise. *)
Theorem main_exits_on_bad_flags (url_Parse : string -> option URL) (env : Env)
  (sts : list setting) :
  (forall (dd : bool) name rest,
     undefined_flag name = true ->
     main url_Parse env
       (command_line sts
          ++ ((if dd then "--" else "-") ++ name)%string :: rest)
     = Exited (if String.eqb name "help" || String.eqb name "h"
               then 0 else 2)) /\
  (forall (dd : bool) f,
     main url_Parse env
       (command_line sts
          ++ [((if dd then "--" else "-") ++ name_of f)%string])
     = Exited 2).
Proof.
  split.
  - intros dd name rest H. unfold main. rewrite Parse_command_line.
    cbn [flag.Parse]. rewrite (parseOne_undefined dd name H).
    destruct (String.eqb name "help" || String.eqb name "h"); reflexivity.
  - intros dd f. unfold main. rewrite Parse_command_line.
    destruct dd, f; reflexivity.
Qed.

Lemma main_exits_on_bad_flags_witness :
  let url_Parse := fun _ : string => None in
  let env := fun _ : string => None in
  main url_Parse env ["-listen=:9090"; "-verbose"; "-upstream"; "x"]
  = Exited 2 /\
  main url_Parse env ["-listen=:9090"; "--help"] = Exited 0 /\
  main url_Parse env ["-listen=:9090"; "-upstream"] = Exited 2.
Proof.
  destruct (main_exits_on_bad_flags (fun _ => None) (fun _ => None)
              [{| which := Listen; double_minus := false; joined := true;
                  given := ":9090" |}])
    as [H1 H2].
  split; [exact (H1 false "verbose" ["-upstream"; "x"] eq_refl)|].
  split; [exact (H1 true "help" [] eq_refl) | exact (H2 false Upstream)].
Defined.
